(** * youtube-ai-video-gen: authentication and generation core

    A shallow embedding of the session codec ([lib/auth/session]), the
    Access token verifier ([lib/auth/access]), the D1 accessors
    ([lib/db/client]) and the three generation route handlers
    ([app/api/generate/{script,image,tts}/route.ts]), the environment flags
    ([lib/env]), the middleware ([middleware.ts]) and the reading of the
    script provider's answer ([lib/ai/gemini]), followed by the properties
    established about them.

    Conventions of the embedding:
    - a JavaScript string is a [string]; its characters are the code units
      (those below 256, which is all that [ascii] can hold);
    - a [Uint8Array] is a [list byte];
    - a JavaScript integer is a [Z] (exact below 2^53, which is where the
      program uses them: versions, sizes, timestamps);
    - [x ?? y] on an optional field is [default y x] on an [option];
    - a function that can throw returns a [Result]; an [async] function that
      touches D1, KV, R2 or a provider is a state transformer on [World]. *)

From Stdlib Require Import ZArith Lia List Ascii String.
From Stdlib Require Import Sorting.Sorted.
From Stdlib.Strings Require Import Byte.
From stdpp Require Import base option list strings gmap.

Local Open Scope Z_scope.
#[local] Set Warnings "-register-all".

(* ================================================================== *)
(** * Part I: the program *)
(* ================================================================== *)

(** ** JavaScript values that cross the modelled boundaries *)
Module Js.

(** What a [throw] carries: an [Error] with its message, or anything else
    (for which the handlers record ["Unknown error"]). *)
Inductive Thrown :=
| ThrownError (message : string)
| ThrownOther.

Inductive Result (A : Type) :=
| Ok (a : A)
| Throw (e : Thrown).
Arguments Ok {A} a.
Arguments Throw {A} e.

Definition bind {A B} (r : Result A) (k : A -> Result B) : Result B :=
  match r with
  | Ok a => k a
  | Throw e => Throw e
  end.

(** [cause instanceof Error ? cause.message : "Unknown error"] *)
Definition error_message (cause : Thrown) : string :=
  match cause with
  | ThrownError m => m
  | ThrownOther => "Unknown error"
  end.

(** A JSON document. *)
Inductive Json :=
| JNull
| JBool (b : bool)
| JNum (n : Z)
| JStr (s : string)
| JArr (items : list Json)
| JObj (fields : list (string * Json)).

(** Truthiness of a value obtained from [JSON.parse]; [None] is [null]
    or [undefined]. *)
Definition truthy (j : Json) : bool :=
  match j with
  | JNull => false
  | JBool b => b
  | JNum n => negb (n =? 0)
  | JStr s => negb (String.eqb s "")
  | JArr _ | JObj _ => true
  end.

(** [obj.key] on a parsed document: [None] is [undefined]. *)
Fixpoint assoc (key : string) (fields : list (string * Json)) : option Json :=
  match fields with
  | [] => None
  | (k, v) :: rest => if String.eqb k key then Some v else assoc key rest
  end.

Definition get_field (key : string) (j : Json) : option Json :=
  match j with
  | JObj fields => assoc key fields
  | _ => None
  end.

(** Truthiness of a string-typed optional field: [!value] holds for
    [undefined], [null] and the empty string. *)
Definition str_truthy (s : option string) : bool :=
  match s with
  | Some s => negb (String.eqb s "")
  | None => false
  end.

(** [value.split(sep)] for a one-character separator. *)
Fixpoint split_chars (sep : ascii) (cur : list ascii) (cs : list ascii) : list string :=
  match cs with
  | [] => [string_of_list_ascii (rev cur)]
  | c :: rest =>
      if Ascii.eqb c sep then string_of_list_ascii (rev cur) :: split_chars sep [] rest
      else split_chars sep (c :: cur) rest
  end.

Definition split (sep : ascii) (value : string) : list string :=
  split_chars sep [] (list_ascii_of_string value).

(** The [TypeError] of V8 for reading a property of [null]. *)
Definition null_property_error (key : string) : Thrown :=
  ThrownError ("Cannot read properties of null (reading '" +:+ key +:+ "')").

(** The code units of a string, and back. *)
Definition code (c : ascii) : Z := Z.of_N (N_of_ascii c).
Definition chr (z : Z) : ascii := ascii_of_N (Z.to_N z).
Definition byte_code (b : byte) : Z := Z.of_N (Byte.to_N b).
Definition byte_of (z : Z) : byte := default x00 (Byte.of_N (Z.to_N z)).

End Js.
Export Js.

(** ** [btoa] and [atob]

    The two platform functions the session codec is written over, as the
    HTML standard defines them (forgiving-base64 encode and decode). *)
Module Base64.

Definition alphabet : list ascii :=
  list_ascii_of_string
    "ABCDEFGHIJKLMNOPQRSTUVWXYZabcdefghijklmnopqrstuvwxyz0123456789+/".

Definition b64_char (v : Z) : ascii := nth (Z.to_nat v) alphabet "A"%char.

Definition b64_val (c : ascii) : option Z :=
  let n := code c in
  if (65 <=? n) && (n <=? 90) then Some (n - 65)
  else if (97 <=? n) && (n <=? 122) then Some (n - 71)
  else if (48 <=? n) && (n <=? 57) then Some (n + 4)
  else if n =? 43 then Some 62
  else if n =? 47 then Some 63
  else None.

(** The 6-bit groups of a byte sequence; the last group is padded with
    zero bits. *)
Fixpoint sextets (bs : list Z) : list Z :=
  match bs with
  | [] => []
  | [a] => [a / 4; (a mod 4) * 16]
  | [a; b] => [a / 4; (a mod 4) * 16 + b / 16; (b mod 16) * 4]
  | a :: b :: c :: rest =>
      a / 4 :: (a mod 4) * 16 + b / 16 :: (b mod 16) * 4 + c / 64 :: c mod 64
        :: sextets rest
  end.

Definition btoa_chars (bs : list Z) : list ascii :=
  map b64_char (sextets bs)
    ++ repeat "="%char ((3 - length bs mod 3) mod 3)%nat.

Definition btoa (binary : string) : string :=
  string_of_list_ascii (btoa_chars (map code (list_ascii_of_string binary))).

Definition is_ascii_whitespace (c : ascii) : bool :=
  let n := code c in
  (n =? 9) || (n =? 10) || (n =? 12) || (n =? 13) || (n =? 32).

(** "If data ends with one or two U+003D (=) code points, remove them",
    on the reversed sequence. *)
Definition strip_padding_rev (rev_data : list ascii) : list ascii :=
  match rev_data with
  | "="%char :: "="%char :: rest => rest
  | "="%char :: rest => rest
  | _ => rev_data
  end.

(** Bytes of a run of 6-bit groups: 24 bits give three bytes; a rest of 12
    bits gives one byte and drops four bits, a rest of 18 bits gives two
    bytes and drops two bits. *)
Fixpoint unsextets (vs : list Z) : list Z :=
  match vs with
  | s0 :: s1 :: s2 :: s3 :: rest =>
      s0 * 4 + s1 / 16 :: (s1 mod 16) * 16 + s2 / 4 :: (s2 mod 4) * 64 + s3
        :: unsextets rest
  | [s0; s1; s2] => [s0 * 4 + s1 / 16; (s1 mod 16) * 16 + s2 / 4]
  | [s0; s1] => [s0 * 4 + s1 / 16]
  | _ => []
  end.

Fixpoint all_vals (cs : list ascii) : option (list Z) :=
  match cs with
  | [] => Some []
  | c :: rest =>
      match b64_val c, all_vals rest with
      | Some v, Some vs => Some (v :: vs)
      | _, _ => None
      end
  end.

Definition atob_chars (data : list ascii) : option (list Z) :=
  let data := List.filter (fun c => negb (is_ascii_whitespace c)) data in
  let data :=
    if (length data mod 4 =? 0)%nat
    then rev (strip_padding_rev (rev data)) else data in
  if (length data mod 4 =? 1)%nat then None
  else match all_vals data with
       | Some vs => Some (unsextets vs)
       | None => None
       end.

(** [atob] throws an [InvalidCharacterError] where the decoding fails. *)
Definition atob (data : string) : Result string :=
  match atob_chars (list_ascii_of_string data) with
  | Some bs => Ok (string_of_list_ascii (map chr bs))
  | None => Throw (ThrownError "The string to be decoded is not correctly encoded.")
  end.

End Base64.

(** ** HMAC-SHA-256

    [crypto.subtle.sign("HMAC", key, data)] for a key imported with hash
    SHA-256, after FIPS 180-4 and RFC 2104. 32-bit words are [Z] reduced
    modulo 2^32. *)
Module Sha256.

Definition w32 (x : Z) : Z := x mod 2 ^ 32.
Definition rotr (n x : Z) : Z := w32 (Z.lor (Z.shiftr x n) (Z.shiftl x (32 - n))).
Definition shr (n x : Z) : Z := Z.shiftr x n.

Definition Ch (x y z : Z) : Z := Z.lxor (Z.land x y) (Z.land (w32 (Z.lnot x)) z).
Definition Maj (x y z : Z) : Z :=
  Z.lxor (Z.lxor (Z.land x y) (Z.land x z)) (Z.land y z).
Definition Sigma0 (x : Z) : Z := Z.lxor (Z.lxor (rotr 2 x) (rotr 13 x)) (rotr 22 x).
Definition Sigma1 (x : Z) : Z := Z.lxor (Z.lxor (rotr 6 x) (rotr 11 x)) (rotr 25 x).
Definition sigma0 (x : Z) : Z := Z.lxor (Z.lxor (rotr 7 x) (rotr 18 x)) (shr 3 x).
Definition sigma1 (x : Z) : Z := Z.lxor (Z.lxor (rotr 17 x) (rotr 19 x)) (shr 10 x).

(** The constants are fractional parts of roots of the first primes: 32 bits
    of the cube roots of the first 64 primes for [K], of the square roots of
    the first 8 for [H0]. *)
Definition is_prime (n : Z) : bool :=
  forallb (fun d => negb (n mod d =? 0)) (seqZ 2 (Z.sqrt n - 1)).

Definition primes : list Z := List.filter is_prime (seqZ 2 310).

(** The greatest [r] below [2 ^ bits] with [r ^ 3 <= n], one bit at a
    time. *)
Fixpoint cube_root (bits : nat) (r n : Z) : Z :=
  match bits with
  | O => r
  | S b =>
      let r' := r + 2 ^ Z.of_nat b in
      if r' * r' * r' <=? n then cube_root b r' n else cube_root b r n
  end.

Definition K : list Z :=
  Eval vm_compute in map (fun p => w32 (cube_root 40 0 (p * 2 ^ 96))) primes.

Definition H0 : list Z :=
  Eval vm_compute in map (fun p => w32 (Z.sqrt (p * 2 ^ 64))) (firstn 8 primes).

(** Big-endian bytes of a word, and back. *)
Definition word_bytes (w : Z) : list Z :=
  [(w / 2 ^ 24) mod 256; (w / 2 ^ 16) mod 256; (w / 2 ^ 8) mod 256; w mod 256].

Fixpoint words_of (bs : list Z) : list Z :=
  match bs with
  | a :: b :: c :: d :: rest =>
      (a * 2 ^ 24 + b * 2 ^ 16 + c * 2 ^ 8 + d) :: words_of rest
  | _ => []
  end.

(** The message followed by the bit 1, zero bits up to 56 modulo 64 bytes,
    and the bit length on 64 bits. *)
Definition pad (msg : list Z) : list Z :=
  let len := Z.of_nat (length msg) in
  let zeros := Z.to_nat ((55 - len) mod 64) in
  let bits := len * 8 in
  msg ++ [0x80] ++ repeat 0 zeros
      ++ word_bytes (bits / 2 ^ 32) ++ word_bytes (bits mod 2 ^ 32).

(** The message schedule, newest word first: [rev_w] holds W(t-1), W(t-2),
    ... *)
Fixpoint schedule (n : nat) (rev_w : list Z) : list Z :=
  match n with
  | O => rev_w
  | S n' =>
      let at_ i := nth i rev_w 0 in
      let w := w32 (sigma1 (at_ 1%nat) + at_ 6%nat + sigma0 (at_ 14%nat) + at_ 15%nat) in
      schedule n' (w :: rev_w)
  end.

Definition round (st : list Z) (kw : Z * Z) : list Z :=
  match st with
  | [a; b; c; d; e; f; g; h] =>
      let t1 := h + Sigma1 e + Ch e f g + fst kw + snd kw in
      let t2 := Sigma0 a + Maj a b c in
      [w32 (t1 + t2); a; b; c; w32 (d + t1); e; f; g]
  | _ => st
  end.

Definition compress (h : list Z) (block : list Z) : list Z :=
  let w := rev (schedule 48 (rev (words_of block))) in
  let st := fold_left round (combine K w) h in
  map (fun p => w32 (fst p + snd p)) (combine h st).

Fixpoint blocks (n : nat) (h : list Z) (bs : list Z) : list Z :=
  match n with
  | O => h
  | S n' => blocks n' (compress h (firstn 64 bs)) (skipn 64 bs)
  end.

Definition sha256 (msg : list Z) : list Z :=
  let padded := pad msg in
  concat (map word_bytes (blocks (length padded / 64) H0 padded)).

Definition xor_pad (p : Z) (key : list Z) : list Z := map (Z.lxor p) key.

Definition hmac (key msg : list Z) : list Z :=
  let key := if (64 <? Z.of_nat (length key)) then sha256 key else key in
  let key := key ++ repeat 0 (64 - length key)%nat in
  sha256 (xor_pad 0x5c key ++ sha256 (xor_pad 0x36 key ++ msg)).

Definition hmac_sha256 (key data : list byte) : list byte :=
  map byte_of (hmac (map byte_code key) (map byte_code data)).

Definition hex_digit (v : Z) : ascii := nth (Z.to_nat v) (list_ascii_of_string "0123456789abcdef") "0"%char.
Definition hex (bs : list Z) : string :=
  string_of_list_ascii (concat (map (fun b => [hex_digit (b / 16); hex_digit (b mod 16)]) bs)).

End Sha256.

(** ** The text and JSON primitives of the runtime

    [TextEncoder], [TextDecoder], [JSON.stringify] and [JSON.parse] are
    the platform's; the program is modelled over any implementation of
    them. [JSON_parse] throws a [SyntaxError] on malformed text. *)
Class Platform := {
  utf8_encode : string -> list byte;
  utf8_decode : list byte -> string;
  JSON_stringify : Json -> string;
  JSON_parse : string -> Result Json;
}.

#[global] Instance byte_eq_decision : EqDecision byte := Byte.byte_eq_dec.

(** [process.env], read through [lib/env]. *)
Module Env.

Definition ProcessEnv := gmap string string.

Definition getEnv (env : gmap string string) (name : string) : option string :=
  env !! name.

Definition requireEnv (env : gmap string string) (name : string) : Result string :=
  match getEnv env name with
  | Some value =>
      if String.eqb value "" then
        Throw (ThrownError ("Missing required environment variable: " +:+ name))
      else Ok value
  | None => Throw (ThrownError ("Missing required environment variable: " +:+ name))
  end.

End Env.

(** ** [lib/auth/session] *)
Module Session.
Import Env.

Section WithPlatform.
Context {P : Platform}.

Record SessionIdentity := {
  sub : string;
  email : option string;
  name : option string;
}.

(** The object [{...identity, issuedAt}] as [JSON.stringify] sees it:
    properties whose value is [undefined] are left out. *)
Definition optional_field (key : string) (v : option string) : list (string * Json) :=
  match v with
  | Some s => [(key, JStr s)]
  | None => []
  end.

Definition SessionPayload (identity : SessionIdentity) (issuedAt : Z) : Json :=
  JObj ([("sub", JStr (sub identity))]
          ++ optional_field "email" (email identity)
          ++ optional_field "name" (name identity)
          ++ [("issuedAt", JNum issuedAt)]).

(** [value.replace(/c/g, d)] for single characters. *)
Definition replace_char (c d : ascii) (s : string) : string :=
  string_of_list_ascii
    (map (fun x => if Ascii.eqb x c then d else x) (list_ascii_of_string s)).

Definition remove_char (c : ascii) (s : string) : string :=
  string_of_list_ascii
    (List.filter (fun x => negb (Ascii.eqb x c)) (list_ascii_of_string s)).

Definition base64UrlEncode (data : list byte) : string :=
  let base64 := Base64.btoa (string_of_list_byte data) in
  replace_char "/" "_" (replace_char "+" "-" (remove_char "=" base64)).

Definition base64UrlDecode (value : string) : Result (list byte) :=
  let padded := replace_char "_" "/" (replace_char "-" "+" value) in
  let padLength := ((4 - String.length padded mod 4) mod 4)%nat in
  let base64 := padded +:+ string_of_list_ascii (repeat "="%char padLength) in
  bind (Base64.atob base64) (fun binary => Ok (list_byte_of_string binary)).

Definition getSessionSecret (env : gmap string string) : Result string :=
  bind (requireEnv env "SESSION_SECRET") (fun secret =>
    if (String.length secret <? 32)%nat then
      Throw (ThrownError "SESSION_SECRET must be at least 32 characters long")
    else Ok secret).

(** [keyPromise]: the imported HMAC key, that is its raw bytes, once it has
    been derived. *)
Definition KeyCache := option (list byte).

Definition getKey (env : gmap string string) (keyPromise : KeyCache)
  : Result (list byte) * KeyCache :=
  match keyPromise with
  | Some key => (Ok key, keyPromise)
  | None =>
      match getSessionSecret env with
      | Ok secret => let key := utf8_encode secret in (Ok key, Some key)
      | Throw e => (Throw e, None)
      end
  end.

(** [now] is the value of [Date.now()]. *)
Definition createSessionValue (env : gmap string string) (keyPromise : KeyCache)
    (now : Z) (identity : SessionIdentity) : Result string * KeyCache :=
  let payload := SessionPayload identity now in
  let serialized := JSON_stringify payload in
  let data := utf8_encode serialized in
  match getKey env keyPromise with
  | (Ok key, cache) =>
      let signatureBuffer := Sha256.hmac_sha256 key data in
      let signature := base64UrlEncode signatureBuffer in
      let encodedData := base64UrlEncode data in
      (Ok (encodedData +:+ "." +:+ signature), cache)
  | (Throw e, cache) => (Throw e, cache)
  end.

(** [crypto.subtle.verify("HMAC", key, signature, data)] *)
Definition verify (key signature data : list byte) : bool :=
  bool_decide (Sha256.hmac_sha256 key data = signature).

(** The body of the [try] block. *)
Definition parse_checked (env : gmap string string) (keyPromise : KeyCache)
    (encodedData signature : string) : Result (option Json) * KeyCache :=
  match base64UrlDecode encodedData with
  | Throw e => (Throw e, keyPromise)
  | Ok dataBytes =>
      match base64UrlDecode signature with
      | Throw e => (Throw e, keyPromise)
      | Ok signatureBytes =>
          match getKey env keyPromise with
          | (Throw e, cache) => (Throw e, cache)
          | (Ok key, cache) =>
              if negb (verify key signatureBytes dataBytes) then (Ok None, cache)
              else
                let json := utf8_decode dataBytes in
                match JSON_parse json with
                | Ok payload => (Ok (Some payload), cache)
                | Throw e => (Throw e, cache)
                end
          end
      end
  end.

(** The result is [null] ([None]) or the payload; the outer [Result] records
    whether the call throws. *)
Definition parseSessionValue (env : gmap string string) (keyPromise : KeyCache)
    (value : option string) : Result (option Json) * KeyCache :=
  if negb (str_truthy value) then (Ok None, keyPromise)
  else
    let parts := split "." (default "" value) in
    let encodedData := parts !! 0%nat in
    let signature := parts !! 1%nat in
    if negb (str_truthy encodedData) || negb (str_truthy signature)
    then (Ok None, keyPromise)
    else
      match parse_checked env keyPromise (default "" encodedData) (default "" signature) with
      | (Ok r, cache) => (Ok r, cache)
      | (Throw _, cache) => (Ok None, cache)
      end.

End WithPlatform.
End Session.

(** ** A reference implementation of the platform primitives

    UTF-8 and JSON on the strings of the embedding (code units below 256),
    used to evaluate the program on concrete inputs. *)
Module Reference.

Definition encode_unit (c : ascii) : list byte :=
  let n := code c in
  if n <? 128 then [byte_of n]
  else [byte_of (192 + n / 64); byte_of (128 + n mod 64)].

Definition encode (s : string) : list byte :=
  concat (map encode_unit (list_ascii_of_string s)).

(** Two-byte sequences of code points below 256 and single bytes; anything
    else decodes to ['?'] here (the replacement character U+FFFD is out of
    the range of [ascii]). *)
Fixpoint decode_units (bs : list Z) : list ascii :=
  match bs with
  | [] => []
  | b :: rest =>
      if b <? 128 then chr b :: decode_units rest
      else match rest with
           | b2 :: rest' =>
               if ((b =? 194) || (b =? 195)) && (128 <=? b2) && (b2 <? 192)
               then chr ((b - 192) * 64 + (b2 - 128)) :: decode_units rest'
               else "?"%char :: decode_units rest
           | [] => ["?"%char]
           end
  end.

Definition decode (bs : list byte) : string :=
  string_of_list_ascii (decode_units (map byte_code bs)).

Definition digit_char (d : Z) : ascii := chr (48 + d).

Fixpoint digits_of (fuel : nat) (n : Z) (acc : list ascii) : list ascii :=
  match fuel with
  | O => acc
  | S f =>
      if n <? 10 then digit_char n :: acc
      else digits_of f (n / 10) (digit_char (n mod 10) :: acc)
  end.

Definition number_text (n : Z) : list ascii :=
  if n <? 0 then "-"%char :: digits_of (Z.to_nat (Z.log2 (- n)) + 1) (- n) []
  else digits_of (Z.to_nat (Z.log2 n) + 1) n [].

Definition quote_char (c : ascii) : list ascii :=
  let n := code c in
  if n =? 34 then ["\"; "034"]%char
  else if n =? 92 then ["\"; "\"]%char
  else if n =? 8 then ["\"; "b"]%char
  else if n =? 9 then ["\"; "t"]%char
  else if n =? 10 then ["\"; "n"]%char
  else if n =? 12 then ["\"; "f"]%char
  else if n =? 13 then ["\"; "r"]%char
  else if n <? 32 then
    ["\"; "u"; "0"; "0"]%char ++ [Sha256.hex_digit (n / 16); Sha256.hex_digit (n mod 16)]
  else [c].

Definition quote (s : string) : list ascii :=
  "034"%char :: concat (map quote_char (list_ascii_of_string s)) ++ ["034"%char].

Fixpoint join_with (sep : ascii) (parts : list (list ascii)) : list ascii :=
  match parts with
  | [] => []
  | [p] => p
  | p :: rest => p ++ sep :: join_with sep rest
  end.

Fixpoint stringify_chars (j : Json) : list ascii :=
  match j with
  | JNull => list_ascii_of_string "null"
  | JBool true => list_ascii_of_string "true"
  | JBool false => list_ascii_of_string "false"
  | JNum n => number_text n
  | JStr s => quote s
  | JArr items => "["%char :: join_with "," (map stringify_chars items) ++ ["]"%char]
  | JObj fields =>
      "{"%char
        :: join_with ","
             (map (fun kv => quote (fst kv) ++ ":"%char :: stringify_chars (snd kv)) fields)
        ++ ["}"%char]
  end.

Definition stringify (j : Json) : string := string_of_list_ascii (stringify_chars j).

Definition is_ws (c : ascii) : bool :=
  let n := code c in (n =? 32) || (n =? 9) || (n =? 10) || (n =? 13).

Fixpoint skip_ws (cs : list ascii) : list ascii :=
  match cs with
  | c :: rest => if is_ws c then skip_ws rest else cs
  | [] => []
  end.

Definition hex_val (c : ascii) : option Z :=
  let n := code c in
  if (48 <=? n) && (n <=? 57) then Some (n - 48)
  else if (97 <=? n) && (n <=? 102) then Some (n - 87)
  else if (65 <=? n) && (n <=? 70) then Some (n - 55)
  else None.

(** The characters of a string literal after its opening quote. *)
Fixpoint parse_string (cs : list ascii) (acc : list ascii)
  : option (string * list ascii) :=
  match cs with
  | [] => None
  | c :: rest =>
      let n := code c in
      if n =? 34 then Some (string_of_list_ascii (rev acc), rest)
      else if n <? 32 then None
      else if n =? 92 then
        match rest with
        | e :: rest' =>
            let m := code e in
            if m =? 34 then parse_string rest' ("034"%char :: acc)
            else if m =? 92 then parse_string rest' ("\"%char :: acc)
            else if m =? 47 then parse_string rest' ("/"%char :: acc)
            else if m =? 98 then parse_string rest' (chr 8 :: acc)
            else if m =? 116 then parse_string rest' (chr 9 :: acc)
            else if m =? 110 then parse_string rest' (chr 10 :: acc)
            else if m =? 102 then parse_string rest' (chr 12 :: acc)
            else if m =? 114 then parse_string rest' (chr 13 :: acc)
            else if m =? 117 then
              match rest' with
              | h1 :: h2 :: h3 :: h4 :: rest'' =>
                  match hex_val h1, hex_val h2, hex_val h3, hex_val h4 with
                  | Some 0, Some 0, Some a, Some b =>
                      parse_string rest'' (chr (a * 16 + b) :: acc)
                  | _, _, _, _ => None
                  end
              | _ => None
              end
            else None
        | [] => None
        end
      else parse_string rest (c :: acc)
  end.

Definition is_digit (c : ascii) : bool := (48 <=? code c) && (code c <=? 57).

Fixpoint parse_digits (cs : list ascii) (acc : Z) : Z * list ascii :=
  match cs with
  | c :: rest => if is_digit c then parse_digits rest (acc * 10 + (code c - 48)) else (acc, cs)
  | [] => (acc, [])
  end.

Definition parse_number (cs : list ascii) : option (Json * list ascii) :=
  match cs with
  | "-"%char :: (d :: _) as rest =>
      if is_digit d then let (n, r) := parse_digits rest 0 in Some (JNum (- n), r) else None
  | d :: _ =>
      if is_digit d then let (n, r) := parse_digits cs 0 in Some (JNum n, r) else None
  | [] => None
  end.

Fixpoint parse_value (fuel : nat) (cs : list ascii) : option (Json * list ascii) :=
  match fuel with
  | O => None
  | S f =>
      match skip_ws cs with
      | "n" :: "u" :: "l" :: "l" :: r => Some (JNull, r)
      | "t" :: "r" :: "u" :: "e" :: r => Some (JBool true, r)
      | "f" :: "a" :: "l" :: "s" :: "e" :: r => Some (JBool false, r)
      | "034" :: r =>
          match parse_string r [] with
          | Some (s, r') => Some (JStr s, r')
          | None => None
          end
      | "[" :: r =>
          match skip_ws r with
          | "]" :: r' => Some (JArr [], r')
          | _ =>
              match parse_items f r with
              | Some (items, r') => Some (JArr items, r')
              | None => None
              end
          end
      | "{" :: r =>
          match skip_ws r with
          | "}" :: r' => Some (JObj [], r')
          | _ =>
              match parse_members f r with
              | Some (fields, r') => Some (JObj fields, r')
              | None => None
              end
          end
      | other => parse_number other
      end%char
  end
with parse_items (fuel : nat) (cs : list ascii) : option (list Json * list ascii) :=
  match fuel with
  | O => None
  | S f =>
      match parse_value f cs with
      | Some (v, r) =>
          match skip_ws r with
          | "," :: r' =>
              match parse_items f r' with
              | Some (vs, r'') => Some (v :: vs, r'')
              | None => None
              end
          | "]" :: r' => Some ([v], r')
          | _ => None
          end%char
      | None => None
      end
  end
with parse_members (fuel : nat) (cs : list ascii)
  : option (list (string * Json) * list ascii) :=
  match fuel with
  | O => None
  | S f =>
      match skip_ws cs with
      | "034" :: r =>
          match parse_string r [] with
          | Some (k, r1) =>
              match skip_ws r1 with
              | ":" :: r2 =>
                  match parse_value f r2 with
                  | Some (v, r3) =>
                      match skip_ws r3 with
                      | "," :: r4 =>
                          match parse_members f r4 with
                          | Some (kvs, r5) => Some ((k, v) :: kvs, r5)
                          | None => None
                          end
                      | "}" :: r4 => Some ([(k, v)], r4)
                      | _ => None
                      end
                  | None => None
                  end
              | _ => None
              end
          | None => None
          end
      | _ => None
      end%char
  end.

Definition parse (text : string) : Result Json :=
  let cs := list_ascii_of_string text in
  match parse_value (S (length cs)) cs with
  | Some (v, rest) =>
      match skip_ws rest with
      | [] => Ok v
      | _ => Throw (ThrownError "Unexpected non-whitespace character after JSON")
      end
  | None => Throw (ThrownError "Unexpected token in JSON")
  end.

#[local] Instance platform : Platform := {|
  utf8_encode := encode;
  utf8_decode := decode;
  JSON_stringify := stringify;
  JSON_parse := parse;
|}.

End Reference.


(** ** The D1 schema ([migrations/0000_init.sql]) and its row types *)
Module DBUser.
Record t := {
  id : string;
  access_sub : string;
  email : option string;
  name : option string;
  created_at : Z;
}.
End DBUser.

Module DBProject.
Record t := {
  id : string;
  user_id : string;
  title : option string;
  topic : option string;
  target_length : option Z;
  status : string;
  created_at : Z;
  updated_at : Z;
}.
End DBProject.

Module DBProjectVersion.
Record t := {
  id : string;
  project_id : string;
  version : Z;
  script : string;
  outline : string;
  seo : string;
  generated_with : option string;
  created_at : Z;
}.
End DBProjectVersion.

Module DBAsset.
Record t := {
  id : string;
  project_id : string;
  type : string;
  label : option string;
  r2_key : string;
  mime_type : option string;
  size_bytes : option Z;
  created_at : Z;
}.
End DBAsset.

Module DBGenerationJob.
Record t := {
  id : string;
  project_id : string;
  job_type : string;
  status : string;
  payload : option string;
  error : option string;
  created_at : Z;
  updated_at : Z;
}.
End DBGenerationJob.

(** ** The bindings of a request: D1, KV, R2, the clock, the providers *)
Module World.

(** The five tables, each in insertion order. *)
Record Database := {
  users : list DBUser.t;
  projects : list DBProject.t;
  project_versions : list DBProjectVersion.t;
  assets : list DBAsset.t;
  generation_jobs : list DBGenerationJob.t;
}.

(** A KV entry: the stored text and the time (seconds) at which it
    expires. *)
Record KvEntry := {
  kv_value : string;
  kv_expiration : Z;
}.

Record R2Object := {
  r2_body : list byte;
  r2_contentType : string;
}.

(** Parameters of the three provider calls. *)
Record GenerateScriptParams := {
  gs_topic : string;
  gs_persona : option string;
  gs_lengthMinutes : option Z;
  gs_language : option string;
}.

Record GeminiScriptSection := {
  heading : string;
  narration : string;
  brollIdeas : option (list string);
  durationSeconds : option Z;
}.

Record GeminiSeo := {
  seo_title : string;
  seo_description : string;
  seo_tags : list string;
}.

Record GeminiResponse := {
  outline : list string;
  sections : list GeminiScriptSection;
  seo : GeminiSeo;
  thumbnailIdeas : list string;
}.

Record TtsParams := {
  tts_text : string;
  tts_voice : option Json;
  tts_audioConfig : option Json;
}.

Record TtsResult := {
  audio : list byte;
  mimeType : string;
}.

Record DeepAiImageParams := {
  img_prompt : string;
  img_style : option string;
  img_aspectRatio : option string;
}.

(** The [Response] that [generateImage] returns: its [content-type] header
    and what [arrayBuffer()] yields. *)
Record ImageResponse := {
  content_type : option string;
  arrayBuffer : Result (list byte);
}.

(** A statement that changed (or could change) rows of D1. *)
Inductive Write :=
| InsertUser (row : DBUser.t)
| UpdateUser (id : string) (email name : option string)
| InsertProject (row : DBProject.t)
| UpdateProject (id : string) (title topic status : option string)
| InsertProjectVersion (row : DBProjectVersion.t)
| InsertGenerationJob (row : DBGenerationJob.t)
| UpdateGenerationJob (id status : string) (error : option string)
| InsertAsset (row : DBAsset.t).

(** What a request does outside its own memory: a call to a provider, a
    [put] to the bucket, a [get] or [put] on the cache, a statement that
    writes to D1. *)
Inductive Event :=
| GeminiCall (params : GenerateScriptParams)
| TtsCall (params : TtsParams)
| DeepAiCall (params : DeepAiImageParams)
| BucketPut (key : string)
| CacheGet (key : string)
| CachePut (key : string)
| D1Write (entry : Write).

(** The outside world: the sequence of values [crypto.randomUUID()] will
    return, and the answer of each provider or of the bucket to a call made
    when [n] events have been recorded. *)
Record Outside := {
  uuid_source : nat -> string;
  generateYoutubeScript : nat -> GenerateScriptParams -> Result GeminiResponse;
  synthesizeSpeech : nat -> TtsParams -> Result TtsResult;
  generateImage : nat -> DeepAiImageParams -> Result ImageResponse;
  bucket_put_outcome : nat -> string -> Result unit;
}.

(** The bindings [DB], [CACHE] and [MEDIA_BUCKET], the clock (seconds), how
    many identifiers have been drawn, and the record of what the requests
    did so far, oldest first. *)
Record t := {
  DB : Database;
  CACHE : gmap string KvEntry;
  MEDIA_BUCKET : gmap string R2Object;
  now : Z;
  uuids_drawn : nat;
  events : list Event;
}.

Definition log_event (e : Event) (w : t) : t :=
  {| DB := DB w; CACHE := CACHE w; MEDIA_BUCKET := MEDIA_BUCKET w; now := now w;
     uuids_drawn := uuids_drawn w; events := events w ++ [e] |}.

Definition set_DB (d : Database) (entry : Write) (w : t) : t :=
  {| DB := d; CACHE := CACHE w; MEDIA_BUCKET := MEDIA_BUCKET w; now := now w;
     uuids_drawn := uuids_drawn w; events := events w ++ [D1Write entry] |}.

Definition set_CACHE (c : gmap string KvEntry) (w : t) : t :=
  {| DB := DB w; CACHE := c; MEDIA_BUCKET := MEDIA_BUCKET w; now := now w;
     uuids_drawn := uuids_drawn w; events := events w |}.

Definition set_MEDIA_BUCKET (b : gmap string R2Object) (w : t) : t :=
  {| DB := DB w; CACHE := CACHE w; MEDIA_BUCKET := b; now := now w;
     uuids_drawn := uuids_drawn w; events := events w |}.

Definition draw_uuid (w : t) : t :=
  {| DB := DB w; CACHE := CACHE w; MEDIA_BUCKET := MEDIA_BUCKET w; now := now w;
     uuids_drawn := S (uuids_drawn w); events := events w |}.

Definition M (A : Type) : Type := t -> Result A * t.

Definition ret {A} (a : A) : M A := fun w => (Ok a, w).
Definition throw {A} (e : Thrown) : M A := fun w => (Throw e, w).
Definition and_then {A B} (m : M A) (k : A -> M B) : M B :=
  fun w => match m w with
           | (Ok a, w') => k a w'
           | (Throw e, w') => (Throw e, w')
           end.
(** [try { body } catch (cause) { handler }] *)
Definition try_catch {A} (body : M A) (handler : Thrown -> M A) : M A :=
  fun w => match body w with
           | (Ok a, w') => (Ok a, w')
           | (Throw e, w') => handler e w'
           end.
Definition lift {A} (r : Result A) : M A := fun w => (r, w).
Definition get_db : M Database := fun w => (Ok (DB w), w).
(** A statement that leaves the tables as [d]. *)
Definition write_db (d : Database) (entry : Write) : M unit :=
  fun w => (Ok tt, set_DB d entry w).
Definition get_now : M Z := fun w => (Ok (now w), w).

#[global] Instance world_ret : MRet M := @ret.
#[global] Instance world_bind : MBind M := fun A B k m => and_then m k.

End World.
Export World(M, ret, throw, and_then, try_catch, lift, get_db, write_db, get_now).


(** ** [lib/db/client]

    Each accessor runs its SQL statements against the tables. An [INSERT]
    that breaks a constraint of the schema (primary key, [UNIQUE], foreign
    key) rejects, which is a [throw] for the caller. D1 itself is taken to
    be available. *)
Module Db.
Import World.

Section WithOutside.
Context {P : Platform} (out : Outside).

(** [crypto.randomUUID()] *)
Definition randomUUID : M string :=
  fun w => (Ok (uuid_source out (uuids_drawn w)), draw_uuid w).

Definition constraint_failed {A} (what : string) : M A :=
  throw (ThrownError ("D1_ERROR: " +:+ what)).

(** SQL [coalesce(?, column)] *)
Definition coalesce {A} (param column : option A) : option A :=
  match param with
  | Some v => Some v
  | None => column
  end.

Definition user_ids (d : Database) : list string := map DBUser.id (users d).
Definition project_ids (d : Database) : list string := map DBProject.id (projects d).

Definition select_user_by_sub (d : Database) (accessSub : string) : option DBUser.t :=
  find (fun u => bool_decide (DBUser.access_sub u = accessSub)) (users d).

Definition select_user_by_id (d : Database) (id : string) : option DBUser.t :=
  find (fun u => bool_decide (DBUser.id u = id)) (users d).

Definition insert_user (row : DBUser.t) : M unit :=
  d ← get_db;
  if bool_decide (DBUser.id row ∈ user_ids d) then
    constraint_failed "UNIQUE constraint failed: users.id"
  else if bool_decide (DBUser.access_sub row ∈ map DBUser.access_sub (users d)) then
    constraint_failed "UNIQUE constraint failed: users.access_sub"
  else
    write_db {| users := users d ++ [row]; projects := projects d;
                project_versions := project_versions d; assets := assets d;
                generation_jobs := generation_jobs d |} (InsertUser row).

Definition update_user (id : string) (email name : option string) : M unit :=
  d ← get_db;
  write_db {| users :=
              map (fun u =>
                     if bool_decide (DBUser.id u = id) then
                       {| DBUser.id := DBUser.id u;
                          DBUser.access_sub := DBUser.access_sub u;
                          DBUser.email := coalesce email (DBUser.email u);
                          DBUser.name := coalesce name (DBUser.name u);
                          DBUser.created_at := DBUser.created_at u |}
                     else u) (users d);
            projects := projects d; project_versions := project_versions d;
            assets := assets d; generation_jobs := generation_jobs d |}
    (UpdateUser id email name).

Definition ensureUser (accessSub : string) (email name : option string)
  : M DBUser.t :=
  d ← get_db;
  match select_user_by_sub d accessSub with
  | Some existing =>
      if str_truthy email || str_truthy name then
        _ ← update_user (DBUser.id existing) email name;
        mret {| DBUser.id := DBUser.id existing;
                DBUser.access_sub := DBUser.access_sub existing;
                DBUser.email := coalesce email (DBUser.email existing);
                DBUser.name := coalesce name (DBUser.name existing);
                DBUser.created_at := DBUser.created_at existing |}
      else mret existing
  | None =>
      id ← randomUUID;
      t ← get_now;
      _ ← insert_user {| DBUser.id := id; DBUser.access_sub := accessSub;
                         DBUser.email := email; DBUser.name := name;
                         DBUser.created_at := t |};
      d' ← get_db;
      match select_user_by_id d' id with
      | Some inserted => mret inserted
      | None => throw (ThrownError "Failed to insert user")
      end
  end.

Definition getProjectById (projectId : string) : M (option DBProject.t) :=
  d ← get_db;
  mret (find (fun p => bool_decide (DBProject.id p = projectId)) (projects d)).

Definition insert_project (row : DBProject.t) : M unit :=
  d ← get_db;
  if bool_decide (DBProject.id row ∈ project_ids d) then
    constraint_failed "UNIQUE constraint failed: projects.id"
  else if negb (bool_decide (DBProject.user_id row ∈ user_ids d)) then
    constraint_failed "FOREIGN KEY constraint failed"
  else
    write_db {| users := users d; projects := projects d ++ [row];
                project_versions := project_versions d; assets := assets d;
                generation_jobs := generation_jobs d |} (InsertProject row).

Definition createProject (userId : string) (title topic : option string)
    (targetLength : option Z) : M DBProject.t :=
  id ← randomUUID;
  t ← get_now;
  _ ← insert_project {| DBProject.id := id; DBProject.user_id := userId;
                        DBProject.title := title; DBProject.topic := topic;
                        DBProject.target_length := targetLength;
                        DBProject.status := "draft";
                        DBProject.created_at := t; DBProject.updated_at := t |};
  project ← getProjectById id;
  match project with
  | Some project => mret project
  | None => throw (ThrownError "Failed to create project")
  end.

Definition updateProjectMetadata (projectId : string)
    (title topic status : option string) : M unit :=
  d ← get_db;
  t ← get_now;
  write_db {| users := users d;
            projects :=
              map (fun p =>
                     if bool_decide (DBProject.id p = projectId) then
                       {| DBProject.id := DBProject.id p;
                          DBProject.user_id := DBProject.user_id p;
                          DBProject.title := coalesce title (DBProject.title p);
                          DBProject.topic := coalesce topic (DBProject.topic p);
                          DBProject.target_length := DBProject.target_length p;
                          DBProject.status := default (DBProject.status p) status;
                          DBProject.created_at := DBProject.created_at p;
                          DBProject.updated_at := t |}
                     else p) (projects d);
            project_versions := project_versions d; assets := assets d;
            generation_jobs := generation_jobs d |}
    (UpdateProject projectId title topic status).

(** The [version]s recorded for a project. *)
Definition versions_of (d : Database) (projectId : string) : list Z :=
  map DBProjectVersion.version
    (List.filter (fun v => bool_decide (DBProjectVersion.project_id v = projectId))
       (project_versions d)).

(** [SELECT version ... ORDER BY version DESC LIMIT 1]: the greatest one. *)
Fixpoint greatest (vs : list Z) : option Z :=
  match vs with
  | [] => None
  | v :: rest =>
      match greatest rest with
      | Some m => Some (Z.max v m)
      | None => Some v
      end
  end.

Definition insert_project_version (row : DBProjectVersion.t) : M unit :=
  d ← get_db;
  if bool_decide (DBProjectVersion.id row ∈ map DBProjectVersion.id (project_versions d)) then
    constraint_failed "UNIQUE constraint failed: project_versions.id"
  else if bool_decide (DBProjectVersion.version row
                         ∈ versions_of d (DBProjectVersion.project_id row)) then
    constraint_failed
      "UNIQUE constraint failed: project_versions.project_id, project_versions.version"
  else if negb (bool_decide (DBProjectVersion.project_id row ∈ project_ids d)) then
    constraint_failed "FOREIGN KEY constraint failed"
  else
    write_db {| users := users d; projects := projects d;
                project_versions := project_versions d ++ [row]; assets := assets d;
                generation_jobs := generation_jobs d |} (InsertProjectVersion row).

Definition insertProjectVersion (projectId : string) (outline script seo : Json)
    (generatedMetadata : option Json) : M DBProjectVersion.t :=
  d ← get_db;
  let lastVersion := greatest (versions_of d projectId) in
  let nextVersion := default 0 lastVersion + 1 in
  id ← randomUUID;
  t ← get_now;
  _ ← insert_project_version
        {| DBProjectVersion.id := id;
           DBProjectVersion.project_id := projectId;
           DBProjectVersion.version := nextVersion;
           DBProjectVersion.script := JSON_stringify script;
           DBProjectVersion.outline := JSON_stringify outline;
           DBProjectVersion.seo := JSON_stringify seo;
           DBProjectVersion.generated_with :=
             match generatedMetadata with
             | Some meta => if truthy meta then Some (JSON_stringify meta) else None
             | None => None
             end;
           DBProjectVersion.created_at := t |};
  d' ← get_db;
  match find (fun v => bool_decide (DBProjectVersion.id v = id)) (project_versions d') with
  | Some inserted => mret inserted
  | None => throw (ThrownError "Failed to insert project version")
  end.

Definition insert_generation_job (row : DBGenerationJob.t) : M unit :=
  d ← get_db;
  if bool_decide (DBGenerationJob.id row ∈ map DBGenerationJob.id (generation_jobs d)) then
    constraint_failed "UNIQUE constraint failed: generation_jobs.id"
  else if negb (bool_decide (DBGenerationJob.project_id row ∈ project_ids d)) then
    constraint_failed "FOREIGN KEY constraint failed"
  else
    write_db {| users := users d; projects := projects d;
                project_versions := project_versions d; assets := assets d;
                generation_jobs := generation_jobs d ++ [row] |}
      (InsertGenerationJob row).

Definition insertGenerationJob (projectId jobType : string) (status : option string)
    (payload : option Json) : M DBGenerationJob.t :=
  id ← randomUUID;
  t ← get_now;
  _ ← insert_generation_job
        {| DBGenerationJob.id := id;
           DBGenerationJob.project_id := projectId;
           DBGenerationJob.job_type := jobType;
           DBGenerationJob.status := default "queued" status;
           DBGenerationJob.payload := Some (JSON_stringify (default JNull payload));
           DBGenerationJob.error := None;
           DBGenerationJob.created_at := t;
           DBGenerationJob.updated_at := t |};
  d ← get_db;
  match find (fun j => bool_decide (DBGenerationJob.id j = id)) (generation_jobs d) with
  | Some job => mret job
  | None => throw (ThrownError "Failed to insert generation job")
  end.

Definition updateGenerationJobStatus (jobId status : string) (error : option string)
  : M unit :=
  d ← get_db;
  t ← get_now;
  write_db {| users := users d; projects := projects d;
            project_versions := project_versions d; assets := assets d;
            generation_jobs :=
              map (fun j =>
                     if bool_decide (DBGenerationJob.id j = jobId) then
                       {| DBGenerationJob.id := DBGenerationJob.id j;
                          DBGenerationJob.project_id := DBGenerationJob.project_id j;
                          DBGenerationJob.job_type := DBGenerationJob.job_type j;
                          DBGenerationJob.status := status;
                          DBGenerationJob.payload := DBGenerationJob.payload j;
                          DBGenerationJob.error := error;
                          DBGenerationJob.created_at := DBGenerationJob.created_at j;
                          DBGenerationJob.updated_at := t |}
                     else j) (generation_jobs d) |}
    (UpdateGenerationJob jobId status error).

Definition insert_asset (row : DBAsset.t) : M unit :=
  d ← get_db;
  if bool_decide (DBAsset.id row ∈ map DBAsset.id (assets d)) then
    constraint_failed "UNIQUE constraint failed: assets.id"
  else if negb (bool_decide (DBAsset.project_id row ∈ project_ids d)) then
    constraint_failed "FOREIGN KEY constraint failed"
  else
    write_db {| users := users d; projects := projects d;
                project_versions := project_versions d; assets := assets d ++ [row];
                generation_jobs := generation_jobs d |} (InsertAsset row).

Definition insertAsset (projectId type : string) (label : option string)
    (r2Key : string) (mimeType : option string) (sizeBytes : option Z)
  : M DBAsset.t :=
  id ← randomUUID;
  t ← get_now;
  _ ← insert_asset {| DBAsset.id := id; DBAsset.project_id := projectId;
                      DBAsset.type := type; DBAsset.label := label;
                      DBAsset.r2_key := r2Key; DBAsset.mime_type := mimeType;
                      DBAsset.size_bytes := sizeBytes; DBAsset.created_at := t |};
  d ← get_db;
  match find (fun a => bool_decide (DBAsset.id a = id)) (assets d) with
  | Some asset => mret asset
  | None => throw (ThrownError "Failed to insert asset")
  end.

End WithOutside.
End Db.

(** ** The generation routes ([app/api/generate/*/route.ts])

    A request reaches a handler with the headers the middleware attached
    and a body, for which [request.json()] throws or returns a value. A
    value is [null] or is taken at its declared type, every field possibly
    absent. *)
Module Routes.
Import World Db.

Record Response := {
  status : Z;
  body : Json;
}.

(** [NextResponse.json(body)] and [NextResponse.json(body, { status })] *)
Definition json_response (body : Json) : Response := {| status := 200; body := body |}.
Definition error_response (message : string) (status : Z) : Response :=
  {| status := status; body := JObj [("error", JStr message)] |}.

Definition unauthorized : Response := error_response "Unauthorized" 401.
Definition badRequest (message : string) : Response := error_response message 400.
Definition forbidden (message : string) : Response := error_response message 403.

Record Headers := {
  x_user_sub : option string;
  x_user_email : option string;
  x_user_name : option string;
}.

(** What [await request.json()] makes of the body of a request: the value
    of a body that is JSON, which is read at its declared type ([Parsed]; a
    number, a text, a truth value or an array has none of the fields) or is
    [null] ([JsonNull]); for a body that is not JSON it throws
    ([InvalidJson]). *)
Inductive Body (A : Type) :=
| Parsed (payload : A)
| InvalidJson
| JsonNull.
Arguments Parsed {A} payload.
Arguments InvalidJson {A}.
Arguments JsonNull {A}.

Record ScriptRequestBody := {
  topic : option string;
  persona : option string;
  lengthMinutes : option Z;
  language : option string;
  script_projectId : option string;
  regenerate : option bool;
}.

Record ImageRequestBody := {
  image_projectId : option string;
  prompt : option string;
  style : option string;
  aspectRatio : option string;
  image_label : option string;
}.

Record SectionInput := {
  section_id : option string;
  section_heading : option string;
  text : option string;
}.

Record TtsRequestBody := {
  tts_projectId : option string;
  tts_sections : option (list SectionInput);
  voice : option Json;
  audioConfig : option Json;
}.

(** The documents that [JSON.stringify] serialises. *)
Definition opt_field {A} (key : string) (f : A -> Json) (v : option A)
  : list (string * Json) :=
  match v with
  | Some a => [(key, f a)]
  | None => []
  end.

Definition or_null {A} (f : A -> Json) (v : option A) : Json :=
  match v with
  | Some a => f a
  | None => JNull
  end.

Definition json_strings (l : list string) : Json := JArr (map JStr l).

Definition json_of_script_body (b : ScriptRequestBody) : Json :=
  JObj (opt_field "topic" JStr (topic b) ++ opt_field "persona" JStr (persona b)
          ++ opt_field "lengthMinutes" JNum (lengthMinutes b)
          ++ opt_field "language" JStr (language b)
          ++ opt_field "projectId" JStr (script_projectId b)
          ++ opt_field "regenerate" JBool (regenerate b)).

Definition json_of_image_body (b : ImageRequestBody) : Json :=
  JObj (opt_field "projectId" JStr (image_projectId b) ++ opt_field "prompt" JStr (prompt b)
          ++ opt_field "style" JStr (style b)
          ++ opt_field "aspectRatio" JStr (aspectRatio b)
          ++ opt_field "label" JStr (image_label b)).

Definition json_of_section_input (s : SectionInput) : Json :=
  JObj (opt_field "id" JStr (section_id s) ++ opt_field "heading" JStr (section_heading s)
          ++ opt_field "text" JStr (text s)).

Definition json_of_tts_body (b : TtsRequestBody) : Json :=
  JObj (opt_field "projectId" JStr (tts_projectId b)
          ++ opt_field "sections" (fun l => JArr (map json_of_section_input l)) (tts_sections b)
          ++ opt_field "voice" id (voice b)
          ++ opt_field "audioConfig" id (audioConfig b)).

Definition json_of_section (s : GeminiScriptSection) : Json :=
  JObj ([("heading", JStr (heading s)); ("narration", JStr (narration s))]
          ++ opt_field "brollIdeas" json_strings (brollIdeas s)
          ++ opt_field "durationSeconds" JNum (durationSeconds s)).

Definition json_of_seo (s : GeminiSeo) : Json :=
  JObj [("title", JStr (seo_title s)); ("description", JStr (seo_description s));
        ("tags", json_strings (seo_tags s))].

Definition json_of_response (r : GeminiResponse) : Json :=
  JObj [("outline", json_strings (outline r));
        ("sections", JArr (map json_of_section (sections r)));
        ("seo", json_of_seo (seo r));
        ("thumbnailIdeas", json_strings (thumbnailIdeas r))].

Section WithOutside.
Context {P : Platform} (out : Outside).
(** [sha256] of [lib/utils/hash], whose source is not part of the excerpt:
    any function from text to text. *)
Context (sha256 : string -> string).

Definition call_generateYoutubeScript (params : GenerateScriptParams) : M GeminiResponse :=
  fun w => (generateYoutubeScript out (length (events w)) params,
            log_event (GeminiCall params) w).

Definition call_synthesizeSpeech (params : TtsParams) : M TtsResult :=
  fun w => (synthesizeSpeech out (length (events w)) params,
            log_event (TtsCall params) w).

Definition call_generateImage (params : DeepAiImageParams) : M ImageResponse :=
  fun w => (generateImage out (length (events w)) params,
            log_event (DeepAiCall params) w).

(** [env.MEDIA_BUCKET.put(key, body, { httpMetadata: { contentType } })] *)
Definition bucket_put (key : string) (body : list byte) (contentType : string) : M unit :=
  fun w =>
    match bucket_put_outcome out (length (events w)) key with
    | Ok _ =>
        (Ok tt,
         set_MEDIA_BUCKET
           (<[key := {| r2_body := body; r2_contentType := contentType |}]> (MEDIA_BUCKET w))
           (log_event (BucketPut key) w))
    | Throw e => (Throw e, log_event (BucketPut key) w)
    end.

(** [env.CACHE.get(key, { type: "json" })]: [None] is [null], for a key
    that is absent or expired. *)
Definition cache_get (key : string) : M (option Json) :=
  fun w =>
    let w' := log_event (CacheGet key) w in
    match CACHE w !! key with
    | Some entry =>
        if now w <? kv_expiration entry then
          match JSON_parse (kv_value entry) with
          | Ok v => (Ok (Some v), w')
          | Throw e => (Throw e, w')
          end
        else (Ok None, w')
    | None => (Ok None, w')
    end.

(** [env.CACHE.put(key, value, { expirationTtl })] *)
Definition cache_put (key value : string) (expirationTtl : Z) : M unit :=
  fun w =>
    (Ok tt,
     set_CACHE
       (<[key := {| kv_value := value; kv_expiration := now w + expirationTtl |}]> (CACHE w))
       (log_event (CachePut key) w)).

Definition cacheBase (payload : ScriptRequestBody) : string :=
  JSON_stringify
    (JObj [("topic", or_null JStr (topic payload));
           ("persona", or_null JStr (persona payload));
           ("length", or_null JNum (lengthMinutes payload));
           ("language", or_null JStr (language payload))]).

Definition cacheKey (payload : ScriptRequestBody) : string :=
  "script:" +:+ sha256 (cacheBase payload).

(** The [try] block of the script handler. *)
Definition script_generate (payload : ScriptRequestBody) (projectId : string)
    (job : DBGenerationJob.t) : M Response :=
  result ← call_generateYoutubeScript
             {| gs_topic := default "" (topic payload);
                gs_persona := persona payload;
                gs_lengthMinutes := lengthMinutes payload;
                gs_language := language payload |};
  (* the handler also passes [generatedWith], which [insertProjectVersion]
     does not read: its [generatedMetadata] is undefined *)
  _ ← insertProjectVersion out projectId
        (json_strings (outline result))
        (JArr (map json_of_section (sections result)))
        (json_of_seo (seo result)) None;
  _ ← updateProjectMetadata projectId
        (Some (seo_title (seo result))) (topic payload) (Some "ready");
  _ ← cache_put (cacheKey payload) (JSON_stringify (json_of_response result))
        (60 * 60 * 6);
  _ ← updateGenerationJobStatus (DBGenerationJob.id job) "succeeded" None;
  mret (json_response
          (JObj [("projectId", JStr projectId); ("cached", JBool false);
                 ("result", json_of_response result)])).

(** From the job insert on: what runs on a cache miss. *)
Definition script_miss (payload : ScriptRequestBody) (projectId : string)
  : M Response :=
  job ← insertGenerationJob out projectId "script" (Some "running")
          (Some (json_of_script_body payload));
  try_catch (script_generate payload projectId job)
    (fun cause =>
       _ ← updateGenerationJobStatus (DBGenerationJob.id job) "failed"
             (Some (error_message cause));
       mret (error_response "Failed to generate script" 500)).

(** From the cache lookup on. *)
Definition script_lookup (payload : ScriptRequestBody) (projectId : string)
  : M Response :=
  cached ← (if negb (default false (regenerate payload))
            then cache_get (cacheKey payload) else mret None);
  match cached with
  | Some hit =>
      if truthy hit then
        mret (json_response
                (JObj [("projectId", JStr projectId); ("cached", JBool true);
                       ("result", hit)]))
      else script_miss payload projectId
  | None => script_miss payload projectId
  end.

(** [POST /api/generate/script] *)
Definition POST_script (headers : Headers) (body : Body ScriptRequestBody)
  : M Response :=
  let userSub := x_user_sub headers in
  let userEmail := x_user_email headers in
  let userName := x_user_name headers in
  if negb (str_truthy userSub) then mret unauthorized
  else
    match body with
    | InvalidJson => mret (badRequest "Invalid JSON body")
    | JsonNull => throw (null_property_error "topic")
    | Parsed payload =>
        if negb (str_truthy (topic payload)) then mret (badRequest "'topic' is required")
        else
          user ← ensureUser out (default "" userSub) userEmail userName;
          if str_truthy (script_projectId payload) then
            let projectId := default "" (script_projectId payload) in
            project ← getProjectById projectId;
            match project with
            | None => mret (badRequest "Project not found")
            | Some project =>
                if negb (bool_decide (DBProject.user_id project = DBUser.id user))
                then mret (forbidden "Project does not belong to user")
                else script_lookup payload projectId
            end
          else
            project ← createProject out (DBUser.id user) (topic payload) (topic payload) None;
            script_lookup payload (DBProject.id project)
    end.

(** The [try] block of the image handler. *)
Definition image_generate (payload : ImageRequestBody) (project : DBProject.t)
    (job : DBGenerationJob.t) : M Response :=
  let prompt := default "" (prompt payload) in
  imageResponse ← call_generateImage
                    {| img_prompt := prompt; img_style := style payload;
                       img_aspectRatio := aspectRatio payload |};
  let contentType := default "image/png" (content_type imageResponse) in
  let extension := default "png" (split "/" contentType !! 1%nat) in
  arrayBuffer ← lift (arrayBuffer imageResponse);
  uuid ← randomUUID out;
  let key := "images/" +:+ DBProject.id project +:+ "/" +:+ uuid +:+ "." +:+ extension in
  _ ← bucket_put key arrayBuffer contentType;
  asset ← insertAsset out (DBProject.id project) "image"
            (Some (default (substring 0 64 prompt) (image_label payload)))
            key (Some contentType) (Some (Z.of_nat (length arrayBuffer)));
  _ ← updateGenerationJobStatus (DBGenerationJob.id job) "succeeded" None;
  mret (json_response
          (JObj [("projectId", JStr (DBProject.id project));
                 ("assetId", JStr (DBAsset.id asset)); ("key", JStr key)])).

(** [POST /api/generate/image] *)
Definition POST_image (headers : Headers) (body : Body ImageRequestBody)
  : M Response :=
  let userSub := x_user_sub headers in
  let userEmail := x_user_email headers in
  let userName := x_user_name headers in
  if negb (str_truthy userSub) then mret unauthorized
  else
    match body with
    | InvalidJson => mret (badRequest "Invalid JSON body")
    | JsonNull => throw (null_property_error "projectId")
    | Parsed payload =>
        if negb (str_truthy (image_projectId payload))
        then mret (badRequest "'projectId' is required")
        else if negb (str_truthy (prompt payload))
        then mret (badRequest "'prompt' is required")
        else
          user ← ensureUser out (default "" userSub) userEmail userName;
          project ← getProjectById (default "" (image_projectId payload));
          match project with
          | None => mret (badRequest "Project not found")
          | Some project =>
              if negb (bool_decide (DBProject.user_id project = DBUser.id user))
              then mret (forbidden "Project does not belong to user")
              else
                job ← insertGenerationJob out (DBProject.id project) "image"
                        (Some "running") (Some (json_of_image_body payload));
                try_catch (image_generate payload project job)
                  (fun cause =>
                     _ ← updateGenerationJobStatus (DBGenerationJob.id job) "failed"
                           (Some (error_message cause));
                     mret (error_response "Failed to generate image" 500))
          end
    end.

(** One entry of the [results] array of the speech handler. *)
Definition tts_result_entry (assetId key : string) (heading : option string) : Json :=
  JObj ([("assetId", JStr assetId); ("key", JStr key)] ++ opt_field "heading" JStr heading).

(** The [for] loop over the sections; [results] is what has been pushed so
    far. *)
Fixpoint tts_sections_loop (payload : TtsRequestBody) (project : DBProject.t)
    (sections : list SectionInput) (results : list Json) : M (list Json) :=
  match sections with
  | [] => mret results
  | section :: rest =>
      if negb (str_truthy (text section)) then
        throw (ThrownError "Section text is required")
      else
        ttsResult ← call_synthesizeSpeech
                      {| tts_text := default "" (text section);
                         tts_voice := voice payload;
                         tts_audioConfig := audioConfig payload |};
        let audioBuffer := audio ttsResult in
        uuid ← randomUUID out;
        let key := "audio/" +:+ DBProject.id project +:+ "/" +:+ uuid +:+ ".mp3" in
        _ ← bucket_put key audioBuffer (mimeType ttsResult);
        asset ← insertAsset out (DBProject.id project) "audio"
                  (Some (default (default "Audio Segment" (section_id section))
                           (section_heading section)))
                  key (Some (mimeType ttsResult))
                  (Some (Z.of_nat (length (audio ttsResult))));
        tts_sections_loop payload project rest
          (results ++ [tts_result_entry (DBAsset.id asset) key (section_heading section)])
  end.

(** The [try] block of the speech handler. *)
Definition tts_generate (payload : TtsRequestBody) (project : DBProject.t)
    (job : DBGenerationJob.t) : M Response :=
  results ← tts_sections_loop payload project (default [] (tts_sections payload)) [];
  _ ← updateGenerationJobStatus (DBGenerationJob.id job) "succeeded" None;
  mret (json_response
          (JObj [("projectId", JStr (DBProject.id project)); ("assets", JArr results)])).

(** [POST /api/generate/tts] *)
Definition POST_tts (headers : Headers) (body : Body TtsRequestBody)
  : M Response :=
  let userSub := x_user_sub headers in
  let userEmail := x_user_email headers in
  let userName := x_user_name headers in
  if negb (str_truthy userSub) then mret unauthorized
  else
    match body with
    | InvalidJson => mret (badRequest "Invalid JSON body")
    | JsonNull => throw (null_property_error "projectId")
    | Parsed payload =>
        if negb (str_truthy (tts_projectId payload))
        then mret (badRequest "'projectId' is required")
        else if bool_decide (default [] (tts_sections payload) = [])
        then mret (badRequest "'sections' must be a non-empty array")
        else
          user ← ensureUser out (default "" userSub) userEmail userName;
          project ← getProjectById (default "" (tts_projectId payload));
          match project with
          | None => mret (badRequest "Project not found")
          | Some project =>
              if negb (bool_decide (DBProject.user_id project = DBUser.id user))
              then mret (forbidden "Project does not belong to user")
              else
                job ← insertGenerationJob out (DBProject.id project) "tts"
                        (Some "running") (Some (json_of_tts_body payload));
                try_catch (tts_generate payload project job)
                  (fun cause =>
                     _ ← updateGenerationJobStatus (DBGenerationJob.id job) "failed"
                           (Some (error_message cause));
                     mret (error_response "Failed to generate audio" 500))
          end
    end.

(** A generation request, by endpoint. *)
Inductive Request :=
| ScriptRequest (headers : Headers) (body : Body ScriptRequestBody)
| ImageRequest (headers : Headers) (body : Body ImageRequestBody)
| TtsRequest (headers : Headers) (body : Body TtsRequestBody).

Definition POST (request : Request) : M Response :=
  match request with
  | ScriptRequest h b => POST_script h b
  | ImageRequest h b => POST_image h b
  | TtsRequest h b => POST_tts h b
  end.

End WithOutside.
End Routes.

(** ** Identifiers not yet in use

    [crypto.randomUUID()] is taken to return identifiers that no row holds
    yet, and no identifier twice. *)
Module Fresh.
Import World.

Definition ids_in_use (d : Database) : list string :=
  map DBUser.id (users d)
    ++ map DBProject.id (projects d) ++ map DBProject.user_id (projects d)
    ++ map DBProjectVersion.id (project_versions d)
    ++ map DBProjectVersion.project_id (project_versions d)
    ++ map DBAsset.id (assets d) ++ map DBAsset.project_id (assets d)
    ++ map DBGenerationJob.id (generation_jobs d)
    ++ map DBGenerationJob.project_id (generation_jobs d).

(** The next [k] identifiers that will be drawn. *)
Definition upcoming (out : Outside) (w : World.t) (k : nat) : list string :=
  map (uuid_source out) (seq (uuids_drawn w) k).

Definition fresh_uuids (out : Outside) (w : World.t) (k : nat) : Prop :=
  NoDup (upcoming out w k)
  /\ Forall (fun u => u ∉ ids_in_use (DB w)) (upcoming out w k).

(** The primary key of [users]: no two rows share an [id]. *)
Definition users_keyed (d : Database) : Prop := NoDup (map DBUser.id (users d)).

End Fresh.

(** ** What a request may have touched *)
Module Frame.
Import World Routes.

Definition is_user_write (entry : Write) : Prop :=
  match entry with
  | InsertUser _ | UpdateUser _ _ _ => True
  | _ => False
  end.

(** From [w] to [w'] nothing happened but at most one statement, which
    wrote to [users]: every other table, the cache, the bucket and the
    clock are as they were, and no call left the worker. *)
Definition user_upsert_only (w w' : World.t) : Prop :=
  projects (DB w') = projects (DB w)
  /\ project_versions (DB w') = project_versions (DB w)
  /\ assets (DB w') = assets (DB w)
  /\ generation_jobs (DB w') = generation_jobs (DB w)
  /\ CACHE w' = CACHE w /\ MEDIA_BUCKET w' = MEDIA_BUCKET w
  /\ now w' = now w
  /\ exists entries, events w' = events w ++ map D1Write entries
                     /\ (length entries <= 1)%nat /\ Forall is_user_write entries.

(** From [w] to [w'] the table [users] changed in the rows of the subject
    [sub] at most. The rows of the other subjects are the same rows, in the
    same order. When [sub] had a row, no row has come or gone and every row
    has kept its [id] and its subject; when it had none, one row has come,
    which is a row of [sub]. And the statements that wrote to D1 in between
    are inserts of a row of [sub], or updates by an [id] that only rows of
    [sub] had. *)
Definition own_user_row_only (sub : string) (w w' : World.t) : Prop :=
  List.filter (fun u => negb (bool_decide (DBUser.access_sub u = sub))) (users (DB w'))
  = List.filter (fun u => negb (bool_decide (DBUser.access_sub u = sub))) (users (DB w))
  /\ match Db.select_user_by_sub (DB w) sub with
     | Some _ =>
         map DBUser.id (users (DB w')) = map DBUser.id (users (DB w))
         /\ map DBUser.access_sub (users (DB w')) = map DBUser.access_sub (users (DB w))
     | None =>
         exists row, DBUser.access_sub row = sub /\ users (DB w') = users (DB w) ++ [row]
     end
  /\ forall entry,
       D1Write entry ∈ drop (length (events w)) (events w') ->
       match entry with
       | InsertUser row => DBUser.access_sub row = sub
       | UpdateUser id _ _ =>
           forall u, u ∈ users (DB w) -> DBUser.id u = id -> DBUser.access_sub u = sub
       | _ => False
       end.

Definition headers_of (request : Request) : Headers :=
  match request with
  | ScriptRequest h _ | ImageRequest h _ | TtsRequest h _ => h
  end.

(** The request has a body that passes the checks of its handler and that
    names the project [projectId]. *)
Definition names_project (request : Request) (projectId : string) : Prop :=
  projectId <> ""
  /\ match request with
     | ScriptRequest _ (Parsed b) =>
         script_projectId b = Some projectId /\ str_truthy (topic b) = true
     | ImageRequest _ (Parsed b) =>
         image_projectId b = Some projectId /\ str_truthy (prompt b) = true
     | TtsRequest _ (Parsed b) =>
         tts_projectId b = Some projectId /\ default [] (tts_sections b) <> []
     | _ => False
     end.

(** The events of a request that stops at a cache hit: the upsert of the
    user, the insert of a project, the lookup in the cache. No provider is
    called and no job, version or asset is written. *)
Definition quiet (e : Event) : Prop :=
  match e with
  | CacheGet _ => True
  | D1Write entry =>
      match entry with
      | InsertUser _ | UpdateUser _ _ _ | InsertProject _ => True
      | _ => False
      end
  | _ => False
  end.

Definition quiet_step (w w' : World.t) : Prop :=
  CACHE w' = CACHE w /\ now w' = now w /\ MEDIA_BUCKET w' = MEDIA_BUCKET w
  /\ project_versions (DB w') = project_versions (DB w)
  /\ assets (DB w') = assets (DB w)
  /\ generation_jobs (DB w') = generation_jobs (DB w)
  /\ exists delta, events w' = events w ++ delta /\ Forall quiet delta.

(** Two script request bodies agree on the four fields the cache key is
    computed from. *)
Definition same_script (b1 b2 : ScriptRequestBody) : Prop :=
  topic b1 = topic b2 /\ persona b1 = persona b2
  /\ lengthMinutes b1 = lengthMinutes b2 /\ language b1 = language b2.

(** The answer of the script handler that carries [result], served from
    the cache or not. *)
Definition script_answer (projectId : string) (cached : bool) (result : Json) : Response :=
  json_response
    (JObj [("projectId", JStr projectId); ("cached", JBool cached); ("result", result)]).

(** A script request body that carries a topic and nothing else. *)
Definition topic_only (topic : string) : ScriptRequestBody :=
  {| topic := Some topic; persona := None; lengthMinutes := None; language := None;
     script_projectId := None; regenerate := None |}.

(** What the script handler passes to the provider. *)
Definition script_params (payload : ScriptRequestBody) : GenerateScriptParams :=
  {| gs_topic := default "" (topic payload); gs_persona := persona payload;
     gs_lengthMinutes := lengthMinutes payload; gs_language := language payload |}.

(** The request carries the subject [sub] in [x-user-sub]. *)
Definition authenticated_as (request : Request) (sub : string) : Prop :=
  x_user_sub (headers_of request) = Some sub /\ sub <> "".

End Frame.

(** ** Vocabulary for the session codec *)
Module Codec.

Definition is_byte (b : Z) : Prop := 0 <= b < 256.
Definition is_sextet (v : Z) : Prop := 0 <= v < 64.

(** What the two [replace] calls of [base64UrlEncode] do to a character
    of the base64 alphabet, and what those of [base64UrlDecode] do. *)
Definition url_char (c : ascii) : ascii :=
  let c := if Ascii.eqb c "+" then "-"%char else c in
  if Ascii.eqb c "/" then "_"%char else c.

Definition unurl_char (c : ascii) : ascii :=
  let c := if Ascii.eqb c "-" then "+"%char else c in
  if Ascii.eqb c "_" then "/"%char else c.

Definition byte_codes (data : list byte) : list Z :=
  map code (list_ascii_of_string (string_of_list_byte data)).

(** The characters of [base64UrlEncode data]. *)
Definition url_chars (data : list byte) : list ascii :=
  map url_char (map Base64.b64_char (Base64.sextets (byte_codes data))).

(** The text with bit [bit] of its character at [index] flipped. *)
Definition flip_bit (index bit : nat) (text : string) : string :=
  string_of_list_ascii
    (alter (fun c => chr (Z.lxor (code c) (2 ^ Z.of_nat bit))) index
       (list_ascii_of_string text)).

End Codec.

(** ** [lib/auth/access]

    [jose] is outside the repository: [createRemoteJWKSet] (with the
    [new URL] around it) and [jwtVerify] are whatever the library does,
    under the contract stated where it is used. *)
Module Access.
Import Env.

Record JWTPayload := {
  claim_sub : option string;
  claim_email : option string;
  claim_identity_email : option string;
  claim_name : option string;
  claim_common_name : option string;
  claim_iss : option string;
  (** the [aud] claim: no entry when it is missing, one for a string, several
      for an array *)
  claim_aud : list string;
}.

Record ProtectedHeader := {
  alg : string;
}.

Record JWTVerifyOptions := {
  opt_audience : string;
  opt_algorithms : option (list string);
}.

(** [decodeJwt] reads the claims of a token without verifying it; it is
    not called by the program and only names the claims a token carries. *)
Class Jose := {
  Jwks : Type;
  createRemoteJWKSet : string -> Result Jwks;
  jwtVerify : string -> Jwks -> JWTVerifyOptions -> Result (JWTPayload * ProtectedHeader);
  decodeJwt : string -> option JWTPayload;
}.

(** What the program relies on [jwtVerify] for: the payload it returns is
    that of the token, and its [aud] claim contains the expected audience. *)
Definition jose_checks_audience {J : Jose} : Prop :=
  forall token jwks options payload header,
    jwtVerify token jwks options = Ok (payload, header) ->
    decodeJwt token = Some payload /\ opt_audience options ∈ claim_aud payload.

Record AccessIdentity := {
  sub : option string;
  email : option string;
  name : option string;
  issuer : option string;
  token : string;
}.

Inductive AccessVerificationResult :=
| success (identity : AccessIdentity)
| error (cause : Thrown)
| unauthorized.

Record AccessConfig := {
  audience : string;
  certsUrl : string;
  loginUrl : string;
  algorithm : option string;
}.

(** White space and line terminators, as [String.prototype.trim] removes
    them (those below 256). *)
Definition is_js_whitespace (c : ascii) : bool :=
  let n := code c in
  (n =? 9) || (n =? 10) || (n =? 11) || (n =? 12) || (n =? 13) || (n =? 32) || (n =? 160).

Fixpoint trim_start (cs : list ascii) : list ascii :=
  match cs with
  | c :: rest => if is_js_whitespace c then trim_start rest else cs
  | [] => []
  end.

Definition trim (s : string) : string :=
  string_of_list_ascii (rev (trim_start (rev (trim_start (list_ascii_of_string s))))).

(** The text is empty or made of white space only. *)
Definition blank (s : string) : Prop :=
  Forall (fun c => is_js_whitespace c = true) (list_ascii_of_string s).

(** [trimmed] is [s] without the white space at its two ends: [s] is
    [trimmed] between two blank texts, and [trimmed] neither begins nor ends
    with white space. *)
Definition trims_to (s trimmed : string) : Prop :=
  exists leading trailing,
    s = leading +:+ trimmed +:+ trailing
    /\ blank leading /\ blank trailing
    /\ (forall c, head (list_ascii_of_string trimmed) = Some c -> is_js_whitespace c = false)
    /\ (forall c, last (list_ascii_of_string trimmed) = Some c -> is_js_whitespace c = false).

(** [s.replace(/suffix$/, replacement)] *)
Definition replace_suffix (suffix replacement s : string) : string :=
  let n := String.length s in
  let k := String.length suffix in
  if (k <=? n)%nat && String.eqb (substring (n - k) k s) suffix
  then substring 0 (n - k) s +:+ replacement
  else s.

Section WithJose.
Context {J : Jose}.

Record State := {
  cachedConfig : option AccessConfig;
  cachedJwks : option Jwks;
}.

Definition derive_certsUrl (env : gmap string string) : Result string :=
  match getEnv env "CF_ACCESS_CERTS_URL" with
  | Some url => Ok url
  | None =>
      let teamDomain := getEnv env "CF_ACCESS_TEAM_DOMAIN" in
      if negb (str_truthy teamDomain) then
        Throw (ThrownError
                 "Provide either CF_ACCESS_CERTS_URL or CF_ACCESS_TEAM_DOMAIN to verify Cloudflare Access tokens.")
      else
        let teamDomain := default "" teamDomain in
        let sanitized :=
          if String.prefix "http" teamDomain then teamDomain
          else "https://" +:+ teamDomain in
        Ok (replace_suffix "/" "" sanitized +:+ "/cdn-cgi/access/certs")
  end.

Definition resolveAccessConfig (env : gmap string string) (st : State)
  : Result AccessConfig * State :=
  match cachedConfig st with
  | Some config => (Ok config, st)
  | None =>
      match requireEnv env "CF_ACCESS_AUD" with
      | Throw e => (Throw e, st)
      | Ok audience =>
          let algorithm := getEnv env "CF_ACCESS_JWT_ALG" in
          match derive_certsUrl env with
          | Throw e => (Throw e, st)
          | Ok certsUrl =>
              let loginUrl :=
                default (replace_suffix "/cdn-cgi/access/certs" "/cdn-cgi/access/login" certsUrl)
                        (getEnv env "CF_ACCESS_LOGIN_URL") in
              let config := {| audience := audience; certsUrl := certsUrl;
                               algorithm := algorithm; loginUrl := loginUrl |} in
              (Ok config, {| cachedConfig := Some config; cachedJwks := cachedJwks st |})
          end
      end
  end.

Definition getJwks (certsUrl : string) (st : State) : Result Jwks * State :=
  match cachedJwks st with
  | Some jwks => (Ok jwks, st)
  | None =>
      match createRemoteJWKSet certsUrl with
      | Ok jwks => (Ok jwks, {| cachedConfig := cachedConfig st; cachedJwks := Some jwks |})
      | Throw e => (Throw e, st)
      end
  end.

(** The options that [jwtVerify] is called with. *)
Definition verify_options (config : AccessConfig) : JWTVerifyOptions :=
  {| opt_audience := audience config;
     opt_algorithms :=
       if str_truthy (algorithm config)
       then Some [default "" (algorithm config)] else None |}.

(** The body of the [try] block. *)
Definition verify_checked (env : gmap string string) (st : State) (trimmed : string)
  : Result AccessVerificationResult * State :=
  match resolveAccessConfig env st with
  | (Throw e, st1) => (Throw e, st1)
  | (Ok config, st1) =>
      match getJwks (certsUrl config) st1 with
      | (Throw e, st2) => (Throw e, st2)
      | (Ok jwks, st2) =>
          match jwtVerify trimmed jwks (verify_options config) with
          | Throw e => (Throw e, st2)
          | Ok (payload, protectedHeader) =>
              if str_truthy (algorithm config)
                 && negb (String.eqb (alg protectedHeader) (default "" (algorithm config)))
              then (Ok (error (ThrownError "Unexpected Access token algorithm")), st2)
              else
                (Ok (success
                       {| sub := claim_sub payload;
                          email := match claim_email payload with
                                   | Some e => Some e
                                   | None => claim_identity_email payload
                                   end;
                          name := match claim_name payload with
                                  | Some n => Some n
                                  | None => claim_common_name payload
                                  end;
                          issuer := claim_iss payload;
                          token := trimmed |}), st2)
          end
      end
  end.

(** The outer [Result] records whether the call throws. *)
Definition verifyAccessToken (env : gmap string string) (st : State) (token : string)
  : Result AccessVerificationResult * State :=
  let trimmed := trim token in
  if String.eqb trimmed "" then (Ok unauthorized, st)
  else
    match verify_checked env st trimmed with
    | (Ok r, st') => (Ok r, st')
    | (Throw e, st') => (Ok (error e), st')
    end.

(** The ways in which the verification of a non-empty token fails, each
    with its cause: the configuration cannot be resolved, the key set cannot
    be set up, [jwtVerify] rejects the token (expired, badly signed, wrong
    audience, keys that cannot be fetched, ...), or the algorithm of the
    token is not the configured one. *)
Inductive verification_failure (env : gmap string string) (st : State) (trimmed : string)
  : Thrown -> Prop :=
| config_unresolved (e : Thrown) (st1 : State) :
    resolveAccessConfig env st = (Throw e, st1) ->
    verification_failure env st trimmed e
| keys_unavailable (config : AccessConfig) (st1 st2 : State) (e : Thrown) :
    resolveAccessConfig env st = (Ok config, st1) ->
    getJwks (certsUrl config) st1 = (Throw e, st2) ->
    verification_failure env st trimmed e
| token_rejected (config : AccessConfig) (st1 st2 : State) (jwks : Jwks) (e : Thrown) :
    resolveAccessConfig env st = (Ok config, st1) ->
    getJwks (certsUrl config) st1 = (Ok jwks, st2) ->
    jwtVerify trimmed jwks (verify_options config) = Throw e ->
    verification_failure env st trimmed e
| algorithm_mismatch (config : AccessConfig) (st1 st2 : State) (jwks : Jwks)
    (payload : JWTPayload) (header : ProtectedHeader) (pinned : string) :
    resolveAccessConfig env st = (Ok config, st1) ->
    getJwks (certsUrl config) st1 = (Ok jwks, st2) ->
    jwtVerify trimmed jwks (verify_options config) = Ok (payload, header) ->
    algorithm config = Some pinned -> pinned <> "" -> alg header <> pinned ->
    verification_failure env st trimmed (ThrownError "Unexpected Access token algorithm").

End WithJose.
End Access.


(** ** More of the JavaScript string methods the program calls *)
Module JsString.

(** [String.prototype.toLowerCase] on the code units below 256: the letters
    A-Z and the capital letters of Latin-1 (U+00C0 to U+00DE, the
    multiplication sign U+00D7 apart) move up by 32. *)
Definition lower_unit (c : ascii) : ascii :=
  let n := code c in
  if ((65 <=? n) && (n <=? 90)) || ((192 <=? n) && (n <=? 222) && negb (n =? 215))
  then chr (n + 32) else c.

Definition toLowerCase (s : string) : string :=
  string_of_list_ascii (map lower_unit (list_ascii_of_string s)).

(** [list.includes(value)] on strings. *)
Definition includes (list : list string) (value : string) : bool :=
  bool_decide (value ∈ list).

End JsString.

(** ** The alphabet of base64url *)
Module Base64Url.

(** Letters, digits, [-] and [_]: the characters that need no escaping in
    a cookie or in a URL. *)
Definition is_base64url_char (c : ascii) : bool :=
  let n := code c in
  ((65 <=? n) && (n <=? 90)) || ((97 <=? n) && (n <=? 122))
  || ((48 <=? n) && (n <=? 57)) || (n =? 45) || (n =? 95).

End Base64Url.

(** ** The flags read from [process.env] ([lib/env], [lib/auth/session]) *)
Module EnvFlags.
Import Env JsString.

Definition getBooleanEnv (env : gmap string string) (name : string)
    (defaultValue : bool) : bool :=
  match getEnv env name with
  | None => defaultValue
  | Some value => includes ["1"; "true"; "yes"; "on"] (toLowerCase value)
  end.

(** [runtimeEnv.isDev] *)
Definition isDev (env : gmap string string) : bool :=
  negb (bool_decide (getEnv env "NODE_ENV" = Some "production")).

Definition SESSION_COOKIE_NAME : string := "yav_session".
Definition SESSION_COOKIE_MAX_AGE : Z := 60 * 60 * 24 * 7.

Definition shouldBypassSession (env : gmap string string) : bool :=
  match getEnv env "DEV_AUTH_BYPASS_SESSION" with
  | None => false
  | Some bypass => includes ["1"; "true"; "yes"] (toLowerCase bypass)
  end.

End EnvFlags.

(** ** [Headers], [URL] and the responses of a middleware

    A [Headers] object is a map from lower-case names to values. [set]
    normalises the value (leading and trailing HTTP white space is removed)
    and throws a [TypeError] for a value that holds a NUL, a line feed or a
    carriage return, as the Fetch standard has it. *)
Module Http.

Definition Headers := gmap string string.

Definition get (headers : Headers) (name : string) : option string := headers !! name.

Definition is_http_whitespace (c : ascii) : bool :=
  let n := code c in (n =? 9) || (n =? 10) || (n =? 13) || (n =? 32).

Fixpoint strip_start (cs : list ascii) : list ascii :=
  match cs with
  | c :: rest => if is_http_whitespace c then strip_start rest else cs
  | [] => []
  end.

Definition normalize (value : string) : string :=
  string_of_list_ascii (rev (strip_start (rev (strip_start (list_ascii_of_string value))))).

Definition is_header_value (value : string) : bool :=
  forallb (fun c => let n := code c in negb ((n =? 0) || (n =? 10) || (n =? 13)))
    (list_ascii_of_string value).

Definition set (headers : Headers) (name value : string) : Result Headers :=
  let value := normalize value in
  if is_header_value value then Ok (<[name := value]> headers)
  else Throw (ThrownError "Invalid header value")%string.

(** A parsed URL: what precedes the query, the query as [searchParams] has
    it, and the fragment. *)
Record URL := {
  url_base : string;
  searchParams : list (string * string);
  url_hash : string;
}.

(** [url.searchParams.set(name, value)]: the first pair of that name takes
    the value and the others of that name go; without one, the pair is
    appended. *)
Fixpoint searchParams_set (name value : string) (params : list (string * string))
  : list (string * string) :=
  match params with
  | [] => [(name, value)]
  | (k, v) :: rest =>
      if String.eqb k name
      then (k, value) :: List.filter (fun kv => negb (String.eqb (fst kv) name)) rest
      else (k, v) :: searchParams_set name value rest
  end.

Record Cookie := {
  cookie_name : string;
  cookie_value : string;
  httpOnly : bool;
  secure : bool;
  sameSite : string;
  path : string;
  maxAge : Z;
}.

(** [NextResponse.next()], [NextResponse.next({ request: { headers } })]
    with the cookies set on it, and [NextResponse.redirect(url)]. *)
Inductive NextResponse :=
| next (request_headers : option Headers) (cookies : list Cookie)
| redirect (url : URL).

Record NextRequest := {
  method : string;
  (** [request.nextUrl.pathname] and [request.nextUrl.href] *)
  pathname : string;
  href : string;
  headers : Headers;
  (** [request.cookies], by name *)
  cookies : gmap string string;
}.

End Http.

(** ** [lib/auth/access], continued: the login URL and the development
    bypass *)
Module AccessLogin.
Import Env Access.

Record DevBypassIdentity := {
  dev_sub : string;
  dev_email : string;
  dev_name : option string;
}.

Definition getDevBypassIdentity (env : gmap string string) (headers : Http.Headers)
  : option DevBypassIdentity :=
  let bypassToken := getEnv env "DEV_AUTH_BYPASS_TOKEN" in
  if negb (str_truthy bypassToken) then None
  else
    let provided := Http.get headers "x-dev-auth" in
    if negb (str_truthy provided) || negb (bool_decide (provided = bypassToken)) then None
    else
      let email := default "dev@example.com" (Http.get headers "x-dev-email") in
      let name := default "Dev User" (Http.get headers "x-dev-name") in
      let subject := default ("dev-" +:+ email) (Http.get headers "x-dev-sub") in
      Some {| dev_sub := subject; dev_email := email; dev_name := Some name |}.

Section WithJose.
Context {J : Jose}.

Definition getAccessLoginUrl (env : gmap string string) (st : State)
  : Result string * State :=
  match resolveAccessConfig env st with
  | (Ok config, st') => (Ok (loginUrl config), st')
  | (Throw e, st') => (Throw e, st')
  end.

End WithJose.
End AccessLogin.

(** ** [middleware.ts] *)
Module Middleware.
Import Env EnvFlags Http Access AccessLogin.

Definition PUBLIC_PATHS : list string := ["/api/health"; "/api/status"].

(** The alternatives of [STATIC_PATH_REGEX]: the pattern is anchored at the
    start only, so it matches every path that begins with a slash and one
    of them. *)
Definition STATIC_PATH_PREFIXES : list string :=
  ["_next"; "favicon.ico"; "robots.txt"; "sitemap.xml"; "manifest.webmanifest";
   "app-icon.png"; "apple-touch-icon.png"; "public"].

Definition STATIC_PATH_REGEX_test (path : string) : bool :=
  existsb (fun alternative => String.prefix ("/" +:+ alternative) path) STATIC_PATH_PREFIXES.

Definition isPublicPath (path : string) : bool :=
  JsString.includes PUBLIC_PATHS path || STATIC_PATH_REGEX_test path.

Section WithPlatform.
Context {P : Platform} {J : Jose}.
(** [new URL(text)], which throws a [TypeError] for what is not a URL. *)
Context (new_URL : string -> Result URL).

(** The module state of [lib/auth/access] and of [lib/auth/session]. *)
Record State := {
  access : Access.State;
  keyPromise : Session.KeyCache;
}.

Definition buildLoginRedirect (env : gmap string string) (st : State)
    (request : NextRequest) : Result NextResponse * State :=
  match getAccessLoginUrl env (access st) with
  | (Throw e, a) => (Throw e, {| access := a; keyPromise := keyPromise st |})
  | (Ok login, a) =>
      let st := {| access := a; keyPromise := keyPromise st |} in
      match new_URL login with
      | Throw e => (Throw e, st)
      | Ok loginUrl =>
          (Ok (redirect
                 {| url_base := url_base loginUrl;
                    searchParams :=
                      searchParams_set "redirect_url" (href request) (searchParams loginUrl);
                    url_hash := url_hash loginUrl |}), st)
      end
  end.

(** The serialised payload signed and encoded: [createSessionValue] from
    its second statement on. *)
Definition signed_value (env : gmap string string) (cache : Session.KeyCache)
    (payload : Json) : Result string * Session.KeyCache :=
  let serialized := JSON_stringify payload in
  let data := utf8_encode serialized in
  match Session.getKey env cache with
  | (Ok key, cache) =>
      let signatureBuffer := Sha256.hmac_sha256 key data in
      let signature := Session.base64UrlEncode signatureBuffer in
      let encodedData := Session.base64UrlEncode data in
      (Ok (encodedData +:+ "." +:+ signature), cache)
  | (Throw e, cache) => (Throw e, cache)
  end.

(** [createSessionValue({ sub, email, name })] on the identity of the
    token. [sub] is typed [string]; for a token without the claim it is
    [undefined], a property that [JSON.stringify] leaves out. *)
Definition createSessionValue_of (env : gmap string string) (cache : Session.KeyCache)
    (now : Z) (identity : AccessIdentity) : Result string * Session.KeyCache :=
  match sub identity with
  | Some sub =>
      Session.createSessionValue env cache now
        {| Session.sub := sub; Session.email := email identity;
           Session.name := name identity |}
  | None =>
      signed_value env cache
        (JObj (Session.optional_field "email" (email identity)
                 ++ Session.optional_field "name" (name identity)
                 ++ [("issuedAt", JNum now)]))
  end.

(** The payload that is signed for an identity. *)
Definition session_payload (now : Z) (identity : AccessIdentity) : Json :=
  JObj (Session.optional_field "sub" (sub identity)
          ++ Session.optional_field "email" (email identity)
          ++ Session.optional_field "name" (name identity)
          ++ [("issuedAt", JNum now)]).

(** The request headers that are handed on: those of the request, with the
    identity written over them. [Headers.set] turns an [undefined] value
    into the text [undefined]. *)
Definition identity_headers (request : NextRequest) (identity : AccessIdentity)
  : Result Headers :=
  let requestHeaders := headers request in
  bind (set requestHeaders "x-user-sub" (default "undefined" (sub identity)))
    (fun requestHeaders =>
  bind (if str_truthy (email identity)
        then set requestHeaders "x-user-email" (default "" (email identity))
        else Ok requestHeaders)
    (fun requestHeaders =>
  if str_truthy (name identity)
  then set requestHeaders "x-user-name" (default "" (name identity))
  else Ok requestHeaders)).

(** From [const { identity } = identityResult] on. *)
Definition forward_identity (env : gmap string string) (now : Z) (st : State)
    (request : NextRequest) (identity : AccessIdentity) : Result NextResponse * State :=
  match identity_headers request identity with
  | Throw e => (Throw e, st)
  | Ok requestHeaders =>
      if negb (shouldBypassSession env) then
        match createSessionValue_of env (keyPromise st) now identity with
        | (Throw e, cache) => (Throw e, {| access := access st; keyPromise := cache |})
        | (Ok sessionValue, cache) =>
            (Ok (next (Some requestHeaders)
                   [{| cookie_name := SESSION_COOKIE_NAME;
                       cookie_value := sessionValue;
                       httpOnly := true;
                       secure := negb (isDev env);
                       sameSite := "lax";
                       path := "/";
                       maxAge := SESSION_COOKIE_MAX_AGE |}]),
             {| access := access st; keyPromise := cache |})
        end
      else (Ok (next (Some requestHeaders) []), st)
  end.

(** The identity that stands in for a missing token in development. *)
Definition dev_identity (env : gmap string string) (request : NextRequest)
    (identityResult : AccessVerificationResult) : AccessVerificationResult :=
  match identityResult with
  | unauthorized =>
      if isDev env then
        match getDevBypassIdentity env (headers request) with
        | Some devIdentity =>
            success {| sub := Some (dev_sub devIdentity);
                       email := Some (dev_email devIdentity);
                       name := dev_name devIdentity;
                       issuer := None;
                       token := "dev" |}
        | None => identityResult
        end
      else identityResult
  | _ => identityResult
  end.

Definition middleware (env : gmap string string) (now : Z) (st : State)
    (request : NextRequest) : Result NextResponse * State :=
  if String.eqb (method request) "OPTIONS" then (Ok (next None []), st)
  else if isPublicPath (pathname request) then (Ok (next None []), st)
  else
    let accessHeader := get (headers request) "cf-access-jwt-assertion" in
    let accessCookie := cookies request !! "CF_Authorization" in
    match verifyAccessToken env (access st)
            (default (default "" accessCookie) accessHeader) with
    | (Throw e, a) => (Throw e, {| access := a; keyPromise := keyPromise st |})
    | (Ok identityResult, a) =>
        let st := {| access := a; keyPromise := keyPromise st |} in
        match dev_identity env request identityResult with
        | unauthorized => buildLoginRedirect env st request
        | error _ => buildLoginRedirect env st request
        | success verified => forward_identity env now st request verified
        end
    end.

End WithPlatform.
End Middleware.

(** ** The checks a handler makes before it touches anything *)
Module Checks.
Import World Routes Frame.

(** The body is the JSON value [null]. *)
Definition null_body (request : Request) : bool :=
  match request with
  | ScriptRequest _ JsonNull | ImageRequest _ JsonNull | TtsRequest _ JsonNull => true
  | _ => false
  end.

(** The property of the body that a handler reads first. *)
Definition first_read (request : Request) : string :=
  match request with
  | ScriptRequest _ _ => "topic"
  | ImageRequest _ _ | TtsRequest _ _ => "projectId"
  end.

(** The body is there and has the fields the handler asks for. *)
Definition well_formed (request : Request) : bool :=
  match request with
  | ScriptRequest _ (Parsed b) => str_truthy (topic b)
  | ImageRequest _ (Parsed b) => str_truthy (image_projectId b) && str_truthy (prompt b)
  | TtsRequest _ (Parsed b) =>
      str_truthy (tts_projectId b) && negb (bool_decide (default [] (tts_sections b) = []))
  | _ => false
  end.

(** The rows of [users] are keyed by [id] and by [access_sub]. *)
Definition users_unique (d : Database) : Prop :=
  NoDup (map DBUser.id (users d)) /\ NoDup (map DBUser.access_sub (users d)).

(** The asset that the speech handler records for a section, given the two
    identifiers it draws and what the provider returned. *)
Definition audio_asset (project : DBProject.t) (section : SectionInput)
    (key_uuid asset_uuid : string) (ttsResult : TtsResult) (created_at : Z) : DBAsset.t :=
  {| DBAsset.id := asset_uuid;
     DBAsset.project_id := DBProject.id project;
     DBAsset.type := "audio";
     DBAsset.label :=
       Some (default (default "Audio Segment" (section_id section))
               (section_heading section));
     DBAsset.r2_key := "audio/" +:+ DBProject.id project +:+ "/" +:+ key_uuid +:+ ".mp3";
     DBAsset.mime_type := Some (mimeType ttsResult);
     DBAsset.size_bytes := Some (Z.of_nat (length (audio ttsResult)));
     DBAsset.created_at := created_at |}.

(** The assets recorded for [sections], in their order, when identifiers
    are drawn from position [n] on and the provider returns [speak text] for
    a text. *)
Fixpoint audio_assets (out : Outside) (project : DBProject.t)
    (speak : string -> TtsResult) (created_at : Z) (n : nat)
    (sections : list SectionInput) : list DBAsset.t :=
  match sections with
  | [] => []
  | section :: rest =>
      audio_asset project section (uuid_source out n) (uuid_source out (S n))
        (speak (default "" (text section))) created_at
        :: audio_assets out project speak created_at (S (S n)) rest
  end.

(** The entry of the answer for an asset and its section. *)
Definition audio_entry (asset : DBAsset.t) (section : SectionInput) : Json :=
  tts_result_entry (DBAsset.id asset) (DBAsset.r2_key asset) (section_heading section).

End Checks.

(** ** [lib/ai/gemini]: reading the answer of the provider *)
Module Gemini.

(** [typeof value === "object"], for a value that is not [null]. *)
Definition is_object (j : Json) : bool :=
  match j with
  | JArr _ | JObj _ => true
  | _ => false
  end.

(** [!value.key]: the property is missing or falsy. *)
Definition falsy (v : option Json) : bool :=
  match v with
  | Some j => negb (truthy j)
  | None => true
  end.

(** [a ?? b] *)
Definition nullish_or (a b : option Json) : option Json :=
  match a with
  | None | Some JNull => b
  | Some _ => a
  end.

(** [(error as Error).message] in a template literal. *)
Definition message_of (error : Thrown) : string :=
  match error with
  | ThrownError message => message
  | ThrownOther => "undefined"
  end.

(** [typeof part?.text === "string"] *)
Definition is_text_part (part : Json) : bool :=
  match get_field "text" part with
  | Some (JStr _) => true
  | _ => false
  end.

(** [textPart?.text ?? candidates[0]?.output_text], where [textPart] is the
    first part of [candidates[0]?.content?.parts] that has a text. *)
Definition candidate_text (candidate : Json) : option Json :=
  let parts := get_field "content" candidate ≫= get_field "parts" in
  let textPart :=
    match parts with
    | Some (JArr parts) => find is_text_part parts
    | _ => None
    end in
  nullish_or (textPart ≫= get_field "text") (get_field "output_text" candidate).

Section WithPlatform.
Context {P : Platform}.

(** The [try] block of [parseGeminiResponse]. *)
Definition parse_complete (text : string) : Result Json :=
  bind (JSON_parse text) (fun parsed =>
    match parsed with
    | JNull => Throw (null_property_error "outline")
    | _ =>
        if falsy (get_field "outline" parsed) || falsy (get_field "sections" parsed)
           || falsy (get_field "seo" parsed) || falsy (get_field "thumbnailIdeas" parsed)
        then Throw (ThrownError "Gemini response incomplete")
        else Ok parsed
    end).

Definition parseGeminiResponse (raw : Json) : Result Json :=
  if negb (truthy raw) || negb (is_object raw)
  then Throw (ThrownError "Gemini response missing")
  else
    match get_field "candidates" raw with
    | Some (JArr (first :: _)) =>
        match candidate_text first with
        | Some (JStr text) =>
            if String.eqb text "" then Throw (ThrownError "Gemini response missing text part")
            else
              match parse_complete text with
              | Ok parsed => Ok parsed
              | Throw error =>
                  Throw (ThrownError ("Failed to parse Gemini JSON: " +:+ message_of error))
              end
        | _ => Throw (ThrownError "Gemini response missing text part")
        end
    | _ => Throw (ThrownError "Gemini returned no candidates")
    end.

End WithPlatform.
End Gemini.

(** ** [lib/db/client], continued: reading projects back

    [ORDER BY column DESC] returns the rows by decreasing value of the
    column; the order among rows of equal value is the engine's. *)
Class D1Order := {
  order_by_desc : forall {A : Type}, (A -> Z) -> list A -> list A;
}.

Definition d1_orders_rows {O : D1Order} : Prop :=
  forall (A : Type) (column : A -> Z) (rows : list A),
    Permutation (order_by_desc column rows) rows
    /\ StronglySorted (fun a b => column b <= column a) (order_by_desc column rows).

Module DbRead.
Import World Db.

Record SeoMetadataRecord := {
  title : string;
  description : string;
  tags : list string;
}.

Record ProjectVersionRecord := {
  id : string;
  project_id : string;
  version : Z;
  sections : Json;
  outline : Json;
  seo : SeoMetadataRecord;
  generatedMetadata : Json;
  created_at : Z;
}.

(** [Omit<DBGenerationJob, "payload"> & { payload: unknown }] *)
Record GenerationJobRecord := {
  job : DBGenerationJob.t;
  payload : Json;
}.

Record ProjectListItem := {
  project : DBProject.t;
  latestVersion : option ProjectVersionRecord;
  assetCounts : gmap string Z;
}.

Record ProjectDetailRecord := {
  detail_project : DBProject.t;
  detail_latestVersion : option ProjectVersionRecord;
  versions : list ProjectVersionRecord;
  assets : list DBAsset.t;
  generationJobs : list GenerationJobRecord;
}.

(** [rows.map(f)] for an [f] that can throw. *)
Fixpoint map_result {A B} (f : A -> Result B) (rows : list A) : Result (list B) :=
  match rows with
  | [] => Ok []
  | row :: rest =>
      bind (f row) (fun b => bind (map_result f rest) (fun bs => Ok (b :: bs)))
  end.

(** [typeof value === "string" ? value : ""] *)
Definition string_or_empty (v : option Json) : string :=
  match v with
  | Some (JStr s) => s
  | _ => ""
  end.

(** [Array.isArray(value) ? value.filter(tag => typeof tag === "string") : []] *)
Definition strings_of (v : option Json) : list string :=
  match v with
  | Some (JArr items) =>
      omap (fun item => match item with JStr s => Some s | _ => None end) items
  | _ => []
  end.

Section WithPlatform.
Context {P : Platform} {O : D1Order}.

Definition parseJson (value : option string) (fallback : Json) : Json :=
  if negb (str_truthy value) then fallback
  else
    match JSON_parse (default "" value) with
    | Ok parsed => parsed
    | Throw _ => fallback
    end.

Definition parseProjectVersionRow (row : DBProjectVersion.t) : Result ProjectVersionRecord :=
  let outline := parseJson (Some (DBProjectVersion.outline row)) (JArr []) in
  let sections := parseJson (Some (DBProjectVersion.script row)) (JArr []) in
  let rawSeo := parseJson (Some (DBProjectVersion.seo row)) (JObj []) in
  match rawSeo with
  | JNull => Throw (null_property_error "title")
  | _ =>
      let seo :=
        {| title := string_or_empty (get_field "title" rawSeo);
           description := string_or_empty (get_field "description" rawSeo);
           tags := strings_of (get_field "tags" rawSeo) |} in
      let generatedMetadata := parseJson (DBProjectVersion.generated_with row) JNull in
      Ok {| id := DBProjectVersion.id row;
            project_id := DBProjectVersion.project_id row;
            version := DBProjectVersion.version row;
            sections := sections;
            outline := outline;
            seo := seo;
            generatedMetadata := generatedMetadata;
            created_at := DBProjectVersion.created_at row |}
  end.

(** The rows of a project, [ORDER BY version DESC]. *)
Definition select_versions (d : Database) (projectId : string) : list DBProjectVersion.t :=
  order_by_desc DBProjectVersion.version
    (List.filter (fun v => bool_decide (DBProjectVersion.project_id v = projectId))
       (project_versions d)).

Definition getProjectVersions (projectId : string) : M (list ProjectVersionRecord) :=
  d ← get_db;
  lift (map_result parseProjectVersionRow (select_versions d projectId)).

(** [... ORDER BY version DESC LIMIT 1] *)
Definition getLatestProjectVersion (projectId : string) : M (option ProjectVersionRecord) :=
  d ← get_db;
  match head (select_versions d projectId) with
  | Some row => parsed ← lift (parseProjectVersionRow row); mret (Some parsed)
  | None => mret None
  end.

Definition listAssetsForProject (projectId : string) : M (list DBAsset.t) :=
  d ← get_db;
  mret (order_by_desc DBAsset.created_at
          (List.filter (fun a => bool_decide (DBAsset.project_id a = projectId))
             (World.assets d))).

Definition listGenerationJobsForProject (projectId : string) : M (list GenerationJobRecord) :=
  d ← get_db;
  mret (map (fun row => {| job := row;
                           payload := parseJson (DBGenerationJob.payload row) JNull |})
          (order_by_desc DBGenerationJob.created_at
             (List.filter (fun j => bool_decide (DBGenerationJob.project_id j = projectId))
                (generation_jobs d)))).

(** [SELECT type, COUNT( * ) as count FROM assets WHERE project_id = ? GROUP BY type]:
    one row for each type that the project has an asset of. *)
Definition select_asset_counts (d : Database) (projectId : string) : list (string * Z) :=
  let mine :=
    List.filter (fun a => bool_decide (DBAsset.project_id a = projectId)) (World.assets d) in
  map (fun type =>
         (type,
          Z.of_nat (length (List.filter (fun a => bool_decide (DBAsset.type a = type)) mine))))
    (remove_dups (map DBAsset.type mine)).

(** [counts[row.type] = Number(row.count ?? 0)] on a plain object: the
    assignment of a number to [__proto__] goes to the setter of
    [Object.prototype], which ignores it. *)
Definition set_count (counts : gmap string Z) (row : string * Z) : gmap string Z :=
  if String.eqb (fst row) "__proto__" then counts else <[fst row := snd row]> counts.

(** The loop over the projects of [listProjectsForUser]; [items] is what
    has been pushed so far. *)
Fixpoint list_items (projects : list DBProject.t) (items : list ProjectListItem)
  : M (list ProjectListItem) :=
  match projects with
  | [] => mret items
  | project :: rest =>
      latestVersion ← getLatestProjectVersion (DBProject.id project);
      d ← get_db;
      let counts :=
        fold_left set_count (select_asset_counts d (DBProject.id project))
          (∅ : gmap string Z) in
      list_items rest
        (items ++ [{| project := project; latestVersion := latestVersion;
                      assetCounts := counts |}])
  end.

Definition listProjectsForUser (userId : string) : M (list ProjectListItem) :=
  d ← get_db;
  let projects :=
    order_by_desc DBProject.updated_at
      (List.filter (fun p => bool_decide (DBProject.user_id p = userId)) (projects d)) in
  list_items projects [].

Definition getProjectDetail (projectId : string) : M (option ProjectDetailRecord) :=
  project ← getProjectById projectId;
  match project with
  | None => mret None
  | Some project =>
      versions ← getProjectVersions projectId;
      assets ← listAssetsForProject projectId;
      generationJobs ← listGenerationJobsForProject projectId;
      mret (Some {| detail_project := project;
                    detail_latestVersion := head versions;
                    versions := versions;
                    assets := assets;
                    generationJobs := generationJobs |})
  end.

End WithPlatform.

(** How many assets of a type a project has. *)
Definition count_assets (d : Database) (projectId type : string) : Z :=
  Z.of_nat
    (length
       (List.filter
          (fun a => bool_decide (DBAsset.project_id a = projectId)
                    && bool_decide (DBAsset.type a = type))
          (World.assets d))).

End DbRead.

(** ** Concrete worlds on which the program is evaluated *)
Module Fixture.
Import World Routes.

Definition decimal (n : nat) : string :=
  string_of_list_ascii (Reference.number_text (Z.of_nat n)).

Definition sha256_hex (text : string) : string :=
  Sha256.hex (Sha256.sha256 (map byte_code (Reference.encode text))).

Definition a_script : GeminiResponse :=
  {| outline := ["Light"; "Leaves"];
     sections := [{| heading := "Light"; narration := "Plants eat light.";
                     brollIdeas := None; durationSeconds := Some 30 |}];
     seo := {| seo_title := "How plants eat light"; seo_description := "A primer.";
               seo_tags := ["biology"] |};
     thumbnailIdeas := ["A leaf"] |}.

(** Providers that answer every call, a bucket that stores every object,
    and the identifiers [uuid-0], [uuid-1], ... *)
Definition outside : Outside :=
  {| uuid_source := fun n => "uuid-" +:+ decimal n;
     generateYoutubeScript := fun _ _ => Ok a_script;
     synthesizeSpeech := fun _ _ => Ok {| audio := ["1"; "2"; "3"]%byte; mimeType := "audio/mpeg" |};
     generateImage := fun _ _ => Ok {| content_type := Some "image/jpeg";
                                       arrayBuffer := Ok ["4"; "5"]%byte |};
     bucket_put_outcome := fun _ _ => Ok tt |}.

Definition empty_db : Database :=
  {| users := []; projects := []; project_versions := []; assets := [];
     generation_jobs := [] |}.

Definition empty_world : World.t :=
  {| DB := empty_db; CACHE := ∅; MEDIA_BUCKET := ∅; now := 1000;
     uuids_drawn := 0; events := [] |}.

Definition alice : Headers :=
  {| x_user_sub := Some "alice"; x_user_email := Some "alice@example.com";
     x_user_name := None |}.

Definition bob : Headers :=
  {| x_user_sub := Some "bob"; x_user_email := None; x_user_name := None |}.

Definition topic_only := Frame.topic_only.

Definition post : Request -> M Response :=
  @POST Reference.platform outside sha256_hex.

Definition version_row (id project : string) (version : Z) : DBProjectVersion.t :=
  {| DBProjectVersion.id := id; DBProjectVersion.project_id := project;
     DBProjectVersion.version := version; DBProjectVersion.script := "[]";
     DBProjectVersion.outline := "[]"; DBProjectVersion.seo := "{}";
     DBProjectVersion.generated_with := None; DBProjectVersion.created_at := 900 |}.

Definition alice_row : DBUser.t :=
  {| DBUser.id := "user-a"; DBUser.access_sub := "alice";
     DBUser.email := Some "alice@example.com"; DBUser.name := None;
     DBUser.created_at := 800 |}.

Definition alice_project : DBProject.t :=
  {| DBProject.id := "project-a"; DBProject.user_id := "user-a";
     DBProject.title := Some "Tides"; DBProject.topic := Some "Tides";
     DBProject.target_length := None; DBProject.status := "ready";
     DBProject.created_at := 850; DBProject.updated_at := 900 |}.

(** Alice owns one project, which is at version 3. *)
Definition alice_world : World.t :=
  {| DB := {| users := [alice_row]; projects := [alice_project];
              project_versions :=
                [version_row "v-1" "project-a" 1; version_row "v-2" "project-a" 2;
                 version_row "v-3" "project-a" 3];
              assets := []; generation_jobs := [] |};
     CACHE := ∅; MEDIA_BUCKET := ∅; now := 1000; uuids_drawn := 0; events := [] |}.

(** A stand-in for [jose]: two tokens are well signed, one for the
    audience [aud-1] and one for [aud-2]. *)
Definition token_claims (token : string) : option Access.JWTPayload :=
  if String.eqb token "token-for-aud-1" then
    Some {| Access.claim_sub := Some "alice"; Access.claim_email := Some "alice@example.com";
            Access.claim_identity_email := None; Access.claim_name := None;
            Access.claim_common_name := None; Access.claim_iss := Some "https://team.example";
            Access.claim_aud := ["aud-1"] |}
  else if String.eqb token "token-for-aud-2" then
    Some {| Access.claim_sub := Some "alice"; Access.claim_email := None;
            Access.claim_identity_email := None; Access.claim_name := None;
            Access.claim_common_name := None; Access.claim_iss := None;
            Access.claim_aud := ["aud-2"] |}
  else None.

#[local] Instance jose : Access.Jose := {|
  Access.Jwks := string;
  Access.createRemoteJWKSet := fun url =>
    if String.prefix "https://" url then Ok url
    else Throw (ThrownError "Invalid URL");
  Access.jwtVerify := fun token _ options =>
    match token_claims token with
    | Some payload =>
        if bool_decide (Access.opt_audience options ∈ Access.claim_aud payload)
        then Ok (payload, {| Access.alg := "RS256" |})
        else Throw (ThrownError "unexpected aud claim value")
    | None => Throw (ThrownError "Invalid Compact JWS")
    end;
  Access.decodeJwt := token_claims;
|}.

Definition access_env : gmap string string :=
  {[ "CF_ACCESS_AUD" := "aud-1"; "CF_ACCESS_TEAM_DOMAIN" := "team.example" ]}.

Definition access_start : Access.State :=
  {| Access.cachedConfig := None; Access.cachedJwks := None |}.

Definition session_env : gmap string string :=
  {[ "SESSION_SECRET" := "0123456789abcdef0123456789abcdef" ]}.

Definition session_identity : Session.SessionIdentity :=
  {| Session.sub := "u1"; Session.email := None; Session.name := None |}.

(** The session token of [session_identity] issued at 1700000000000 under
    the secret of [session_env]. *)
Definition session_token : string :=
  "eyJzdWIiOiJ1MSIsImlzc3VlZEF0IjoxNzAwMDAwMDAwMDAwfQ.nFenOshPJYNf8CJkjq6Ia3KQy890ruf0721b_sr045M".

Definition photosynthesis : Request :=
  ScriptRequest alice (Parsed (topic_only "Photosynthesis basics")).

(** The world once Alice's first request for a script has been served. *)
Definition served_world : World.t :=
  Eval vm_compute in snd (post photosynthesis empty_world).

Definition served_entry : KvEntry :=
  {| kv_value := Reference.stringify (json_of_response a_script);
     kv_expiration := 22600 |}.

(** The same world forty minutes later. *)
Definition later_world : World.t :=
  {| DB := DB served_world; CACHE := CACHE served_world;
     MEDIA_BUCKET := MEDIA_BUCKET served_world; now := 3400;
     uuids_drawn := uuids_drawn served_world; events := events served_world |}.

(** The topic of Alice's first request again, in a project named by the
    caller. *)
Definition photosynthesis_in (projectId : string) : ScriptRequestBody :=
  {| topic := Some "Photosynthesis basics"; persona := None; lengthMinutes := None;
     language := None; script_projectId := Some projectId; regenerate := None |}.

(** Alice asks for speech for three sections, the second without text, in
    her project. *)
Definition three_sections : TtsRequestBody :=
  {| tts_projectId := Some "project-a";
     tts_sections :=
       Some [ {| section_id := None; section_heading := Some "Intro";
                 text := Some "The sea rises." |};
              {| section_id := None; section_heading := Some "Middle"; text := Some "" |};
              {| section_id := None; section_heading := Some "End";
                 text := Some "The sea falls." |} ];
     voice := None; audioConfig := None |}.

(** Bob asks for a script in Alice's project. *)
Definition bob_on_alice_project : Request :=
  ScriptRequest bob
    (Parsed {| topic := Some "Tides"; persona := None; lengthMinutes := None;
             language := None; script_projectId := Some "project-a";
             regenerate := None |}).

(** Alice asks for an image in a project that does not exist. *)
Definition alice_on_missing_project : Request :=
  ImageRequest alice
    (Parsed {| image_projectId := Some "project-z"; prompt := Some "A tide pool";
             style := None; aspectRatio := None; image_label := None |}).

End Fixture.

(** ** Concrete requests for the middleware *)
Module Scenario.
Import Http.

(** A stand-in for [new URL] on texts that carry neither query nor
    fragment. *)
Definition new_URL (text : string) : Result URL :=
  if String.prefix "https://" text || String.prefix "http://" text
  then Ok {| url_base := text; searchParams := []; url_hash := "" |}
  else Throw (ThrownError "Invalid URL").

Definition production : gmap string string :=
  {[ "NODE_ENV" := "production"; "CF_ACCESS_AUD" := "aud-1";
     "CF_ACCESS_TEAM_DOMAIN" := "team.example";
     "SESSION_SECRET" := "0123456789abcdef0123456789abcdef" ]}.

(** The same environment without a session secret. *)
Definition no_secret : gmap string string :=
  {[ "NODE_ENV" := "production"; "CF_ACCESS_AUD" := "aud-1";
     "CF_ACCESS_TEAM_DOMAIN" := "team.example" ]}.

Definition start : @Middleware.State Fixture.jose :=
  {| Middleware.access := Fixture.access_start; Middleware.keyPromise := None |}.

Definition get_request (pathname : string) (headers : list (string * string)) : NextRequest :=
  {| method := "GET"; pathname := pathname;
     href := "https://app.example" +:+ pathname;
     headers := list_to_map headers; cookies := ∅ |}.

Definition middleware (env : gmap string string) (request : NextRequest)
  : Result NextResponse * Middleware.State :=
  @Middleware.middleware Reference.platform Fixture.jose new_URL env 1700000000000 start
    request.

(** Alice, as her token for the audience [aud-1] identifies her, and the
    state of the verifier once it has verified that token. *)
Definition alice : Access.AccessIdentity :=
  {| Access.sub := Some "alice"; Access.email := Some "alice@example.com";
     Access.name := None; Access.issuer := Some "https://team.example";
     Access.token := "token-for-aud-1" |}.

Definition resolved : @Access.State Fixture.jose :=
  {| Access.cachedConfig :=
       Some {| Access.audience := "aud-1";
               Access.certsUrl := "https://team.example/cdn-cgi/access/certs";
               Access.loginUrl := "https://team.example/cdn-cgi/access/login";
               Access.algorithm := None |};
     Access.cachedJwks :=
       Some ("https://team.example/cdn-cgi/access/certs" : @Access.Jwks Fixture.jose) |}.

Definition with_token : NextRequest :=
  get_request "/dashboard" [("cf-access-jwt-assertion", "token-for-aud-1")].

End Scenario.

(** ** Providers that fail, and requests on Alice's project *)
Module Outage.
Import World Routes.

(** The outside of [Fixture.outside] with a script provider that is down. *)
Definition gemini_down : Outside :=
  {| uuid_source := uuid_source Fixture.outside;
     generateYoutubeScript :=
       fun _ _ => Throw (ThrownError "Gemini request failed: 503 overloaded");
     synthesizeSpeech := synthesizeSpeech Fixture.outside;
     generateImage := generateImage Fixture.outside;
     bucket_put_outcome := bucket_put_outcome Fixture.outside |}.

(** Alice asks for a new script for her project, past the cache. *)
Definition regenerate_tides : ScriptRequestBody :=
  {| topic := Some "Tides"; persona := None; lengthMinutes := None; language := None;
     script_projectId := Some "project-a"; regenerate := Some true |}.

(** Alice asks for speech for two sections of her project. *)
Definition two_sections : list SectionInput :=
  [ {| section_id := Some "s1"; section_heading := Some "Intro";
       text := Some "The sea rises." |};
    {| section_id := Some "s2"; section_heading := None; text := Some "The sea falls." |} ].

Definition speech_for_two : TtsRequestBody :=
  {| tts_projectId := Some "project-a"; tts_sections := Some two_sections;
     voice := None; audioConfig := None |}.

(** What the provider of [Fixture.outside] returns for every text. *)
Definition spoken (text : string) : TtsResult :=
  {| audio := ["1"; "2"; "3"]%byte; mimeType := "audio/mpeg" |}.

End Outage.

(** ** An engine that orders rows *)
Module Engine.

(** Insertion into a list that is ordered by decreasing [column], behind
    the rows of equal value. *)
Fixpoint insert_desc {A} (column : A -> Z) (row : A) (rows : list A) : list A :=
  match rows with
  | [] => [row]
  | first :: rest =>
      if column first <? column row then row :: rows
      else first :: insert_desc column row rest
  end.

Definition sort_desc {A} (column : A -> Z) (rows : list A) : list A :=
  fold_right (insert_desc column) [] rows.

#[local] Instance d1 : D1Order := {| order_by_desc := @sort_desc |}.

(** The world once speech has been recorded for two sections of Alice's
    project. *)
Definition spoken_world : World.t :=
  Eval vm_compute in
    snd (Fixture.post (Routes.TtsRequest Fixture.alice (Routes.Parsed Outage.speech_for_two))
           Fixture.alice_world).

End Engine.

(* ================================================================== *)
(** * Part II: properties *)
(* ================================================================== *)

(** ** Lists and tables *)

Lemma find_none_app {A} (f : A -> bool) (l : list A) (x : A) :
  (forall y, y ∈ l -> f y = false) -> f x = true -> find f (l ++ [x]) = Some x.
Proof.
  induction l as [|a l IH]; intros Hl Hx; simpl.
  - by rewrite Hx.
  - rewrite (Hl a) by (by left). apply IH; [|done].
    intros y Hy. apply Hl. by right.
Qed.

Lemma greatest_None (vs : list Z) : Db.greatest vs = None -> vs = [].
Proof. destruct vs as [|v vs]; [done|]. simpl. by destruct (Db.greatest vs). Qed.

Lemma greatest_upper (vs : list Z) (m v : Z) :
  Db.greatest vs = Some m -> v ∈ vs -> v <= m.
Proof.
  revert m. induction vs as [|a vs IH]; intros m Hm Hv; [by apply elem_of_nil in Hv|].
  simpl in Hm. apply elem_of_cons in Hv.
  destruct (Db.greatest vs) as [m'|] eqn:E.
  - inversion Hm; subst. destruct Hv as [->|Hv]; [lia|].
    specialize (IH m' eq_refl Hv). lia.
  - inversion Hm; subst. apply greatest_None in E. subst vs.
    destruct Hv as [->|Hv]; [lia|]. by apply elem_of_nil in Hv.
Qed.

Lemma greatest_app_last (vs : list Z) (v : Z) :
  (forall x, x ∈ vs -> x <= v) -> Db.greatest (vs ++ [v]) = Some v.
Proof.
  induction vs as [|a vs IH]; intros H; [done|].
  simpl. rewrite IH.
  - f_equal. apply Z.max_r. apply H. by left.
  - intros x Hx. apply H. by right.
Qed.

Lemma greatest_seqZ (n : nat) :
  Db.greatest (seqZ 1 (Z.of_nat n)) = if n is O then None else Some (Z.of_nat n).
Proof.
  destruct n as [|n]; [done|].
  rewrite seqZ_S.
  rewrite greatest_app_last; [f_equal; lia|].
  intros x Hx. apply elem_of_seqZ in Hx. lia.
Qed.

(** ** Running the request monad *)

Lemma run_bind {A B} (m : M A) (k : A -> M B) (w w' : World.t) (a : A) :
  m w = (Ok a, w') -> (m ≫= k) w = k a w'.
Proof. intros H. unfold mbind, World.world_bind, and_then. by rewrite H. Qed.

Lemma run_try_ok {A} (body : M A) (handler : Thrown -> M A) (w w' : World.t) (a : A) :
  body w = (Ok a, w') -> try_catch body handler w = (Ok a, w').
Proof. intros H. unfold try_catch. by rewrite H. Qed.

Lemma run_try_throw {A} (body : M A) (handler : Thrown -> M A) (w w' : World.t)
    (e : Thrown) :
  body w = (Throw e, w') -> try_catch body handler w = handler e w'.
Proof. intros H. unfold try_catch. by rewrite H. Qed.

Lemma run_bind_throw {A B} (m : M A) (k : A -> M B) (w w' : World.t) (e : Thrown) :
  m w = (Throw e, w') -> (m ≫= k) w = (Throw e, w').
Proof. intros H. unfold mbind, World.world_bind, and_then. by rewrite H. Qed.

Ltac world_simpl :=
  cbn [World.DB World.CACHE World.MEDIA_BUCKET World.now World.uuids_drawn
       World.events World.set_DB World.set_CACHE
       World.set_MEDIA_BUCKET World.draw_uuid World.log_event] in *.

Ltac unfold_monad :=
  unfold Db.randomUUID, Db.constraint_failed in *;
  unfold mbind, World.world_bind, and_then, mret, World.world_ret, ret, throw,
    lift, get_db, write_db, get_now in *.

Lemma next_version_fresh (vs : list Z) : default 0 (Db.greatest vs) + 1 ∉ vs.
Proof.
  intros Hin. destruct (Db.greatest vs) as [m|] eqn:E.
  - pose proof (greatest_upper _ _ _ E Hin). simpl in *. lia.
  - apply greatest_None in E. subst. by apply elem_of_nil in Hin.
Qed.

Section DbFacts.
Context {P : Platform} (out : World.Outside).
Import World Db.

Lemma insertProjectVersion_run (w : World.t) (projectId : string)
    (outline script seo : Json) (generatedMetadata : option Json) :
  let id := uuid_source out (uuids_drawn w) in
  let row :=
    {| DBProjectVersion.id := id;
       DBProjectVersion.project_id := projectId;
       DBProjectVersion.version := default 0 (greatest (versions_of (DB w) projectId)) + 1;
       DBProjectVersion.script := JSON_stringify script;
       DBProjectVersion.outline := JSON_stringify outline;
       DBProjectVersion.seo := JSON_stringify seo;
       DBProjectVersion.generated_with :=
         match generatedMetadata with
         | Some meta => if truthy meta then Some (JSON_stringify meta) else None
         | None => None
         end;
       DBProjectVersion.created_at := now w |} in
  id ∉ map DBProjectVersion.id (project_versions (DB w)) ->
  projectId ∈ project_ids (DB w) ->
  insertProjectVersion out projectId outline script seo generatedMetadata w =
    (Ok row,
     set_DB {| users := users (DB w); projects := projects (DB w);
               project_versions := project_versions (DB w) ++ [row];
               assets := assets (DB w);
               generation_jobs := generation_jobs (DB w) |}
       (InsertProjectVersion row) (draw_uuid w)).
Proof.
  intros id row Hfresh Hfk.
  unfold insertProjectVersion, insert_project_version. unfold_monad. simpl.
  rewrite bool_decide_eq_false_2 by done.
  rewrite bool_decide_eq_false_2 by apply next_version_fresh.
  rewrite bool_decide_eq_true_2 by done. simpl.
  rewrite find_none_app; [done| |by apply bool_decide_eq_true_2].
  intros v Hv. apply bool_decide_eq_false_2. intros Heq. apply Hfresh.
  apply list_elem_of_fmap. by exists v.
Qed.

End DbFacts.


Section VersionNumbering.
Context {P : Platform} (out : World.Outside).
Import World Db.

Lemma versions_of_snoc (d : Database) (row : DBProjectVersion.t) (projectId : string) :
  versions_of
    {| users := users d; projects := projects d;
       project_versions := project_versions d ++ [row];
       assets := assets d; generation_jobs := generation_jobs d |} projectId
  = versions_of d projectId
      ++ (if bool_decide (DBProjectVersion.project_id row = projectId)
          then [DBProjectVersion.version row] else []).
Proof.
  unfold versions_of. simpl. rewrite List.filter_app, map_app. simpl.
  by destruct (bool_decide _).
Qed.

(** C4. [insertProjectVersion] gives the new row the greatest version of
    the project plus one, or 1 when the project has none: after 3 comes 4;
    the new number is above every number the project already has (none is
    reused), a project numbered 1..n becomes numbered 1..n+1 (none is
    skipped, the numbers stay unique and increasing), and the numbers of the
    other projects are left alone. *)
Theorem insertProjectVersion_next_version (w : World.t) (projectId : string)
    (outline script seo : Json) (generatedMetadata : option Json) :
  uuid_source out (uuids_drawn w) ∉ map DBProjectVersion.id (project_versions (DB w)) ->
  projectId ∈ project_ids (DB w) ->
  exists row w',
    insertProjectVersion out projectId outline script seo generatedMetadata w = (Ok row, w')
    /\ DBProjectVersion.project_id row = projectId
    /\ DBProjectVersion.version row
         = default 0 (greatest (versions_of (DB w) projectId)) + 1
    /\ project_versions (DB w') = project_versions (DB w) ++ [row]
    /\ (greatest (versions_of (DB w) projectId) = Some 3 -> DBProjectVersion.version row = 4)
    /\ (versions_of (DB w) projectId = [] -> DBProjectVersion.version row = 1)
    /\ (forall v, v ∈ versions_of (DB w) projectId -> v < DBProjectVersion.version row)
    /\ (forall n : nat,
          versions_of (DB w) projectId = seqZ 1 (Z.of_nat n) ->
          versions_of (DB w') projectId = seqZ 1 (Z.of_nat (S n)))
    /\ (forall other, other <> projectId ->
          versions_of (DB w') other = versions_of (DB w) other).
Proof.
  intros Hfresh Hfk.
  eexists _, _. split; [by apply insertProjectVersion_run|].
  world_simpl.
  cbn [DBProjectVersion.project_id DBProjectVersion.version project_versions].
  repeat split.
  - by intros ->.
  - by intros ->.
  - intros v Hv. destruct (greatest (versions_of (DB w) projectId)) as [m|] eqn:E.
    + pose proof (greatest_upper _ _ _ E Hv). simpl. lia.
    + apply greatest_None in E. rewrite E in Hv. by apply elem_of_nil in Hv.
  - intros n Hn. rewrite versions_of_snoc. cbn [DBProjectVersion.project_id DBProjectVersion.version].
    rewrite bool_decide_eq_true_2 by done.
    rewrite Hn, seqZ_S, greatest_seqZ. do 2 f_equal.
    destruct n; [reflexivity|]. unfold default, id. lia.
  - intros other Hne. rewrite versions_of_snoc. cbn [DBProjectVersion.project_id].
    rewrite bool_decide_eq_false_2 by done. by rewrite app_nil_r.
Qed.

End VersionNumbering.

Lemma insertProjectVersion_next_version_witness :
  exists row w',
    @Db.insertProjectVersion Reference.platform Fixture.outside "project-a"
      (JArr []) (JArr []) (JObj []) None Fixture.alice_world = (Ok row, w')
    /\ DBProjectVersion.version row = 4.
Proof.
  destruct (@insertProjectVersion_next_version Reference.platform Fixture.outside
              Fixture.alice_world "project-a" (JArr []) (JArr []) (JObj []) None)
    as (row & w' & Hrun & _ & _ & _ & H4 & _).
  - apply (bool_decide_unpack _). vm_compute. exact I.
  - apply (bool_decide_unpack _). vm_compute. exact I.
  - exists row, w'. split; [exact Hrun|]. apply H4. vm_compute. reflexivity.
Defined.


(** ** The accessors, statement by statement *)

Lemma find_none_forall {A} (f : A -> bool) (l : list A) :
  find f l = None -> forall x, x ∈ l -> f x = false.
Proof.
  induction l as [|a l IH]; intros H x Hx; [by apply elem_of_nil in Hx|].
  simpl in H. destruct (f a) eqn:E; [done|].
  apply elem_of_cons in Hx as [->|Hx]; [done|by apply IH].
Qed.

Lemma find_some_elem {A} (f : A -> bool) (l : list A) (x : A) :
  find f l = Some x -> x ∈ l /\ f x = true.
Proof.
  induction l as [|a l IH]; intros H; [done|].
  simpl in H. destruct (f a) eqn:E.
  - inversion H; subst. split; [by left|done].
  - destruct (IH H). split; [by right|done].
Qed.

(** An [UPDATE ... WHERE id = ?] that reaches only the row added last. *)
Lemma map_update_last {A} (key : A -> string) (k : string) (g : A -> A)
    (l : list A) (y : A) :
  k ∉ map key l -> key y = k ->
  map (fun x => if bool_decide (key x = k) then g x else x) (l ++ [y]) = l ++ [g y].
Proof.
  intros Hl Hy. rewrite map_app. simpl. rewrite bool_decide_eq_true_2 by done.
  f_equal. induction l as [|a l IH]; [done|]. simpl.
  rewrite bool_decide_eq_false_2.
  - f_equal. apply IH. intros Hin. apply Hl. simpl. by right.
  - intros Heq. apply Hl. simpl. apply elem_of_cons. by left.
Qed.

Lemma find_by_key_last {A} (key : A -> string) (k : string) (l : list A) (y : A) :
  k ∉ map key l -> key y = k ->
  find (fun x => bool_decide (key x = k)) (l ++ [y]) = Some y.
Proof.
  intros Hl Hy. apply find_none_app; [|by apply bool_decide_eq_true_2].
  intros x Hx. apply bool_decide_eq_false_2. intros Heq. apply Hl.
  apply list_elem_of_fmap. by exists x.
Qed.

Section Accessors.
Context {P : Platform} (out : World.Outside).
Import World Db.

Lemma ensureUser_existing (w : World.t) (accessSub : string)
    (email name : option string) (existing : DBUser.t) :
  select_user_by_sub (DB w) accessSub = Some existing ->
  exists user w',
    ensureUser out accessSub email name w = (Ok user, w')
    /\ DBUser.id user = DBUser.id existing
    /\ projects (DB w') = projects (DB w)
    /\ project_versions (DB w') = project_versions (DB w)
    /\ assets (DB w') = assets (DB w)
    /\ generation_jobs (DB w') = generation_jobs (DB w)
    /\ map DBUser.id (users (DB w')) = map DBUser.id (users (DB w))
    /\ CACHE w' = CACHE w /\ MEDIA_BUCKET w' = MEDIA_BUCKET w /\ now w' = now w
    /\ uuids_drawn w' = uuids_drawn w
    /\ events w' =
         events w ++ map D1Write
                       (if str_truthy email || str_truthy name
                        then [UpdateUser (DBUser.id existing) email name] else []).
Proof.
  intros Hsel. unfold ensureUser, update_user. unfold_monad. simpl. rewrite Hsel.
  destruct (str_truthy email || str_truthy name); simpl.
  - eexists _, _. split; [reflexivity|]. world_simpl. simpl.
    repeat split; try done.
    rewrite map_map. apply map_ext. intros u. by destruct (bool_decide _).
  - eexists _, _. split; [reflexivity|]. repeat split; try done. by rewrite app_nil_r.
Qed.

Lemma ensureUser_new (w : World.t) (accessSub : string) (email name : option string) :
  let row := {| DBUser.id := uuid_source out (uuids_drawn w);
                DBUser.access_sub := accessSub;
                DBUser.email := email; DBUser.name := name;
                DBUser.created_at := now w |} in
  select_user_by_sub (DB w) accessSub = None ->
  uuid_source out (uuids_drawn w) ∉ user_ids (DB w) ->
  ensureUser out accessSub email name w =
    (Ok row,
     set_DB {| users := users (DB w) ++ [row]; projects := projects (DB w);
               project_versions := project_versions (DB w); assets := assets (DB w);
               generation_jobs := generation_jobs (DB w) |}
       (InsertUser row) (draw_uuid w)).
Proof.
  intros row Hsel Hfresh. unfold ensureUser, insert_user. unfold_monad. simpl.
  rewrite Hsel. simpl.
  rewrite bool_decide_eq_false_2 by done.
  rewrite bool_decide_eq_false_2.
  2:{ intros Hin. apply list_elem_of_fmap in Hin as (u & Hu & Hin).
      pose proof (find_none_forall _ _ Hsel u Hin) as Hf. simpl in Hf.
      by apply bool_decide_eq_false_1 in Hf. }
  simpl. unfold select_user_by_id. simpl.
  by rewrite (find_by_key_last DBUser.id).
Qed.

Lemma getProjectById_run (w : World.t) (projectId : string) :
  getProjectById projectId w =
    (Ok (find (fun p => bool_decide (DBProject.id p = projectId)) (projects (DB w))), w).
Proof. reflexivity. Qed.

Lemma createProject_run (w : World.t) (userId : string) (title topic : option string)
    (targetLength : option Z) :
  let row := {| DBProject.id := uuid_source out (uuids_drawn w);
                DBProject.user_id := userId;
                DBProject.title := title; DBProject.topic := topic;
                DBProject.target_length := targetLength;
                DBProject.status := "draft";
                DBProject.created_at := now w; DBProject.updated_at := now w |} in
  uuid_source out (uuids_drawn w) ∉ project_ids (DB w) ->
  userId ∈ user_ids (DB w) ->
  createProject out userId title topic targetLength w =
    (Ok row,
     set_DB {| users := users (DB w); projects := projects (DB w) ++ [row];
               project_versions := project_versions (DB w); assets := assets (DB w);
               generation_jobs := generation_jobs (DB w) |}
       (InsertProject row) (draw_uuid w)).
Proof.
  intros row Hfresh Hfk. unfold createProject, insert_project, getProjectById.
  unfold_monad. simpl.
  rewrite bool_decide_eq_false_2 by done.
  rewrite bool_decide_eq_true_2 by done. simpl.
  by rewrite (find_by_key_last DBProject.id).
Qed.

Lemma insertGenerationJob_run (w : World.t) (projectId jobType : string)
    (status : option string) (payload : option Json) :
  let row := {| DBGenerationJob.id := uuid_source out (uuids_drawn w);
                DBGenerationJob.project_id := projectId;
                DBGenerationJob.job_type := jobType;
                DBGenerationJob.status := default "queued" status;
                DBGenerationJob.payload := Some (JSON_stringify (default JNull payload));
                DBGenerationJob.error := None;
                DBGenerationJob.created_at := now w;
                DBGenerationJob.updated_at := now w |} in
  uuid_source out (uuids_drawn w) ∉ map DBGenerationJob.id (generation_jobs (DB w)) ->
  projectId ∈ project_ids (DB w) ->
  insertGenerationJob out projectId jobType status payload w =
    (Ok row,
     set_DB {| users := users (DB w); projects := projects (DB w);
               project_versions := project_versions (DB w); assets := assets (DB w);
               generation_jobs := generation_jobs (DB w) ++ [row] |}
       (InsertGenerationJob row) (draw_uuid w)).
Proof.
  intros row Hfresh Hfk. unfold insertGenerationJob, insert_generation_job.
  unfold_monad. simpl.
  rewrite bool_decide_eq_false_2 by done.
  rewrite bool_decide_eq_true_2 by done. simpl.
  by rewrite (find_by_key_last DBGenerationJob.id).
Qed.

Lemma insertAsset_run (w : World.t) (projectId type : string) (label : option string)
    (r2Key : string) (mimeType : option string) (sizeBytes : option Z) :
  let row := {| DBAsset.id := uuid_source out (uuids_drawn w);
                DBAsset.project_id := projectId;
                DBAsset.type := type; DBAsset.label := label;
                DBAsset.r2_key := r2Key; DBAsset.mime_type := mimeType;
                DBAsset.size_bytes := sizeBytes; DBAsset.created_at := now w |} in
  uuid_source out (uuids_drawn w) ∉ map DBAsset.id (assets (DB w)) ->
  projectId ∈ project_ids (DB w) ->
  insertAsset out projectId type label r2Key mimeType sizeBytes w =
    (Ok row,
     set_DB {| users := users (DB w); projects := projects (DB w);
               project_versions := project_versions (DB w);
               assets := assets (DB w) ++ [row];
               generation_jobs := generation_jobs (DB w) |}
       (InsertAsset row) (draw_uuid w)).
Proof.
  intros row Hfresh Hfk. unfold insertAsset, insert_asset.
  unfold_monad. simpl.
  rewrite bool_decide_eq_false_2 by done.
  rewrite bool_decide_eq_true_2 by done. simpl.
  by rewrite (find_by_key_last DBAsset.id).
Qed.

End Accessors.

(** ** Resolving the user and the project *)

Lemma NoDup_map_eq {A B} (f : A -> B) (l : list A) (x y : A) :
  NoDup (map f l) -> x ∈ l -> y ∈ l -> f x = f y -> x = y.
Proof.
  induction l as [|a l IH]; intros Hnd Hx Hy Hf; [by apply elem_of_nil in Hx|].
  simpl in Hnd. apply NoDup_cons in Hnd as [Ha Hnd].
  apply elem_of_cons in Hx as [->|Hx]; apply elem_of_cons in Hy as [->|Hy]; try done.
  - exfalso. apply Ha. rewrite Hf. apply list_elem_of_fmap. by exists y.
  - exfalso. apply Ha. rewrite <- Hf. apply list_elem_of_fmap. by exists x.
  - by apply IH.
Qed.

Lemma str_truthy_Some (s : string) : s <> "" -> str_truthy (Some s) = true.
Proof.
  intros H. simpl. destruct (String.eqb s "") eqn:E; [|done].
  by apply String.eqb_eq in E.
Qed.

Section Resolution.
Context {P : Platform} (out : World.Outside).
Import World Db Routes Fresh Frame.

(** [ensureUser] answers with a row of [users] and writes to [users] only,
    provided the identifier it may draw is not taken. *)
Lemma ensureUser_ok (w : World.t) (accessSub : string) (email name : option string) :
  uuid_source out (uuids_drawn w) ∉ user_ids (DB w) ->
  exists user w',
    ensureUser out accessSub email name w = (Ok user, w')
    /\ user_upsert_only w w'
    /\ DBUser.id user ∈ user_ids (DB w')
    /\ match select_user_by_sub (DB w) accessSub with
       | Some existing =>
           DBUser.id user = DBUser.id existing
           /\ uuids_drawn w' = uuids_drawn w
           /\ user_ids (DB w') = user_ids (DB w)
       | None =>
           DBUser.id user = uuid_source out (uuids_drawn w)
           /\ uuids_drawn w' = S (uuids_drawn w)
           /\ user_ids (DB w') = user_ids (DB w) ++ [DBUser.id user]
       end.
Proof.
  intros Hfresh. destruct (select_user_by_sub (DB w) accessSub) as [existing|] eqn:Hsel.
  - destruct (ensureUser_existing out w accessSub email name existing Hsel)
      as (user & w' & Hrun & Hid & Hp & Hv & Ha & Hj & Hids & Hc & Hb & Hn & Hu & Hjr).
    exists user, w'. split; [done|]. split; [|split].
    + repeat split; try done. eexists. split; [exact Hjr|].
      destruct (str_truthy email || str_truthy name); simpl; split; auto;
        by repeat constructor.
    + unfold user_ids. rewrite Hids, Hid.
      apply find_some_elem in Hsel as [Hin _]. apply list_elem_of_fmap. by exists existing.
    + done.
  - eexists _, _. split; [by apply ensureUser_new|]. split; [|split].
    + unfold user_upsert_only. world_simpl. simpl. repeat split; try done.
      eexists [_]. split; [done|]. simpl. split; [lia|]. by repeat constructor.
    + world_simpl. unfold user_ids. simpl. rewrite map_app. simpl.
      apply elem_of_app. right. by left.
    + world_simpl. simpl. unfold user_ids. simpl. by rewrite map_app.
Qed.

Lemma filter_map_others {A} (f : A -> bool) (g : A -> A) (l : list A) :
  (forall x, x ∈ l -> f (g x) = f x) ->
  (forall x, x ∈ l -> f x = true -> g x = x) ->
  List.filter f (map g l) = List.filter f l.
Proof.
  induction l as [|a l IH]; intros Hf Hg; [done|]. simpl.
  rewrite (Hf a) by (by left). destruct (f a) eqn:Ha.
  - rewrite (Hg a) by (done || by left). f_equal. apply IH; intros; [apply Hf|apply Hg];
      done || by right.
  - apply IH; intros; [apply Hf|apply Hg]; done || by right.
Qed.

(** [ensureUser] writes to the rows of its subject only, in a table that is
    keyed by [id]. *)
Lemma ensureUser_own_row (w w' : World.t) (accessSub : string)
    (email name : option string) (user : DBUser.t) :
  users_keyed (DB w) ->
  uuid_source out (uuids_drawn w) ∉ user_ids (DB w) ->
  ensureUser out accessSub email name w = (Ok user, w') ->
  own_user_row_only accessSub w w'.
Proof.
  intros Hkey Hfresh. unfold own_user_row_only.
  destruct (select_user_by_sub (DB w) accessSub) as [existing|] eqn:Hsel.
  - pose proof Hsel as Hfound. apply find_some_elem in Hfound as [Hin Hsub].
    apply bool_decide_eq_true_1 in Hsub.
    assert (forall u, u ∈ users (DB w) -> DBUser.id u = DBUser.id existing ->
                      DBUser.access_sub u = accessSub) as Honly.
    { intros u Hu Hid. by rewrite (NoDup_map_eq DBUser.id _ u existing Hkey Hu Hin Hid). }
    unfold ensureUser, update_user. unfold_monad. simpl. rewrite Hsel.
    destruct (str_truthy email || str_truthy name); simpl; intros [= <- <-];
      world_simpl; simpl.
    + split; [|split; [split|]].
      * apply filter_map_others.
        -- intros u _. by destruct (bool_decide (DBUser.id u = _)).
        -- intros u Hu Hother. apply negb_true_iff, bool_decide_eq_false_1 in Hother.
           rewrite bool_decide_eq_false_2; [done|]. intros Hid. by apply Hother, Honly.
      * rewrite map_map. apply map_ext. intros u. by destruct (bool_decide _).
      * rewrite map_map. apply map_ext. intros u. by destruct (bool_decide _).
      * rewrite drop_app_length. intros entry Hentry.
        apply list_elem_of_singleton in Hentry. injection Hentry as ->. exact Honly.
    + split; [done|]. split; [done|]. rewrite drop_all. intros entry Hentry.
      by apply elem_of_nil in Hentry.
  - rewrite ensureUser_new by done. intros [= <- <-]. world_simpl. simpl.
    split; [|split].
    + rewrite List.filter_app. simpl. rewrite bool_decide_eq_true_2 by done. simpl.
      by rewrite app_nil_r.
    + eexists. split; [|reflexivity]. reflexivity.
    + rewrite drop_app_length. intros entry Hentry.
      apply list_elem_of_singleton in Hentry. by injection Hentry as ->.
Qed.

(** A project of another user is not the caller's: the row that
    [ensureUser] answers with has another [id] than the owner's. *)
Lemma other_user_other_id (w w' : World.t) (accessSub : string)
    (email name : option string) (user owner : DBUser.t) :
  users_keyed (DB w) ->
  uuid_source out (uuids_drawn w) ∉ user_ids (DB w) ->
  owner ∈ users (DB w) ->
  DBUser.access_sub owner <> accessSub ->
  ensureUser out accessSub email name w = (Ok user, w') ->
  DBUser.id owner <> DBUser.id user.
Proof.
  intros Hkey Hfresh Hin Hsub Hrun.
  destruct (ensureUser_ok w accessSub email name Hfresh)
    as (user' & w'' & Hrun' & _ & _ & Hcase).
  rewrite Hrun in Hrun'. inversion Hrun'; subst user' w''. clear Hrun'.
  destruct (select_user_by_sub (DB w) accessSub) as [existing|] eqn:Hsel.
  - destruct Hcase as (Hid & _). rewrite Hid. intros Heq.
    apply find_some_elem in Hsel as [Hin' Hf].
    apply bool_decide_eq_true_1 in Hf.
    assert (owner = existing) by (by eapply (NoDup_map_eq DBUser.id)).
    subst. done.
  - destruct Hcase as (Hid & _). rewrite Hid. intros Heq. apply Hfresh.
    rewrite <- Heq. apply list_elem_of_fmap. by exists owner.
Qed.

End Resolution.

Section Rejections.
Context {P : Platform} (out : World.Outside) (sha256 : string -> string).
Import World Db Routes Fresh Frame.

(** Up to the ownership check the three handlers do the same: upsert the
    user, look the project up, and answer 400 when there is none and 403
    when its owner is someone else. *)
Lemma POST_resolution (request : Request) (projectId accessSub : string) (w : World.t) :
  names_project request projectId ->
  authenticated_as request accessSub ->
  uuid_source out (uuids_drawn w) ∉ user_ids (DB w) ->
  exists user w1,
    ensureUser out accessSub (x_user_email (headers_of request))
      (x_user_name (headers_of request)) w = (Ok user, w1)
    /\ user_upsert_only w w1
    /\ match find (fun p => bool_decide (DBProject.id p = projectId)) (projects (DB w)) with
       | None => POST out sha256 request w = (Ok (badRequest "Project not found"), w1)
       | Some project =>
           DBProject.user_id project <> DBUser.id user ->
           POST out sha256 request w
             = (Ok (forbidden "Project does not belong to user"), w1)
       end.
Proof.
  intros [Hne Hbody] [Hsub Hsubne] Hfresh.
  destruct (ensureUser_ok out w accessSub (x_user_email (headers_of request))
              (x_user_name (headers_of request)) Hfresh)
    as (user & w1 & Hrun & Hframe & _ & _).
  exists user, w1. split; [done|]. split; [done|].
  pose proof Hframe as (Hp & _).
  destruct request as [h [b| |]|h [b| |]|h [b| |]]; simpl in Hbody, Hsub, Hrun; try done;
    destruct Hbody as [Hpid Hvalid].
  - unfold POST, POST_script. rewrite Hsub, (str_truthy_Some _ Hsubne), Hvalid. simpl.
    rewrite (run_bind _ _ _ _ _ Hrun). rewrite Hpid, (str_truthy_Some _ Hne). simpl.
    rewrite (run_bind _ _ _ _ _ (getProjectById_run _ _)). rewrite Hp.
    destruct (find _ _) as [project|]; [|done].
    intros Hown. by rewrite bool_decide_eq_false_2.
  - unfold POST, POST_image. rewrite Hsub, (str_truthy_Some _ Hsubne), Hvalid. simpl.
    rewrite Hpid, (str_truthy_Some _ Hne). simpl.
    rewrite (run_bind _ _ _ _ _ Hrun).
    rewrite (run_bind _ _ _ _ _ (getProjectById_run _ _)). rewrite Hp.
    destruct (find _ _) as [project|]; [|done].
    intros Hown. by rewrite bool_decide_eq_false_2.
  - unfold POST, POST_tts. rewrite Hsub, (str_truthy_Some _ Hsubne). simpl.
    rewrite Hpid, (str_truthy_Some _ Hne). simpl.
    rewrite bool_decide_eq_false_2 by done.
    rewrite (run_bind _ _ _ _ _ Hrun).
    rewrite (run_bind _ _ _ _ _ (getProjectById_run _ _)). rewrite Hp.
    destruct (find _ _) as [project|]; [|done].
    intros Hown. by rewrite bool_decide_eq_false_2.
Qed.

(** C1, as the code has it. A request that passes the checks of its
    handler, names a project owned by user A and is authenticated as
    another user B is answered 403; it creates no Project, ProjectVersion,
    Asset or GenerationJob row, calls no provider and leaves the cache and
    the bucket alone. The one thing it may write is B's own row in [users]
    (the upsert of [ensureUser], which runs before the ownership check):
    the rows of every other subject, that of A among them, are as they
    were. *)
Theorem cross_user_request_forbidden (request : Request) (projectId subB : string)
    (w : World.t) (project : DBProject.t) (owner : DBUser.t) :
  names_project request projectId ->
  authenticated_as request subB ->
  users_keyed (DB w) ->
  uuid_source out (uuids_drawn w) ∉ user_ids (DB w) ->
  find (fun p => bool_decide (DBProject.id p = projectId)) (projects (DB w)) = Some project ->
  owner ∈ users (DB w) ->
  DBUser.id owner = DBProject.user_id project ->
  DBUser.access_sub owner <> subB ->
  exists response w',
    POST out sha256 request w = (Ok response, w')
    /\ response = forbidden "Project does not belong to user"
    /\ status response = 403
    /\ user_upsert_only w w'
    /\ own_user_row_only subB w w'
    /\ owner ∈ users (DB w').
Proof.
  intros Hreq Hauth Hkey Hfresh Hfind Hin Hown Hsub.
  destruct (POST_resolution request projectId subB w Hreq Hauth Hfresh)
    as (user & w1 & Hrun & Hframe & Hpost).
  rewrite Hfind in Hpost.
  pose proof (ensureUser_own_row out _ _ _ _ _ _ Hkey Hfresh Hrun) as Hrow.
  exists (forbidden "Project does not belong to user"), w1.
  split; [|split; [done|split; [done|split; [done|split; [done|]]]]].
  - apply Hpost. rewrite <- Hown. by eapply other_user_other_id.
  - destruct Hrow as [Hothers _].
    assert (owner ∈ List.filter
                      (fun u => negb (bool_decide (DBUser.access_sub u = subB)))
                      (users (DB w1))) as Hkept.
    { rewrite Hothers. apply list_elem_of_In, filter_In. split; [by apply list_elem_of_In|].
      by rewrite bool_decide_eq_false_2. }
    by apply list_elem_of_In, filter_In in Hkept as [?%list_elem_of_In _].
Qed.

(** C7, as the code has it. A request that passes the checks of its
    handler and names a project that does not exist is answered 400 with the
    message [Project not found]: the status of every other bad request, not
    404; the answer differs from the 403 of a project owned by someone
    else. Nothing but the caller's row in [users] is written. *)
Theorem missing_project_bad_request (request : Request) (projectId accessSub : string)
    (w : World.t) :
  names_project request projectId ->
  authenticated_as request accessSub ->
  uuid_source out (uuids_drawn w) ∉ user_ids (DB w) ->
  find (fun p => bool_decide (DBProject.id p = projectId)) (projects (DB w)) = None ->
  exists response w',
    POST out sha256 request w = (Ok response, w')
    /\ response = badRequest "Project not found"
    /\ status response = 400
    /\ status response = status (badRequest "Invalid JSON body")
    /\ status response <> status (forbidden "Project does not belong to user")
    /\ user_upsert_only w w'.
Proof.
  intros Hreq Hauth Hfresh Hfind.
  destruct (POST_resolution request projectId accessSub w Hreq Hauth Hfresh)
    as (user & w1 & Hrun & Hframe & Hpost).
  rewrite Hfind in Hpost.
  exists (badRequest "Project not found"), w1.
  split; [apply Hpost|]. split; [done|]. split; [done|]. split; [done|].
  split; [simpl; lia|done].
Qed.

End Rejections.

Lemma cross_user_request_forbidden_witness :
  exists response w',
    Fixture.post Fixture.bob_on_alice_project Fixture.alice_world = (Ok response, w')
    /\ Routes.status response = 403
    /\ Frame.user_upsert_only Fixture.alice_world w'
    /\ Frame.own_user_row_only "bob" Fixture.alice_world w'
    /\ Fixture.alice_row ∈ World.users (World.DB w').
Proof.
  destruct (@cross_user_request_forbidden Reference.platform Fixture.outside
              Fixture.sha256_hex Fixture.bob_on_alice_project "project-a" "bob"
              Fixture.alice_world Fixture.alice_project Fixture.alice_row)
    as (response & w' & Hrun & _ & Hstatus & Hframe & Hrow & Hkept).
  - split; [discriminate|]. split; reflexivity.
  - split; [reflexivity|discriminate].
  - unfold Fresh.users_keyed. apply (bool_decide_unpack _). vm_compute. exact I.
  - apply (bool_decide_unpack _). vm_compute. exact I.
  - vm_compute. reflexivity.
  - simpl. constructor.
  - reflexivity.
  - discriminate.
  - exists response, w'. split; [exact Hrun|]. split; [exact Hstatus|].
    split; [exact Hframe|]. split; [exact Hrow|exact Hkept].
Defined.

(** C1 as stated fails: Bob, who has no row in [users] yet, is answered 403
    on Alice's project, and the request has added his row to [users]. *)
Lemma cross_user_request_writes_user :
  exists w',
    Fixture.post Fixture.bob_on_alice_project Fixture.alice_world
      = (Ok (Routes.forbidden "Project does not belong to user"), w')
    /\ World.DB w' <> World.DB Fixture.alice_world
    /\ length (World.users (World.DB w')) = 2%nat.
Proof.
  eexists. split; [vm_compute; reflexivity|]. split; [|reflexivity].
  cbn [World.DB]. intros H. apply (f_equal World.users) in H.
  cbn [World.users] in H. apply (f_equal length) in H. discriminate H.
Qed.

Lemma missing_project_bad_request_witness :
  exists response w',
    Fixture.post Fixture.alice_on_missing_project Fixture.alice_world = (Ok response, w')
    /\ Routes.status response = 400.
Proof.
  destruct (@missing_project_bad_request Reference.platform Fixture.outside
              Fixture.sha256_hex Fixture.alice_on_missing_project "project-z" "alice"
              Fixture.alice_world)
    as (response & w' & Hrun & _ & Hstatus & _).
  - split; [discriminate|]. split; reflexivity.
  - split; [reflexivity|discriminate].
  - apply (bool_decide_unpack _). vm_compute. exact I.
  - vm_compute. reflexivity.
  - exists response, w'. split; [exact Hrun|exact Hstatus].
Defined.

(** C7 as stated fails: the answer to a project that does not exist has
    status 400, not 404. *)
Lemma missing_project_is_not_404 :
  exists response w',
    Fixture.post Fixture.alice_on_missing_project Fixture.alice_world = (Ok response, w')
    /\ Routes.status response = 400
    /\ Routes.status response <> 404
    /\ Routes.status response = Routes.status (Routes.badRequest "'prompt' is required").
Proof.
  eexists _, _. split; [vm_compute; reflexivity|]. by repeat split.
Qed.

(** ** Fresh identifiers *)

Section FreshFacts.
Context (out : World.Outside).
Import World Db Fresh.

Lemma fresh_uuids_nth (w : World.t) (k i : nat) :
  fresh_uuids out w k -> (i < k)%nat ->
  uuid_source out (uuids_drawn w + i) ∉ ids_in_use (DB w).
Proof.
  intros [_ Hall] Hi. rewrite Forall_forall in Hall. apply Hall.
  unfold upcoming. apply list_elem_of_fmap. exists (uuids_drawn w + i)%nat.
  split; [done|]. apply elem_of_seq. lia.
Qed.

Lemma fresh_uuids_distinct (w : World.t) (k i j : nat) :
  fresh_uuids out w k -> (i < k)%nat -> (j < k)%nat -> i <> j ->
  uuid_source out (uuids_drawn w + i) <> uuid_source out (uuids_drawn w + j).
Proof.
  intros [Hnd _] Hi Hj Hij Heq. unfold upcoming in Hnd.
  assert (uuids_drawn w + i = uuids_drawn w + j)%nat; [|lia].
  eapply (NoDup_map_eq (uuid_source out) (seq (uuids_drawn w) k)); try done;
    apply elem_of_seq; lia.
Qed.

Lemma in_use_user (d : Database) (x : string) : x ∈ user_ids d -> x ∈ ids_in_use d.
Proof. unfold ids_in_use, user_ids. rewrite !elem_of_app. tauto. Qed.

Lemma in_use_project (d : Database) (x : string) : x ∈ project_ids d -> x ∈ ids_in_use d.
Proof. unfold ids_in_use, project_ids. rewrite !elem_of_app. tauto. Qed.

Lemma in_use_version (d : Database) (x : string) :
  x ∈ map DBProjectVersion.id (project_versions d) -> x ∈ ids_in_use d.
Proof. unfold ids_in_use. rewrite !elem_of_app. tauto. Qed.

Lemma in_use_version_project (d : Database) (x : string) :
  x ∈ map DBProjectVersion.project_id (project_versions d) -> x ∈ ids_in_use d.
Proof. unfold ids_in_use. rewrite !elem_of_app. tauto. Qed.

Lemma in_use_asset (d : Database) (x : string) :
  x ∈ map DBAsset.id (assets d) -> x ∈ ids_in_use d.
Proof. unfold ids_in_use. rewrite !elem_of_app. tauto. Qed.

Lemma in_use_asset_project (d : Database) (x : string) :
  x ∈ map DBAsset.project_id (assets d) -> x ∈ ids_in_use d.
Proof. unfold ids_in_use. rewrite !elem_of_app. tauto. Qed.

Lemma in_use_job (d : Database) (x : string) :
  x ∈ map DBGenerationJob.id (generation_jobs d) -> x ∈ ids_in_use d.
Proof. unfold ids_in_use. rewrite !elem_of_app. tauto. Qed.

Lemma in_use_job_project (d : Database) (x : string) :
  x ∈ map DBGenerationJob.project_id (generation_jobs d) -> x ∈ ids_in_use d.
Proof. unfold ids_in_use. rewrite !elem_of_app. tauto. Qed.

(** A project whose identifier no row refers to has no version yet. *)
Lemma versions_of_unused (d : Database) (projectId : string) :
  projectId ∉ map DBProjectVersion.project_id (project_versions d) ->
  versions_of d projectId = [].
Proof.
  unfold versions_of. induction (project_versions d) as [|v l IH]; intros H; [done|].
  simpl. rewrite bool_decide_eq_false_2.
  - apply IH. intros Hin. apply H. simpl. by right.
  - intros Heq. apply H. simpl. apply elem_of_cons. by left.
Qed.

End FreshFacts.

Create HintDb in_use.
#[local] Hint Resolve in_use_user in_use_project in_use_version in_use_version_project
  in_use_asset in_use_asset_project in_use_job in_use_job_project : in_use.

Section ScriptPath.
Context {P : Platform} (out : World.Outside) (sha256 : string -> string).
Import World Db Routes Fresh Frame.

Lemma script_lookup_hit (payload : ScriptRequestBody) (projectId : string)
    (w : World.t) (entry : KvEntry) (hit : Json) :
  default false (regenerate payload) = false ->
  CACHE w !! cacheKey sha256 payload = Some entry ->
  now w < kv_expiration entry ->
  JSON_parse (kv_value entry) = Ok hit ->
  truthy hit = true ->
  script_lookup out sha256 payload projectId w =
    (Ok (json_response
           (JObj [("projectId", JStr projectId); ("cached", JBool true); ("result", hit)])),
     log_event (CacheGet (cacheKey sha256 payload)) w).
Proof.
  intros Hreg Hentry Hlive Hparse Htruthy.
  unfold script_lookup. rewrite Hreg. simpl.
  erewrite run_bind.
  2:{ unfold cache_get. rewrite Hentry.
      rewrite (proj2 (Z.ltb_lt _ _) Hlive), Hparse. reflexivity. }
  cbv beta iota. by rewrite Htruthy.
Qed.

(** Without a [projectId] the handler upserts the user, inserts a project
    in status [draft], and goes on to the cache with it. *)
Lemma POST_script_new_project (headers : Headers) (payload : ScriptRequestBody)
    (accessSub : string) (w : World.t) :
  x_user_sub headers = Some accessSub -> accessSub <> "" ->
  str_truthy (topic payload) = true ->
  str_truthy (script_projectId payload) = false ->
  fresh_uuids out w 2 ->
  exists user w1,
    ensureUser out accessSub (x_user_email headers) (x_user_name headers) w = (Ok user, w1)
    /\ user_upsert_only w w1
    /\ (uuids_drawn w <= uuids_drawn w1)%nat
    /\ (uuids_drawn w1 <= S (uuids_drawn w))%nat
    /\ (uuid_source out (uuids_drawn w1) ∉ ids_in_use (DB w))
    /\ let project :=
         {| DBProject.id := uuid_source out (uuids_drawn w1);
            DBProject.user_id := DBUser.id user;
            DBProject.title := topic payload; DBProject.topic := topic payload;
            DBProject.target_length := None; DBProject.status := "draft";
            DBProject.created_at := now w; DBProject.updated_at := now w |} in
       POST_script out sha256 headers (Parsed payload) w =
         script_lookup out sha256 payload (DBProject.id project)
           (set_DB {| users := users (DB w1); projects := projects (DB w) ++ [project];
                      project_versions := project_versions (DB w);
                      assets := assets (DB w);
                      generation_jobs := generation_jobs (DB w) |}
              (InsertProject project) (draw_uuid w1)).
Proof.
  intros Hsub Hsubne Htopic Hpid Hfresh.
  pose proof (fresh_uuids_nth out w 2 0 Hfresh ltac:(lia)) as Hf0.
  pose proof (fresh_uuids_nth out w 2 1 Hfresh ltac:(lia)) as Hf1.
  rewrite Nat.add_0_r in Hf0. rewrite Nat.add_1_r in Hf1.
  destruct (ensureUser_ok out w accessSub (x_user_email headers) (x_user_name headers))
    as (user & w1 & Hrun & Hframe & Huser & Hcase); [eauto with in_use|].
  exists user, w1. split; [done|]. split; [done|].
  pose proof Hframe as (Hp & Hv & Ha & Hj & Hc & Hb & Hn & _).
  assert ((uuids_drawn w <= uuids_drawn w1)%nat
          /\ (uuids_drawn w1 <= S (uuids_drawn w))%nat
          /\ (uuid_source out (uuids_drawn w1) ∉ ids_in_use (DB w))) as (Hlo & Hhi & Hnew).
  { destruct (select_user_by_sub (DB w) accessSub).
    - destruct Hcase as (_ & -> & _). split; [lia|]. split; [lia|done].
    - destruct Hcase as (_ & -> & _). split; [lia|]. split; [lia|done]. }
  split; [done|]. split; [done|]. split; [done|].
  unfold POST_script. rewrite Hsub, (str_truthy_Some _ Hsubne), Htopic. simpl.
  rewrite (run_bind _ _ _ _ _ Hrun). rewrite Hpid.
  erewrite run_bind.
  2:{ apply createProject_run; [|done].
      unfold project_ids. rewrite Hp. eauto with in_use. }
  by rewrite Hp, Hv, Ha, Hj, Hn.
Qed.

Lemma script_lookup_miss (payload : ScriptRequestBody) (projectId : string)
    (w : World.t) :
  regenerate payload = None ->
  CACHE w !! cacheKey sha256 payload = None ->
  script_lookup out sha256 payload projectId w =
    script_miss out sha256 payload projectId
      (log_event (CacheGet (cacheKey sha256 payload)) w).
Proof.
  intros Hreg Hentry. unfold script_lookup. rewrite Hreg. simpl.
  erewrite run_bind; [|unfold cache_get; by rewrite Hentry]. done.
Qed.

(** The [try] block of the script handler when the provider answers. *)
Lemma script_generate_run (payload : ScriptRequestBody) (projectId : string)
    (job : DBGenerationJob.t) (w : World.t) (result : GeminiResponse) :
  let version :=
    {| DBProjectVersion.id := uuid_source out (uuids_drawn w);
       DBProjectVersion.project_id := projectId;
       DBProjectVersion.version := default 0 (greatest (versions_of (DB w) projectId)) + 1;
       DBProjectVersion.script := JSON_stringify (JArr (map json_of_section (sections result)));
       DBProjectVersion.outline := JSON_stringify (json_strings (outline result));
       DBProjectVersion.seo := JSON_stringify (json_of_seo (seo result));
       DBProjectVersion.generated_with := None;
       DBProjectVersion.created_at := now w |} in
  let ready (p : DBProject.t) :=
    {| DBProject.id := DBProject.id p; DBProject.user_id := DBProject.user_id p;
       DBProject.title := Some (seo_title (seo result));
       DBProject.topic := coalesce (topic payload) (DBProject.topic p);
       DBProject.target_length := DBProject.target_length p;
       DBProject.status := "ready";
       DBProject.created_at := DBProject.created_at p;
       DBProject.updated_at := now w |} in
  let succeeded (j : DBGenerationJob.t) :=
    {| DBGenerationJob.id := DBGenerationJob.id j;
       DBGenerationJob.project_id := DBGenerationJob.project_id j;
       DBGenerationJob.job_type := DBGenerationJob.job_type j;
       DBGenerationJob.status := "succeeded";
       DBGenerationJob.payload := DBGenerationJob.payload j;
       DBGenerationJob.error := None;
       DBGenerationJob.created_at := DBGenerationJob.created_at j;
       DBGenerationJob.updated_at := now w |} in
  generateYoutubeScript out (length (events w)) (script_params payload) = Ok result ->
  uuid_source out (uuids_drawn w) ∉ map DBProjectVersion.id (project_versions (DB w)) ->
  projectId ∈ project_ids (DB w) ->
  script_generate out sha256 payload projectId job w =
    (Ok (json_response
           (JObj [("projectId", JStr projectId); ("cached", JBool false);
                  ("result", json_of_response result)])),
     {| DB := {| users := users (DB w);
                 projects :=
                   map (fun p => if bool_decide (DBProject.id p = projectId)
                                 then ready p else p) (projects (DB w));
                 project_versions := project_versions (DB w) ++ [version];
                 assets := assets (DB w);
                 generation_jobs :=
                   map (fun j => if bool_decide (DBGenerationJob.id j = DBGenerationJob.id job)
                                 then succeeded j else j) (generation_jobs (DB w)) |};
        CACHE :=
          <[cacheKey sha256 payload :=
              {| kv_value := JSON_stringify (json_of_response result);
                 kv_expiration := now w + 21600 |}]> (CACHE w);
        MEDIA_BUCKET := MEDIA_BUCKET w; now := now w;
        uuids_drawn := S (uuids_drawn w);
        events :=
          events w
            ++ [GeminiCall (script_params payload);
                D1Write (InsertProjectVersion version);
                D1Write (UpdateProject projectId (Some (seo_title (seo result)))
                           (topic payload) (Some "ready"));
                CachePut (cacheKey sha256 payload);
                D1Write (UpdateGenerationJob (DBGenerationJob.id job) "succeeded" None)] |}).
Proof.
  intros version ready succeeded Hcall Hfresh Hfk.
  unfold script_generate.
  erewrite run_bind; [|unfold call_generateYoutubeScript; fold (script_params payload);
                       by rewrite Hcall].
  erewrite run_bind; [|by apply insertProjectVersion_run].
  unfold updateProjectMetadata, updateGenerationJobStatus, cache_put. unfold_monad.
  unfold set_DB, set_CACHE, log_event, draw_uuid. simpl.
  rewrite <- !app_assoc. reflexivity.
Qed.

(** C10. A script request without [projectId] that hits the cache has
    inserted a project before it looked into the cache, and answers with
    that project's id and [cached: true]. The project stays in status
    [draft] and no version and no job refers to it. The insert and, before
    it, the upsert of the caller's row in [users] are all the request
    wrote: the other tables, the cache and the bucket are as before, and no
    provider was called. *)
Theorem cache_hit_leaves_draft_project (headers : Headers) (payload : ScriptRequestBody)
    (accessSub : string) (w : World.t) (entry : KvEntry) (hit : Json) :
  x_user_sub headers = Some accessSub -> accessSub <> "" ->
  str_truthy (topic payload) = true ->
  script_projectId payload = None ->
  default false (regenerate payload) = false ->
  CACHE w !! cacheKey sha256 payload = Some entry ->
  now w < kv_expiration entry ->
  JSON_parse (kv_value entry) = Ok hit ->
  truthy hit = true ->
  fresh_uuids out w 2 ->
  exists project w' user_writes,
    POST_script out sha256 headers (Parsed payload) w =
      (Ok (json_response
             (JObj [("projectId", JStr (DBProject.id project)); ("cached", JBool true);
                    ("result", hit)])), w')
    /\ (DBProject.id project ∉ project_ids (DB w))
    /\ projects (DB w') = projects (DB w) ++ [project]
    /\ DBProject.status project = "draft"
    /\ project_versions (DB w') = project_versions (DB w)
    /\ generation_jobs (DB w') = generation_jobs (DB w)
    /\ assets (DB w') = assets (DB w)
    /\ Forall (fun v => DBProjectVersion.project_id v <> DBProject.id project)
         (project_versions (DB w'))
    /\ Forall (fun j => DBGenerationJob.project_id j <> DBProject.id project)
         (generation_jobs (DB w'))
    /\ CACHE w' = CACHE w /\ MEDIA_BUCKET w' = MEDIA_BUCKET w
    /\ (length user_writes <= 1)%nat /\ Forall is_user_write user_writes
    /\ events w' =
         events w ++ map D1Write user_writes
           ++ [D1Write (InsertProject project); CacheGet (cacheKey sha256 payload)].
Proof.
  intros Hsub Hsubne Htopic Hpid Hreg Hentry Hlive Hparse Htruthy Hfresh.
  destruct (POST_script_new_project headers payload accessSub w Hsub Hsubne Htopic)
    as (user & w1 & Hrun & Hframe & _ & _ & Hnew & Hpost); [by rewrite Hpid|done|].
  destruct Hframe as (Hp & Hv & Ha & Hj & Hc & Hb & Hn & entries & He & Hlen & Hall).
  cbv zeta in Hpost. rewrite Hpost.
  rewrite (script_lookup_hit _ _ _ entry hit);
    [|done|world_simpl; by rewrite Hc|world_simpl; by rewrite Hn|done|done].
  eexists _, _, entries. split; [reflexivity|]. world_simpl. simpl.
  rewrite He, <- !app_assoc. simpl.
  repeat split; try done.
  - intros Hin. apply Hnew. eauto with in_use.
  - rewrite Forall_forall. intros v Hv' Heq. apply Hnew. rewrite <- Heq.
    apply in_use_version_project, list_elem_of_fmap. by exists v.
  - rewrite Forall_forall. intros j Hj' Heq. apply Hnew. rewrite <- Heq.
    apply in_use_job_project, list_elem_of_fmap. by exists j.
Qed.

(** C8. A script request that carries only a topic, from a subject that
    has no row in [users], on a cache without an entry for it and with a
    provider that answers: the request inserts the user, one project in
    status [draft] which it later updates to [ready], one job in status
    [running] which it later updates to [succeeded], and one version
    numbered 1 of that project, and it answers 200 with [cached: false].
    The record of the request lists these statements in their order. *)
Theorem first_script_request (headers : Headers) (subject accessSub : string)
    (w : World.t) (result : GeminiResponse) :
  let payload := topic_only subject in
  x_user_sub headers = Some accessSub -> accessSub <> "" ->
  subject <> "" ->
  select_user_by_sub (DB w) accessSub = None ->
  CACHE w !! cacheKey sha256 payload = None ->
  fresh_uuids out w 4 ->
  generateYoutubeScript out (length (events w) + 4) (script_params payload) = Ok result ->
  exists user draft ready version running succeeded w',
    POST_script out sha256 headers (Parsed payload) w =
      (Ok (json_response
             (JObj [("projectId", JStr (DBProject.id ready)); ("cached", JBool false);
                    ("result", json_of_response result)])), w')
    /\ users (DB w') = users (DB w) ++ [user]
    /\ DBUser.access_sub user = accessSub
    /\ projects (DB w') = projects (DB w) ++ [ready]
    /\ DBProject.user_id ready = DBUser.id user
    /\ DBProject.id draft = DBProject.id ready
    /\ DBProject.status draft = "draft" /\ DBProject.status ready = "ready"
    /\ project_versions (DB w') = project_versions (DB w) ++ [version]
    /\ DBProjectVersion.project_id version = DBProject.id ready
    /\ DBProjectVersion.version version = 1
    /\ generation_jobs (DB w') = generation_jobs (DB w) ++ [succeeded]
    /\ DBGenerationJob.id running = DBGenerationJob.id succeeded
    /\ DBGenerationJob.project_id succeeded = DBProject.id ready
    /\ DBGenerationJob.job_type succeeded = "script"
    /\ DBGenerationJob.status running = "running"
    /\ DBGenerationJob.status succeeded = "succeeded"
    /\ assets (DB w') = assets (DB w)
    /\ events w' =
         events w
           ++ [D1Write (InsertUser user);
               D1Write (InsertProject draft);
               CacheGet (cacheKey sha256 payload);
               D1Write (InsertGenerationJob running);
               GeminiCall (script_params payload);
               D1Write (InsertProjectVersion version);
               D1Write (UpdateProject (DBProject.id ready)
                          (Some (seo_title (seo result))) (Some subject) (Some "ready"));
               CachePut (cacheKey sha256 payload);
               D1Write (UpdateGenerationJob (DBGenerationJob.id succeeded)
                          "succeeded" None)].
Proof.
  intros payload Hsub Hsubne Htopic Hsel Hmiss Hfresh Hcall.
  pose proof (fresh_uuids_nth out w 4 0 Hfresh ltac:(lia)) as Hf0.
  pose proof (fresh_uuids_nth out w 4 1 Hfresh ltac:(lia)) as Hf1.
  pose proof (fresh_uuids_nth out w 4 2 Hfresh ltac:(lia)) as Hf2.
  pose proof (fresh_uuids_nth out w 4 3 Hfresh ltac:(lia)) as Hf3.
  rewrite Nat.add_0_r in Hf0.
  replace (uuids_drawn w + 1)%nat with (S (uuids_drawn w)) in Hf1 by lia.
  replace (uuids_drawn w + 2)%nat with (S (S (uuids_drawn w))) in Hf2 by lia.
  replace (uuids_drawn w + 3)%nat with (S (S (S (uuids_drawn w)))) in Hf3 by lia.
  unfold POST_script. rewrite Hsub, (str_truthy_Some _ Hsubne).
  cbn [negb topic payload topic_only script_projectId].
  rewrite (str_truthy_Some _ Htopic). cbn [negb str_truthy].
  erewrite run_bind; [|apply ensureUser_new; [done|eauto with in_use]].
  erewrite run_bind.
  2:{ apply createProject_run; world_simpl; cbn [DBUser.id].
      - unfold project_ids. cbn [projects]. eauto with in_use.
      - unfold user_ids. cbn [users]. rewrite map_app. apply elem_of_app. right.
        by left. }
  cbn [DBProject.id].
  rewrite script_lookup_miss; [|done|by world_simpl].
  unfold script_miss.
  erewrite run_bind.
  2:{ apply insertGenerationJob_run; world_simpl.
      - cbn [generation_jobs]. eauto with in_use.
      - unfold project_ids. cbn [projects]. rewrite map_app. apply elem_of_app. right.
        by left. }
  erewrite run_try_ok.
  2:{ apply script_generate_run; world_simpl.
      - rewrite length_app, length_app, length_app, length_app. simpl.
        replace (length (events w) + 1 + 1 + 1 + 1)%nat
          with (length (events w) + 4)%nat by lia.
        rewrite <- Hcall. f_equal; lia.
      - cbn [project_versions]. eauto with in_use.
      - unfold project_ids. cbn [projects]. rewrite map_app. apply elem_of_app. right.
        by left. }
  world_simpl. cbn [users projects project_versions assets generation_jobs].
  rewrite (map_update_last DBProject.id); [|eauto with in_use|done].
  rewrite (map_update_last DBGenerationJob.id); [|eauto with in_use|done].
  rewrite versions_of_unused.
  2:{ unfold versions_of. cbn [project_versions]. fold (versions_of (DB w)).
      eauto with in_use. }
  set (u0 := uuid_source out (uuids_drawn w)).
  set (u1 := uuid_source out (S (uuids_drawn w))).
  set (u2 := uuid_source out (S (S (uuids_drawn w)))).
  set (u3 := uuid_source out (S (S (S (uuids_drawn w))))).
  exists {| DBUser.id := u0; DBUser.access_sub := accessSub;
            DBUser.email := x_user_email headers; DBUser.name := x_user_name headers;
            DBUser.created_at := now w |},
         {| DBProject.id := u1; DBProject.user_id := u0;
            DBProject.title := Some subject; DBProject.topic := Some subject;
            DBProject.target_length := None; DBProject.status := "draft";
            DBProject.created_at := now w; DBProject.updated_at := now w |},
         {| DBProject.id := u1; DBProject.user_id := u0;
            DBProject.title := Some (seo_title (seo result));
            DBProject.topic := Some subject;
            DBProject.target_length := None; DBProject.status := "ready";
            DBProject.created_at := now w; DBProject.updated_at := now w |},
         {| DBProjectVersion.id := u3; DBProjectVersion.project_id := u1;
            DBProjectVersion.version := 1;
            DBProjectVersion.script :=
              JSON_stringify (JArr (map json_of_section (sections result)));
            DBProjectVersion.outline := JSON_stringify (json_strings (outline result));
            DBProjectVersion.seo := JSON_stringify (json_of_seo (seo result));
            DBProjectVersion.generated_with := None;
            DBProjectVersion.created_at := now w |},
         {| DBGenerationJob.id := u2; DBGenerationJob.project_id := u1;
            DBGenerationJob.job_type := "script"; DBGenerationJob.status := "running";
            DBGenerationJob.payload :=
              Some (JSON_stringify (json_of_script_body payload));
            DBGenerationJob.error := None;
            DBGenerationJob.created_at := now w; DBGenerationJob.updated_at := now w |},
         {| DBGenerationJob.id := u2; DBGenerationJob.project_id := u1;
            DBGenerationJob.job_type := "script"; DBGenerationJob.status := "succeeded";
            DBGenerationJob.payload :=
              Some (JSON_stringify (json_of_script_body payload));
            DBGenerationJob.error := None;
            DBGenerationJob.created_at := now w; DBGenerationJob.updated_at := now w |}.
  eexists. split; [reflexivity|].
  world_simpl. cbn [users projects project_versions assets generation_jobs].
  rewrite <- !app_assoc.
  repeat split; reflexivity.
Qed.

End ScriptPath.

Lemma first_script_request_witness :
  exists response w',
    Fixture.post Fixture.photosynthesis Fixture.empty_world = (Ok response, w')
    /\ Routes.status response = 200
    /\ map DBProject.status (World.projects (World.DB w')) = ["ready"]
    /\ map DBProjectVersion.version (World.project_versions (World.DB w')) = [1]
    /\ map DBGenerationJob.status (World.generation_jobs (World.DB w')) = ["succeeded"].
Proof.
  destruct (@first_script_request Reference.platform Fixture.outside Fixture.sha256_hex
              Fixture.alice "Photosynthesis basics" "alice" Fixture.empty_world
              Fixture.a_script)
    as (user & draft & ready & version & running & succeeded & w' & Hrun & _ & _ & Hp & _
        & _ & _ & Hready & Hv & _ & Hone & Hj & _ & _ & _ & _ & Hs & _).
  - reflexivity.
  - discriminate.
  - discriminate.
  - reflexivity.
  - vm_compute. reflexivity.
  - split; apply (bool_decide_unpack _); vm_compute; exact I.
  - reflexivity.
  - eexists _, w'. split; [exact Hrun|]. split; [reflexivity|].
    rewrite Hp, Hv, Hj. simpl. rewrite Hready, Hone, Hs. by repeat split.
Defined.

Lemma cache_hit_leaves_draft_project_witness :
  exists response w',
    Fixture.post (Routes.ScriptRequest Fixture.bob
                    (Routes.Parsed (Frame.topic_only "Photosynthesis basics")))
      Fixture.served_world = (Ok response, w')
    /\ Routes.status response = 200
    /\ map DBProject.status (World.projects (World.DB w')) = ["ready"; "draft"]
    /\ World.generation_jobs (World.DB w')
       = World.generation_jobs (World.DB Fixture.served_world).
Proof.
  destruct (@cache_hit_leaves_draft_project Reference.platform Fixture.outside
              Fixture.sha256_hex Fixture.bob (Frame.topic_only "Photosynthesis basics")
              "bob" Fixture.served_world Fixture.served_entry
              (Routes.json_of_response Fixture.a_script))
    as (project & w' & writes & Hrun & _ & Hp & Hdraft & _ & Hj & _).
  - reflexivity.
  - discriminate.
  - reflexivity.
  - reflexivity.
  - reflexivity.
  - vm_compute. reflexivity.
  - vm_compute. reflexivity.
  - vm_compute. reflexivity.
  - reflexivity.
  - split; apply (bool_decide_unpack _); vm_compute; exact I.
  - eexists _, w'. split; [exact Hrun|]. split; [reflexivity|].
    rewrite Hp, Hj. split; [|reflexivity].
    rewrite map_app. simpl. by rewrite Hdraft.
Defined.

Section SpeechPath.
Context {P : Platform} (out : World.Outside) (sha256 : string -> string).
Import World Db Routes Fresh Frame.

(** One turn of the loop for a section with text, then a section without:
    the first is synthesised, stored and recorded, the second throws. *)
Lemma tts_loop_stops_at_empty_text (payload : TtsRequestBody) (project : DBProject.t)
    (first second : SectionInput) (rest : list SectionInput) (results : list Json)
    (w : World.t) (spoken : string) (ttsResult : TtsResult) :
  let params := {| tts_text := spoken; tts_voice := voice payload;
                   tts_audioConfig := audioConfig payload |} in
  let key := "audio/" +:+ DBProject.id project +:+ "/"
               +:+ uuid_source out (uuids_drawn w) +:+ ".mp3" in
  let asset :=
    {| DBAsset.id := uuid_source out (S (uuids_drawn w));
       DBAsset.project_id := DBProject.id project;
       DBAsset.type := "audio";
       DBAsset.label := Some (default (default "Audio Segment" (section_id first))
                                (section_heading first));
       DBAsset.r2_key := key;
       DBAsset.mime_type := Some (mimeType ttsResult);
       DBAsset.size_bytes := Some (Z.of_nat (length (audio ttsResult)));
       DBAsset.created_at := now w |} in
  text first = Some spoken -> spoken <> "" ->
  str_truthy (text second) = false ->
  synthesizeSpeech out (length (events w)) params = Ok ttsResult ->
  bucket_put_outcome out (S (length (events w))) key = Ok tt ->
  uuid_source out (S (uuids_drawn w)) ∉ map DBAsset.id (assets (DB w)) ->
  DBProject.id project ∈ project_ids (DB w) ->
  tts_sections_loop out payload project (first :: second :: rest) results w =
    (Throw (ThrownError "Section text is required"),
     {| DB := {| users := users (DB w); projects := projects (DB w);
                 project_versions := project_versions (DB w);
                 assets := assets (DB w) ++ [asset];
                 generation_jobs := generation_jobs (DB w) |};
        CACHE := CACHE w;
        MEDIA_BUCKET :=
          <[key := {| r2_body := audio ttsResult; r2_contentType := mimeType ttsResult |}]>
            (MEDIA_BUCKET w);
        now := now w; uuids_drawn := S (S (uuids_drawn w));
        events := events w ++ [TtsCall params; BucketPut key; D1Write (InsertAsset asset)] |}).
Proof.
  intros params key asset Htext Hne Hempty Hsynth Hput Hfresh Hfk.
  cbn [tts_sections_loop]. rewrite Htext, (str_truthy_Some _ Hne).
  cbn [negb default from_option id].
  erewrite run_bind; [|unfold call_synthesizeSpeech; fold params; by rewrite Hsynth].
  erewrite run_bind; [|reflexivity].
  erewrite run_bind.
  2:{ unfold bucket_put. world_simpl. rewrite length_app. simpl.
      replace (length (events w) + 1)%nat with (S (length (events w))) by lia.
      fold key. rewrite Hput. reflexivity. }
  erewrite run_bind; [|by apply insertAsset_run].
  rewrite Hempty. cbn [negb]. unfold throw.
  unfold set_DB, set_MEDIA_BUCKET, log_event, draw_uuid. simpl.
  rewrite <- !app_assoc. reflexivity.
Qed.

(** C5. A speech request with three sections whose second has an empty
    text, on a project of the caller, where the provider synthesises the
    first section and the bucket stores it: the job the request inserted in
    status [running] ends in status [failed] with the error
    [Section text is required]; one asset row, for the first section, has
    been inserted and stays, as does its object in the bucket; the provider
    was called once; the answer is a 500. *)
Theorem tts_empty_second_section (headers : Headers) (payload : TtsRequestBody)
    (accessSub projectId : string) (w : World.t) (user : DBUser.t)
    (project : DBProject.t) (s1 s2 s3 : SectionInput) (spoken : string)
    (ttsResult : TtsResult) :
  let params := {| tts_text := spoken; tts_voice := voice payload;
                   tts_audioConfig := audioConfig payload |} in
  x_user_sub headers = Some accessSub -> accessSub <> "" ->
  tts_projectId payload = Some projectId -> projectId <> "" ->
  tts_sections payload = Some [s1; s2; s3] ->
  text s1 = Some spoken -> spoken <> "" ->
  text s2 = Some "" ->
  select_user_by_sub (DB w) accessSub = Some user ->
  find (fun p => bool_decide (DBProject.id p = projectId)) (projects (DB w)) = Some project ->
  DBProject.user_id project = DBUser.id user ->
  fresh_uuids out w 3 ->
  (forall n, synthesizeSpeech out n params = Ok ttsResult) ->
  (forall n key, bucket_put_outcome out n key = Ok tt) ->
  exists running failed asset user_writes w',
    POST_tts out headers (Parsed payload) w =
      (Ok (error_response "Failed to generate audio" 500), w')
    /\ status (error_response "Failed to generate audio" 500) = 500
    /\ generation_jobs (DB w') = generation_jobs (DB w) ++ [failed]
    /\ DBGenerationJob.id failed = DBGenerationJob.id running
    /\ DBGenerationJob.project_id failed = projectId
    /\ DBGenerationJob.job_type failed = "tts"
    /\ DBGenerationJob.status running = "running"
    /\ DBGenerationJob.status failed = "failed"
    /\ DBGenerationJob.error failed = Some "Section text is required"
    /\ assets (DB w') = assets (DB w) ++ [asset]
    /\ DBAsset.project_id asset = projectId
    /\ DBAsset.type asset = "audio"
    /\ DBAsset.label asset
       = Some (default (default "Audio Segment" (section_id s1)) (section_heading s1))
    /\ DBAsset.size_bytes asset = Some (Z.of_nat (length (audio ttsResult)))
    /\ MEDIA_BUCKET w' !! DBAsset.r2_key asset
       = Some {| r2_body := audio ttsResult; r2_contentType := mimeType ttsResult |}
    /\ projects (DB w') = projects (DB w)
    /\ project_versions (DB w') = project_versions (DB w)
    /\ (length user_writes <= 1)%nat /\ Forall is_user_write user_writes
    /\ events w' =
         events w ++ map D1Write user_writes
           ++ [D1Write (InsertGenerationJob running);
               TtsCall params;
               BucketPut (DBAsset.r2_key asset);
               D1Write (InsertAsset asset);
               D1Write (UpdateGenerationJob (DBGenerationJob.id failed) "failed"
                          (Some "Section text is required"))].
Proof.
  intros params Hsub Hsubne Hpid Hpidne Hsections Ht1 Ht1ne Ht2 Hsel Hfind Hown
    Hfresh Hsynth Hput.
  pose proof (fresh_uuids_nth out w 3 0 Hfresh ltac:(lia)) as Hf0.
  pose proof (fresh_uuids_nth out w 3 2 Hfresh ltac:(lia)) as Hf2.
  rewrite Nat.add_0_r in Hf0.
  replace (uuids_drawn w + 2)%nat with (S (S (uuids_drawn w))) in Hf2 by lia.
  destruct (find_some_elem _ _ _ Hfind) as [Hin Hid].
  apply bool_decide_eq_true_1 in Hid.
  assert (projectId ∈ project_ids (DB w)) as Hfk.
  { rewrite <- Hid. apply list_elem_of_fmap. by exists project. }
  destruct (ensureUser_existing out w accessSub (x_user_email headers)
              (x_user_name headers) user Hsel)
    as (user' & w1 & Hrun & Huid & Hp & Hv & Ha & Hj & _ & Hc & Hb & Hn & Hu & He).
  unfold POST_tts. rewrite Hsub, (str_truthy_Some _ Hsubne), Hpid, (str_truthy_Some _ Hpidne).
  rewrite Hsections. cbn [negb default from_option id].
  rewrite bool_decide_eq_false_2 by done.
  rewrite (run_bind _ _ _ _ _ Hrun).
  rewrite (run_bind _ _ _ _ _ (getProjectById_run _ _)). rewrite Hp, Hfind.
  rewrite bool_decide_eq_true_2 by congruence. cbn [negb].
  erewrite run_bind.
  2:{ apply insertGenerationJob_run.
      - rewrite Hu, Hj. eauto with in_use.
      - unfold project_ids. by rewrite Hp, Hid. }
  erewrite run_try_throw.
  2:{ unfold tts_generate. rewrite Hsections. cbn [default from_option id].
      erewrite run_bind_throw; [reflexivity|].
      apply (tts_loop_stops_at_empty_text _ _ _ _ _ _ _ spoken ttsResult);
        world_simpl; try done.
      - by rewrite Ht2.
      - cbn [assets]. rewrite Hu, Ha. eauto with in_use.
      - unfold project_ids. cbn [projects]. by rewrite Hp, Hid. }
  unfold updateGenerationJobStatus. unfold_monad. world_simpl. simpl.
  rewrite (map_update_last DBGenerationJob.id);
    [|rewrite Hu, Hj; eauto with in_use|done].
  eexists _, _, _, _, _. split; [reflexivity|].
  world_simpl. cbn [users projects project_versions assets generation_jobs].
  rewrite Hj, Ha, He, Hid, Hu, Hn, Hp, Hv. rewrite <- !app_assoc.
  split; [done|]. split; [reflexivity|]. simpl.
  repeat split; try reflexivity.
  - apply lookup_insert_eq.
  - destruct (str_truthy _ || str_truthy _); simpl; lia.
  - destruct (str_truthy _ || str_truthy _); by repeat constructor.
Qed.

End SpeechPath.

(** ** What the script handler can do before and at a cache hit *)

Lemma inv_bind {A B} (m : M A) (k : A -> M B) (w w' : World.t) (r : Result B) :
  (m ≫= k) w = (r, w') ->
  (exists a w1, m w = (Ok a, w1) /\ k a w1 = (r, w'))
  \/ (exists e, m w = (Throw e, w') /\ r = Throw e).
Proof.
  unfold mbind, World.world_bind, and_then. destruct (m w) as [[a|e] w1]; intros H.
  - left. by exists a, w1.
  - right. inversion H; subst. by exists e.
Qed.

Section QuietSteps.
Context {P : Platform} (out : World.Outside) (sha256 : string -> string).
Import World Db Routes Fresh Frame.

Lemma quiet_step_refl (w : World.t) : quiet_step w w.
Proof. repeat split; try done. exists []. by rewrite app_nil_r. Qed.

Lemma quiet_step_trans (w1 w2 w3 : World.t) :
  quiet_step w1 w2 -> quiet_step w2 w3 -> quiet_step w1 w3.
Proof.
  intros (Hc & Hn & Hb & Hv & Ha & Hj & d & He & Hq)
         (Hc' & Hn' & Hb' & Hv' & Ha' & Hj' & d' & He' & Hq').
  repeat split; try congruence.
  exists (d ++ d'). split; [by rewrite He', He, app_assoc|by apply Forall_app].
Qed.

Lemma quiet_step_event (w : World.t) (e : Event) (d : Database) :
  quiet e ->
  project_versions d = project_versions (DB w) ->
  assets d = assets (DB w) ->
  generation_jobs d = generation_jobs (DB w) ->
  forall n : nat,
    quiet_step w {| DB := d; CACHE := CACHE w; MEDIA_BUCKET := MEDIA_BUCKET w;
                    now := now w; uuids_drawn := n; events := events w ++ [e] |}.
Proof.
  intros Hq Hv Ha Hj n. repeat split; try done. exists [e]. split; [done|].
  by repeat constructor.
Qed.

Lemma quiet_step_draw (w : World.t) : quiet_step w (draw_uuid w).
Proof. repeat split; try done. exists []. by rewrite app_nil_r. Qed.

Lemma ensureUser_quiet (w w' : World.t) (accessSub : string)
    (email name : option string) (r : Result DBUser.t) :
  ensureUser out accessSub email name w = (r, w') -> quiet_step w w'.
Proof.
  unfold ensureUser, insert_user, update_user, select_user_by_id. unfold_monad.
  intros H. simpl in H.
  repeat case_match; simplify_eq;
    try first [ apply quiet_step_refl | apply quiet_step_draw
          | by apply quiet_step_event
          | by eapply quiet_step_trans; [apply quiet_step_draw|apply quiet_step_event] ].
Qed.

Lemma createProject_quiet (w w' : World.t) (userId : string) (title topic : option string)
    (targetLength : option Z) (r : Result DBProject.t) :
  createProject out userId title topic targetLength w = (r, w') -> quiet_step w w'.
Proof.
  unfold createProject, insert_project, getProjectById. unfold_monad.
  intros H. simpl in H.
  repeat case_match; simplify_eq;
    first [ apply quiet_step_refl | apply quiet_step_draw
          | by apply quiet_step_event
          | by eapply quiet_step_trans; [apply quiet_step_draw|apply quiet_step_event] ].
Qed.

Lemma insertGenerationJob_clock (w w' : World.t) (projectId jobType : string)
    (status : option string) (payload : option Json) (r : Result DBGenerationJob.t) :
  insertGenerationJob out projectId jobType status payload w = (r, w') ->
  now w' = now w /\ CACHE w' = CACHE w.
Proof.
  unfold insertGenerationJob, insert_generation_job. unfold_monad.
  intros H. simpl in H. by repeat case_match; simplify_eq.
Qed.

Lemma insertProjectVersion_clock (w w' : World.t) (projectId : string)
    (outline script seo : Json) (meta : option Json) (r : Result DBProjectVersion.t) :
  insertProjectVersion out projectId outline script seo meta w = (r, w') ->
  now w' = now w /\ CACHE w' = CACHE w.
Proof.
  unfold insertProjectVersion, insert_project_version. unfold_monad.
  intros H. simpl in H. by repeat case_match; simplify_eq.
Qed.

Ltac inv_ret H :=
  unfold mret, World.world_ret, ret in H; simplify_eq.

(** With a live, truthy entry under its key and [regenerate] unset, the
    script handler calls no provider and writes no job, version or asset,
    however it ends; and if it answers 200, the answer is the cached one. *)
Lemma POST_script_on_hit (headers : Headers) (payload : ScriptRequestBody)
    (w w' : World.t) (entry : KvEntry) (hit : Json) (r : Result Response) :
  default false (regenerate payload) = false ->
  CACHE w !! cacheKey sha256 payload = Some entry ->
  now w < kv_expiration entry ->
  JSON_parse (kv_value entry) = Ok hit ->
  truthy hit = true ->
  POST_script out sha256 headers (Parsed payload) w = (r, w') ->
  quiet_step w w'
  /\ forall response, r = Ok response -> status response = 200 ->
       exists projectId, response = script_answer projectId true hit.
Proof.
  intros Hreg Hentry Hlive Hparse Htruthy H. unfold POST_script in H.
  destruct (negb (str_truthy (x_user_sub headers))).
  { inv_ret H. split; [apply quiet_step_refl|]. intros ? [= <-] Hs. discriminate Hs. }
  destruct (negb (str_truthy (topic payload))).
  { inv_ret H. split; [apply quiet_step_refl|]. intros ? [= <-] Hs. discriminate Hs. }
  apply inv_bind in H as [(user & w1 & Hu & H)|(e & Hu & ->)];
    pose proof (ensureUser_quiet _ _ _ _ _ _ Hu) as Hq1; [|by split].
  pose proof Hq1 as (Hc1 & Hn1 & _).
  assert (forall projectId w2,
             quiet_step w w2 -> CACHE w2 = CACHE w -> now w2 = now w ->
             script_lookup out sha256 payload projectId w2 = (r, w') ->
             quiet_step w w'
             /\ forall response, r = Ok response -> status response = 200 ->
                  exists projectId, response = script_answer projectId true hit) as Hlookup.
  { intros projectId w2 Hq Hc Hn Hl.
    rewrite (script_lookup_hit _ _ _ _ _ entry hit) in Hl;
      [|done|by rewrite Hc|by rewrite Hn|done|done].
    simplify_eq. split.
    - eapply quiet_step_trans; [exact Hq|].
      by apply (quiet_step_event w2 (CacheGet _) (DB w2)).
    - intros ? [= <-] _. by eexists. }
  destruct (str_truthy (script_projectId payload)).
  - apply inv_bind in H as [(project & w2 & Hp & H)|(e & Hp & ->)];
      rewrite getProjectById_run in Hp; simplify_eq.
    destruct (find _ _) as [project|].
    + destruct (negb (bool_decide _)).
      * inv_ret H. split; [done|]. intros ? [= <-] Hs. discriminate Hs.
      * by eapply Hlookup.
    + inv_ret H. split; [done|]. intros ? [= <-] Hs. discriminate Hs.
  - apply inv_bind in H as [(project & w2 & Hp & H)|(e & Hp & ->)];
      pose proof (createProject_quiet _ _ _ _ _ _ _ Hp) as Hq2.
    + pose proof Hq2 as (Hc2 & Hn2 & _).
      apply (Hlookup (DBProject.id project) w2);
        [by eapply quiet_step_trans|congruence|congruence|exact H].
    + split; [by eapply quiet_step_trans|done].
Qed.

(** The [try] block of the script handler, read backwards: when it
    returns, it has put the result it answers with into the cache, for six
    hours from now. *)
Lemma script_generate_inv (payload : ScriptRequestBody) (projectId : string)
    (job : DBGenerationJob.t) (w w' : World.t) (response : Response) :
  script_generate out sha256 payload projectId job w = (Ok response, w') ->
  exists result,
    response = script_answer projectId false (json_of_response result)
    /\ CACHE w' !! cacheKey sha256 payload
       = Some {| kv_value := JSON_stringify (json_of_response result);
                 kv_expiration := now w + 21600 |}
    /\ now w' = now w.
Proof.
  unfold script_generate. intros H.
  apply inv_bind in H as [(result & w1 & Hcall & H)|(e & _ & [=])].
  unfold call_generateYoutubeScript in Hcall. simplify_eq.
  apply inv_bind in H as [(version & w2 & Hv & H)|(e & _ & [=])].
  apply insertProjectVersion_clock in Hv as [Hn2 Hc2]. world_simpl.
  unfold updateProjectMetadata, updateGenerationJobStatus, cache_put in H.
  unfold_monad. simpl in H. simplify_eq.
  exists result. split; [done|]. world_simpl. split; [|done].
  rewrite lookup_insert_eq. do 2 f_equal. rewrite Hn2. reflexivity.
Qed.

(** The script handler, read backwards: an answer with [cached: false]
    means that the result it carries is in the cache, under the key of the
    request, until six hours after the request. *)
Lemma POST_script_answer_inv (headers : Headers) (body : Body ScriptRequestBody)
    (w w' : World.t) (response : Response) :
  POST_script out sha256 headers body w = (Ok response, w') ->
  get_field "cached" (Routes.body response) = Some (JBool false) ->
  exists payload projectId result,
    body = Parsed payload
    /\ response = script_answer projectId false (json_of_response result)
    /\ CACHE w' !! cacheKey sha256 payload
       = Some {| kv_value := JSON_stringify (json_of_response result);
                 kv_expiration := now w + 21600 |}
    /\ now w' = now w.
Proof.
  intros H Hcached. unfold POST_script in H.
  destruct (negb (str_truthy (x_user_sub headers))); [inv_ret H; discriminate Hcached|].
  destruct body as [payload| |]; [|inv_ret H; discriminate Hcached|done].
  destruct (negb (str_truthy (topic payload))); [inv_ret H; discriminate Hcached|].
  apply inv_bind in H as [(user & w1 & Hu & H)|(e & _ & [=])].
  apply ensureUser_quiet in Hu as (_ & Hn1 & _).
  assert (forall projectId w2,
             now w2 = now w ->
             script_lookup out sha256 payload projectId w2 = (Ok response, w') ->
             exists payload' projectId result,
               Parsed payload = Parsed payload'
               /\ response = script_answer projectId false (json_of_response result)
               /\ CACHE w' !! cacheKey sha256 payload'
                  = Some {| kv_value := JSON_stringify (json_of_response result);
                            kv_expiration := now w + 21600 |}
               /\ now w' = now w) as Hlookup.
  { intros projectId w2 Hn Hl. unfold script_lookup in Hl.
    apply inv_bind in Hl as [(cached & w3 & Hget & Hl)|(e & _ & [=])].
    assert (now w3 = now w) as Hn3.
    { destruct (negb _); [|inv_ret Hget; done].
      unfold cache_get in Hget. by repeat case_match; simplify_eq. }
    assert (script_miss out sha256 payload projectId w3 = (Ok response, w')
            -> exists result,
                 response = script_answer projectId false (json_of_response result)
                 /\ CACHE w' !! cacheKey sha256 payload
                    = Some {| kv_value := JSON_stringify (json_of_response result);
                              kv_expiration := now w + 21600 |}
                 /\ now w' = now w) as Hmiss.
    { unfold script_miss. intros Hm.
      apply inv_bind in Hm as [(job & w4 & Hjob & Hm)|(e & _ & [=])].
      apply insertGenerationJob_clock in Hjob as [Hn4 _].
      unfold try_catch in Hm.
      destruct (script_generate out sha256 payload projectId job w4) as [[resp|e] w5] eqn:Hg.
      - simplify_eq. apply script_generate_inv in Hg as (result & -> & Hc & Hn5).
        exists result. split; [done|]. split; [|congruence].
        rewrite Hc. do 2 f_equal. congruence.
      - unfold updateGenerationJobStatus in Hm. unfold_monad. simpl in Hm.
        simplify_eq; discriminate Hcached. }
    destruct cached as [hit|].
    - destruct (truthy hit).
      + inv_ret Hl; discriminate Hcached.
      + destruct (Hmiss Hl) as (result & ? & ? & ?). by exists payload, projectId, result.
    - destruct (Hmiss Hl) as (result & ? & ? & ?). by exists payload, projectId, result. }
  destruct (str_truthy (script_projectId payload)).
  - apply inv_bind in H as [(project & w2 & Hp & H)|(e & _ & [=])].
    rewrite getProjectById_run in Hp. simplify_eq.
    destruct (find _ _) as [project|]; [|inv_ret H; discriminate Hcached].
    destruct (negb (bool_decide _)); [inv_ret H; discriminate Hcached|].
    by eapply Hlookup.
  - apply inv_bind in H as [(project & w2 & Hp & H)|(e & _ & [=])].
    apply createProject_quiet in Hp as (_ & Hn2 & _).
    apply (Hlookup (DBProject.id project) w2); [congruence|exact H].
Qed.

Lemma same_script_key (b1 b2 : ScriptRequestBody) :
  same_script b1 b2 -> cacheKey sha256 b1 = cacheKey sha256 b2.
Proof.
  intros (Ht & Hp & Hl & Hg). unfold cacheKey, cacheBase. by rewrite Ht, Hp, Hl, Hg.
Qed.

Lemma POST_script_hit_new_project (headers : Headers) (payload : ScriptRequestBody)
    (accessSub : string) (w : World.t) (entry : KvEntry) (hit : Json) :
  x_user_sub headers = Some accessSub -> accessSub <> "" ->
  str_truthy (topic payload) = true ->
  script_projectId payload = None ->
  default false (regenerate payload) = false ->
  CACHE w !! cacheKey sha256 payload = Some entry ->
  now w < kv_expiration entry ->
  JSON_parse (kv_value entry) = Ok hit ->
  truthy hit = true ->
  fresh_uuids out w 2 ->
  exists projectId w',
    POST_script out sha256 headers (Parsed payload) w
      = (Ok (script_answer projectId true hit), w').
Proof.
  intros Hsub Hsubne Htopic Hpid Hreg Hentry Hlive Hparse Htruthy Hfresh.
  destruct (POST_script_new_project out sha256 headers payload accessSub w Hsub Hsubne Htopic)
    as (user & w1 & Hrun & Hframe & _ & _ & Hnew & Hpost); [by rewrite Hpid|done|].
  destruct Hframe as (_ & _ & _ & _ & Hc & _ & Hn & _).
  cbv zeta in Hpost. rewrite Hpost.
  rewrite (script_lookup_hit out sha256 _ _ _ entry hit);
    [|done|world_simpl; by rewrite Hc|world_simpl; by rewrite Hn|done|done].
  by eexists _, _.
Qed.

Lemma POST_script_hit_own_project (headers : Headers) (payload : ScriptRequestBody)
    (accessSub projectId : string) (w : World.t) (user : DBUser.t)
    (project : DBProject.t) (entry : KvEntry) (hit : Json) :
  x_user_sub headers = Some accessSub -> accessSub <> "" ->
  str_truthy (topic payload) = true ->
  script_projectId payload = Some projectId -> projectId <> "" ->
  select_user_by_sub (DB w) accessSub = Some user ->
  find (fun p => bool_decide (DBProject.id p = projectId)) (projects (DB w)) = Some project ->
  DBProject.user_id project = DBUser.id user ->
  default false (regenerate payload) = false ->
  CACHE w !! cacheKey sha256 payload = Some entry ->
  now w < kv_expiration entry ->
  JSON_parse (kv_value entry) = Ok hit ->
  truthy hit = true ->
  exists w',
    POST_script out sha256 headers (Parsed payload) w
      = (Ok (script_answer projectId true hit), w').
Proof.
  intros Hsub Hsubne Htopic Hpid Hpidne Hsel Hfind Hown Hreg Hentry Hlive Hparse Htruthy.
  destruct (ensureUser_existing out w accessSub (x_user_email headers)
              (x_user_name headers) user Hsel)
    as (user' & w1 & Hrun & Huid & Hp & _ & _ & _ & _ & Hc & _ & Hn & _).
  unfold POST_script. rewrite Hsub, (str_truthy_Some _ Hsubne), Htopic. cbn [negb].
  rewrite (run_bind _ _ _ _ _ Hrun). rewrite Hpid, (str_truthy_Some _ Hpidne).
  cbn [default from_option id].
  rewrite (run_bind _ _ _ _ _ (getProjectById_run _ _)). rewrite Hp, Hfind.
  rewrite bool_decide_eq_true_2 by congruence. cbn [negb].
  rewrite (script_lookup_hit out sha256 _ _ _ entry hit);
    [|done|by rewrite Hc|by rewrite Hn|done|done].
  by eexists.
Qed.

(** What the first of two requests leaves for the second: the entry that
    the second finds, live and truthy. *)
Lemma first_answer_is_cached (h1 : Headers) (b1 b2 : ScriptRequestBody)
    (w0 w1 w2 : World.t) (answer : Response) (result : Json) :
  POST_script out sha256 h1 (Parsed b1) w0 = (Ok answer, w1) ->
  get_field "cached" (Routes.body answer) = Some (JBool false) ->
  get_field "result" (Routes.body answer) = Some result ->
  same_script b1 b2 ->
  CACHE w2 !! cacheKey sha256 b1 = CACHE w1 !! cacheKey sha256 b1 ->
  now w2 < now w0 + 21600 ->
  exists entry,
    CACHE w2 !! cacheKey sha256 b2 = Some entry
    /\ now w2 < kv_expiration entry
    /\ kv_value entry = JSON_stringify result
    /\ truthy result = true.
Proof.
  intros H1 Hcached Hresult Hsame Hkept Hlive.
  destruct (POST_script_answer_inv _ _ _ _ _ H1 Hcached)
    as (payload & projectId & r & [= <-] & -> & Hentry & _).
  simpl in Hresult. simplify_eq.
  eexists. rewrite <- (same_script_key _ _ Hsame), Hkept, Hentry.
  by repeat split.
Qed.

(** C3, as the code has it. After a script request that was answered with
    [cached: false] and a result, a second request with the same topic,
    persona, length and language and without [regenerate], made while the
    entry is in the cache and less than six hours after the first, calls no
    provider and writes no job, however it is answered; it is answered 200
    only with [cached: true] and the result of the first; and it is
    answered so when it names no project or a project of its caller. (A
    request that names a missing project or someone else's is answered 400
    or 403, before the cache is looked at.) *)
Theorem second_request_served_from_cache (h1 h2 : Headers) (b1 b2 : ScriptRequestBody)
    (w0 w1 w2 : World.t) (answer : Response) (result : Json) :
  POST_script out sha256 h1 (Parsed b1) w0 = (Ok answer, w1) ->
  get_field "cached" (Routes.body answer) = Some (JBool false) ->
  get_field "result" (Routes.body answer) = Some result ->
  same_script b1 b2 ->
  default false (regenerate b2) = false ->
  CACHE w2 !! cacheKey sha256 b1 = CACHE w1 !! cacheKey sha256 b1 ->
  now w2 < now w0 + 21600 ->
  JSON_parse (JSON_stringify result) = Ok result ->
  (forall r w2',
      POST_script out sha256 h2 (Parsed b2) w2 = (r, w2') ->
      quiet_step w2 w2'
      /\ forall response, r = Ok response -> status response = 200 ->
           exists projectId, response = script_answer projectId true result)
  /\ (forall accessSub,
        x_user_sub h2 = Some accessSub -> accessSub <> "" ->
        script_projectId b2 = None ->
        fresh_uuids out w2 2 ->
        exists projectId w2',
          POST_script out sha256 h2 (Parsed b2) w2
            = (Ok (script_answer projectId true result), w2'))
  /\ (forall accessSub projectId user project,
        x_user_sub h2 = Some accessSub -> accessSub <> "" ->
        script_projectId b2 = Some projectId -> projectId <> "" ->
        select_user_by_sub (DB w2) accessSub = Some user ->
        find (fun p => bool_decide (DBProject.id p = projectId)) (projects (DB w2))
          = Some project ->
        DBProject.user_id project = DBUser.id user ->
        exists w2',
          POST_script out sha256 h2 (Parsed b2) w2
            = (Ok (script_answer projectId true result), w2')).
Proof.
  intros H1 Hcached Hresult Hsame Hreg Hkept Hlive Hround.
  destruct (first_answer_is_cached h1 b1 b2 w0 w1 w2 answer result)
    as (entry & Hentry & Hexp & Hvalue & Htruthy); try done.
  assert (str_truthy (topic b2) = true) as Htopic.
  { destruct Hsame as (<- & _). unfold POST_script in H1.
    destruct (negb (str_truthy (x_user_sub h1))); [inv_ret H1; discriminate Hcached|].
    destruct (str_truthy (topic b1)); [done|]. cbn [negb] in H1.
    inv_ret H1; discriminate Hcached. }
  rewrite <- Hvalue in Hround.
  split; [|split].
  - intros r w2' H2. by eapply POST_script_on_hit.
  - intros accessSub Hsub Hne Hpid Hfresh. by eapply POST_script_hit_new_project.
  - intros accessSub projectId user project Hsub Hne Hpid Hpidne Hsel Hfind Hown.
    by eapply POST_script_hit_own_project.
Qed.

(** C9, as the code has it. The cache key is computed from the topic,
    persona, length and language of the body and from nothing else: bodies
    that agree on these four have the same key, whoever sends them and
    whatever project they name. So when user A's request was answered with
    [cached: false] and a result, a request of another user B with the same
    four fields and without [regenerate], made while the entry is in the
    cache and less than six hours later, is answered with A's result and
    [cached: true], provided it gets as far as the cache: it names no
    project, or a project of B. *)
Theorem cached_script_crosses_users (h1 h2 : Headers) (b1 b2 : ScriptRequestBody)
    (subA subB : string) (w0 w1 w2 : World.t) (answer : Response) (result : Json) :
  x_user_sub h1 = Some subA -> x_user_sub h2 = Some subB ->
  subA <> subB -> subB <> "" ->
  POST_script out sha256 h1 (Parsed b1) w0 = (Ok answer, w1) ->
  get_field "cached" (Routes.body answer) = Some (JBool false) ->
  get_field "result" (Routes.body answer) = Some result ->
  same_script b1 b2 ->
  default false (regenerate b2) = false ->
  CACHE w2 !! cacheKey sha256 b1 = CACHE w1 !! cacheKey sha256 b1 ->
  now w2 < now w0 + 21600 ->
  JSON_parse (JSON_stringify result) = Ok result ->
  cacheKey sha256 b1 = cacheKey sha256 b2
  /\ (forall b, same_script b2 b -> cacheKey sha256 b = cacheKey sha256 b2)
  /\ (script_projectId b2 = None ->
      fresh_uuids out w2 2 ->
      exists projectId w2',
        POST_script out sha256 h2 (Parsed b2) w2
          = (Ok (script_answer projectId true result), w2'))
  /\ (forall projectId user project,
        script_projectId b2 = Some projectId -> projectId <> "" ->
        select_user_by_sub (DB w2) subB = Some user ->
        find (fun p => bool_decide (DBProject.id p = projectId)) (projects (DB w2))
          = Some project ->
        DBProject.user_id project = DBUser.id user ->
        exists w2',
          POST_script out sha256 h2 (Parsed b2) w2
            = (Ok (script_answer projectId true result), w2')).
Proof.
  intros HsubA HsubB Hdiff Hne H1 Hcached Hresult Hsame Hreg Hkept Hlive Hround.
  split; [by apply same_script_key|].
  split; [intros b Hb; symmetry; by apply same_script_key|].
  destruct (first_answer_is_cached h1 b1 b2 w0 w1 w2 answer result)
    as (entry & Hentry & Hexp & Hvalue & Htruthy); try done.
  assert (str_truthy (topic b2) = true) as Htopic.
  { destruct Hsame as (<- & _). unfold POST_script in H1.
    destruct (negb (str_truthy (x_user_sub h1))); [inv_ret H1; discriminate Hcached|].
    destruct (str_truthy (topic b1)); [done|]. cbn [negb] in H1.
    inv_ret H1; discriminate Hcached. }
  rewrite <- Hvalue in Hround.
  split.
  - intros Hpid Hfresh. by eapply POST_script_hit_new_project.
  - intros projectId user project Hpid Hpidne Hsel Hfind Hown.
    by eapply POST_script_hit_own_project.
Qed.

End QuietSteps.

Lemma tts_empty_second_section_witness :
  exists w',
    Fixture.post (Routes.TtsRequest Fixture.alice (Routes.Parsed Fixture.three_sections))
      Fixture.alice_world
      = (Ok (Routes.error_response "Failed to generate audio" 500), w')
    /\ map DBGenerationJob.status (World.generation_jobs (World.DB w')) = ["failed"]
    /\ length (World.assets (World.DB w')) = 1%nat.
Proof.
  destruct (@tts_empty_second_section Reference.platform Fixture.outside
              Fixture.alice Fixture.three_sections "alice" "project-a" Fixture.alice_world
              Fixture.alice_row Fixture.alice_project
              {| Routes.section_id := None; Routes.section_heading := Some "Intro";
                 Routes.text := Some "The sea rises." |}
              {| Routes.section_id := None; Routes.section_heading := Some "Middle";
                 Routes.text := Some "" |}
              {| Routes.section_id := None; Routes.section_heading := Some "End";
                 Routes.text := Some "The sea falls." |}
              "The sea rises."
              {| World.audio := ["1"; "2"; "3"]%byte; World.mimeType := "audio/mpeg" |})
    as (running & failed & asset & writes & w' & Hrun & _ & Hj & _ & _ & _ & _ & Hf & _
        & Ha & _).
  - reflexivity.
  - discriminate.
  - reflexivity.
  - discriminate.
  - reflexivity.
  - reflexivity.
  - discriminate.
  - reflexivity.
  - vm_compute. reflexivity.
  - vm_compute. reflexivity.
  - reflexivity.
  - split; apply (bool_decide_unpack _); vm_compute; exact I.
  - reflexivity.
  - reflexivity.
  - exists w'. split; [exact Hrun|]. rewrite Hj, Ha. simpl. by rewrite Hf.
Defined.

Lemma second_request_served_from_cache_witness :
  exists projectId w',
    Fixture.post (Routes.ScriptRequest Fixture.bob
                    (Routes.Parsed (Frame.topic_only "Photosynthesis basics")))
      Fixture.later_world
      = (Ok (Frame.script_answer projectId true
               (Routes.json_of_response Fixture.a_script)), w').
Proof.
  destruct (@second_request_served_from_cache Reference.platform Fixture.outside
              Fixture.sha256_hex Fixture.alice Fixture.bob
              (Frame.topic_only "Photosynthesis basics")
              (Frame.topic_only "Photosynthesis basics")
              Fixture.empty_world Fixture.served_world Fixture.later_world
              (Frame.script_answer "uuid-1" false (Routes.json_of_response Fixture.a_script))
              (Routes.json_of_response Fixture.a_script))
    as (_ & Hnew & _).
  - vm_compute. reflexivity.
  - reflexivity.
  - reflexivity.
  - by repeat split.
  - reflexivity.
  - reflexivity.
  - vm_compute. reflexivity.
  - vm_compute. reflexivity.
  - apply (Hnew "bob"); [reflexivity|discriminate|reflexivity|].
    split; apply (bool_decide_unpack _); vm_compute; exact I.
Defined.

(** C3 as stated fails: after Alice's first request, her second request
    with the same topic and without [regenerate] names a project that does
    not exist, and is answered 400, not from the cache. *)
Lemma second_request_missing_project :
  exists answer w1 response w2,
    Fixture.post Fixture.photosynthesis Fixture.empty_world = (Ok answer, w1)
    /\ get_field "cached" (Routes.body answer) = Some (JBool false)
    /\ Frame.same_script (Frame.topic_only "Photosynthesis basics")
         (Fixture.photosynthesis_in "project-z")
    /\ Routes.regenerate (Fixture.photosynthesis_in "project-z") = None
    /\ Fixture.post (Routes.ScriptRequest Fixture.alice
                       (Routes.Parsed (Fixture.photosynthesis_in "project-z"))) w1
       = (Ok response, w2)
    /\ Routes.status response = 400
    /\ get_field "cached" (Routes.body response) = None.
Proof.
  eexists _, _, _, _. split; [vm_compute; reflexivity|].
  split; [reflexivity|]. split; [by repeat split|]. split; [reflexivity|].
  split; [vm_compute; reflexivity|]. by split.
Qed.

Lemma cached_script_crosses_users_witness :
  exists projectId w',
    Fixture.post (Routes.ScriptRequest Fixture.bob
                    (Routes.Parsed (Frame.topic_only "Photosynthesis basics")))
      Fixture.served_world
      = (Ok (Frame.script_answer projectId true
               (Routes.json_of_response Fixture.a_script)), w').
Proof.
  destruct (@cached_script_crosses_users Reference.platform Fixture.outside
              Fixture.sha256_hex Fixture.alice Fixture.bob
              (Frame.topic_only "Photosynthesis basics")
              (Frame.topic_only "Photosynthesis basics") "alice" "bob"
              Fixture.empty_world Fixture.served_world Fixture.served_world
              (Frame.script_answer "uuid-1" false (Routes.json_of_response Fixture.a_script))
              (Routes.json_of_response Fixture.a_script))
    as (_ & _ & Hnew & _).
  - reflexivity.
  - reflexivity.
  - discriminate.
  - discriminate.
  - vm_compute. reflexivity.
  - reflexivity.
  - reflexivity.
  - by repeat split.
  - reflexivity.
  - reflexivity.
  - vm_compute. reflexivity.
  - vm_compute. reflexivity.
  - apply Hnew; [reflexivity|].
    split; apply (bool_decide_unpack _); vm_compute; exact I.
Defined.

(** C9 as stated fails: Bob's request has the four fields of Alice's and no
    [regenerate], but names Alice's project: it is answered 403 and the
    cached result is not returned to him. *)
Lemma other_user_on_foreign_project :
  exists answer w1 response w2,
    Fixture.post Fixture.photosynthesis Fixture.empty_world = (Ok answer, w1)
    /\ get_field "cached" (Routes.body answer) = Some (JBool false)
    /\ get_field "projectId" (Routes.body answer) = Some (JStr "uuid-1")
    /\ Frame.same_script (Frame.topic_only "Photosynthesis basics")
         (Fixture.photosynthesis_in "uuid-1")
    /\ Routes.regenerate (Fixture.photosynthesis_in "uuid-1") = None
    /\ Fixture.post (Routes.ScriptRequest Fixture.bob
                       (Routes.Parsed (Fixture.photosynthesis_in "uuid-1"))) w1
       = (Ok response, w2)
    /\ Routes.status response = 403
    /\ get_field "cached" (Routes.body response) = None.
Proof.
  eexists _, _, _, _. split; [vm_compute; reflexivity|].
  split; [reflexivity|]. split; [reflexivity|]. split; [by repeat split|].
  split; [reflexivity|]. split; [vm_compute; reflexivity|]. by split.
Qed.

(** ** Base64 *)

Import Codec.

Lemma three_ind {A} (P : list A -> Prop) :
  P [] -> (forall a, P [a]) -> (forall a b, P [a; b]) ->
  (forall a b c l, P l -> P (a :: b :: c :: l)) ->
  forall l, P l.
Proof.
  intros H0 H1 H2 H3 l.
  assert (P l /\ (forall a, P (a :: l)) /\ (forall a b, P (a :: b :: l))) as [H _].
  { induction l as [|x l (IH0 & IH1 & IH2)]; [by repeat split|].
    split; [apply IH1|]. split; [intros a; apply IH2|].
    intros a b. by apply H3. }
  exact H.
Qed.




Lemma sextets_range (bs : list Z) :
  Forall is_byte bs -> Forall is_sextet (Base64.sextets bs).
Proof.
  induction bs as [|a|a b|a b c l IH] using three_ind; intros H; simpl.
  - constructor.
  - apply Forall_cons in H as [Ha _]. unfold is_byte, is_sextet in *.
    repeat constructor; Z.div_mod_to_equations; lia.
  - apply Forall_cons in H as [Ha H]. apply Forall_cons in H as [Hb _].
    unfold is_byte, is_sextet in *.
    repeat constructor; Z.div_mod_to_equations; lia.
  - apply Forall_cons in H as [Ha H]. apply Forall_cons in H as [Hb H].
    apply Forall_cons in H as [Hc H].
    unfold is_byte, is_sextet in *.
    repeat (constructor; [Z.div_mod_to_equations; lia|]). by apply IH.
Qed.

Lemma unsextets_sextets (bs : list Z) :
  Forall is_byte bs -> Base64.unsextets (Base64.sextets bs) = bs.
Proof.
  induction bs as [|a|a b|a b c l IH] using three_ind; intros H.
  - done.
  - apply Forall_cons in H as [Ha _]. unfold is_byte in *. simpl.
    f_equal. Z.div_mod_to_equations; lia.
  - apply Forall_cons in H as [Ha H]. apply Forall_cons in H as [Hb _].
    unfold is_byte in *. simpl.
    f_equal; [|f_equal]; Z.div_mod_to_equations; lia.
  - apply Forall_cons in H as [Ha H]. apply Forall_cons in H as [Hb H].
    apply Forall_cons in H as [Hc H]. unfold is_byte in *.
    cbn [Base64.sextets Base64.unsextets]. rewrite IH by done.
    f_equal; [|f_equal; [|f_equal]]; Z.div_mod_to_equations; lia.
Qed.

Lemma length_sextets (bs : list Z) :
  (length (Base64.sextets bs) mod 4 = [0; 2; 3] !!! (length bs mod 3))%nat
  /\ (length (Base64.sextets bs) = 0%nat <-> bs = []).
Proof.
  induction bs as [|a|a b|a b c l IH] using three_ind; try done.
  destruct IH as [IH _]. split; [|done].
  cbn [Base64.sextets length].
  replace (S (S (S (S (length (Base64.sextets l)))))) with
    (length (Base64.sextets l) + 1 * 4)%nat by lia.
  replace (S (S (S (length l)))) with (length l + 1 * 3)%nat by lia.
  by rewrite !Nat.Div0.mod_add.
Qed.
Lemma b64_char_alphabet (f : ascii -> bool) :
  forallb f Base64.alphabet = true -> forall v, f (Base64.b64_char v) = true.
Proof.
  intros H v. rewrite forallb_forall in H. unfold Base64.b64_char.
  destruct (nth_in_or_default (Z.to_nat v) Base64.alphabet "A"%char) as [Hin| ->].
  - by apply H.
  - apply H. vm_compute. tauto.
Qed.

Lemma b64_val_char (v : Z) : is_sextet v -> Base64.b64_val (Base64.b64_char v) = Some v.
Proof.
  intros Hv.
  assert (forallb (fun v => bool_decide (Base64.b64_val (Base64.b64_char v) = Some v))
            (seqZ 0 64) = true) as H by (vm_compute; reflexivity).
  rewrite forallb_forall in H. specialize (H v).
  apply bool_decide_eq_true_1 in H; [done|].
  apply list_elem_of_In, elem_of_seqZ. unfold is_sextet in Hv. lia.
Qed.

Lemma all_vals_chars (vs : list Z) :
  Forall is_sextet vs -> Base64.all_vals (map Base64.b64_char vs) = Some vs.
Proof.
  induction 1 as [|v vs Hv _ IH]; [done|]. simpl. by rewrite b64_val_char, IH.
Qed.

Lemma list_ascii_of_string_app (s t : string) :
  list_ascii_of_string (s +:+ t) = list_ascii_of_string s ++ list_ascii_of_string t.
Proof. induction s as [|c s IH]; [done|]. simpl. by rewrite IH. Qed.

Lemma filter_all {A} (f : A -> bool) (l : list A) :
  Forall (fun x => f x = true) l -> List.filter f l = l.
Proof. induction 1 as [|x l Hx _ IH]; [done|]. simpl. by rewrite Hx, IH. Qed.

Lemma filter_none {A} (f : A -> bool) (l : list A) :
  Forall (fun x => f x = false) l -> List.filter f l = [].
Proof. induction 1 as [|x l Hx _ IH]; [done|]. simpl. by rewrite Hx. Qed.

Lemma Forall_b64_chars (f : ascii -> bool) (vs : list Z) :
  forallb f Base64.alphabet = true -> Forall (fun c => f c = true) (map Base64.b64_char vs).
Proof.
  intros H. apply Forall_forall. intros c Hc.
  apply list_elem_of_fmap in Hc as (v & -> & _). by apply b64_char_alphabet.
Qed.

Lemma chr_code (c : ascii) : chr (code c) = c.
Proof. unfold chr, code. by rewrite N2Z.id, ascii_N_embedding. Qed.

Lemma code_byte (c : ascii) : is_byte (code c).
Proof.
  unfold code, is_byte. pose proof (N_ascii_bounded c). lia.
Qed.

(** [atob] undoes [btoa] once the padding has been removed and put back. *)
Lemma atob_chars_padded (bs : list Z) :
  Forall is_byte bs ->
  let chars := map Base64.b64_char (Base64.sextets bs) in
  Base64.atob_chars (chars ++ repeat "="%char ((4 - length chars mod 4) mod 4)) = Some bs.
Proof.
  intros Hbs chars.
  pose proof (sextets_range bs Hbs) as Hrange.
  destruct (length_sextets bs) as [Hlen Hempty].
  assert (length chars = length (Base64.sextets bs)) as Hchars by apply length_map.
  unfold Base64.atob_chars.
  rewrite filter_all.
  2:{ apply Forall_app. split.
      - by apply (Forall_b64_chars (fun c => negb (Base64.is_ascii_whitespace c))).
      - apply Forall_forall. intros c Hc. apply list_elem_of_In, repeat_spec in Hc.
        by subst. }
  rewrite length_app, repeat_length, Hchars.
  set (n := length (Base64.sextets bs)) in *.
  assert ((n + (4 - n mod 4) mod 4) mod 4 = 0)%nat as Hpad.
  { pose proof (Nat.mod_upper_bound n 4 ltac:(lia)).
    destruct (n mod 4)%nat as [|[|[|[|?]]]] eqn:E; try lia;
      rewrite Nat.Div0.add_mod, E; reflexivity. }
  rewrite Hpad. cbn [Nat.eqb].
  assert (rev (Base64.strip_padding_rev
                 (rev (chars ++ repeat "="%char ((4 - n mod 4) mod 4)))) = chars) as ->.
  { rewrite rev_app_distr, rev_repeat.
    assert (forall c rest, rev chars = c :: rest -> c <> "="%char) as Hlast.
    { intros c rest Hrev Hc.
      assert (c ∈ chars) as Hin.
      { apply list_elem_of_In, in_rev. rewrite Hrev. by left. }
      apply list_elem_of_fmap in Hin as (v & -> & _).
      pose proof (b64_char_alphabet (fun c => negb (Ascii.eqb c "=")) eq_refl v) as Hne.
      rewrite Hc in Hne. done. }
    assert (n mod 4 <> 1)%nat as Hn1.
    { rewrite Hlen. pose proof (Nat.mod_upper_bound (length bs) 3 ltac:(lia)).
      destruct (length bs mod 3)%nat as [|[|[|?]]]; simpl; lia. }
    pose proof (Nat.mod_upper_bound n 4 ltac:(lia)).
    destruct (n mod 4)%nat as [|[|[|[|?]]]] eqn:E; try lia; simpl.
    - destruct (rev chars) as [|c rest] eqn:Hrev; [by rewrite <- (rev_involutive chars), Hrev|].
      pose proof (Hlast c rest eq_refl).
      rewrite <- (rev_involutive chars), Hrev.
      unfold Base64.strip_padding_rev.
      destruct c as [[] [] [] [] [] [] [] []]; try done.
    - by rewrite rev_involutive.
    - destruct (rev chars) as [|c rest] eqn:Hrev; [by rewrite <- (rev_involutive chars), Hrev|].
      pose proof (Hlast c rest eq_refl).
      rewrite <- (rev_involutive chars), Hrev.
      destruct c as [[] [] [] [] [] [] [] []]; try done. }
  rewrite Hchars.
  assert ((n mod 4 =? 1)%nat = false) as ->.
  { apply Nat.eqb_neq. rewrite Hlen.
    pose proof (Nat.mod_upper_bound (length bs) 3 ltac:(lia)).
    destruct (length bs mod 3)%nat as [|[|[|?]]]; simpl; lia. }
  unfold chars. rewrite all_vals_chars by done. by rewrite unsextets_sextets.
Qed.

(** ** The base64url codec of the session module *)

Lemma length_string_of_list_ascii (l : list ascii) :
  String.length (string_of_list_ascii l) = length l.
Proof. induction l as [|c l IH]; [done|]. simpl. by rewrite IH. Qed.

Lemma replace_char_chars (c d : ascii) (l : list ascii) :
  Session.replace_char c d (string_of_list_ascii l)
  = string_of_list_ascii (map (fun x => if Ascii.eqb x c then d else x) l).
Proof. unfold Session.replace_char. by rewrite list_ascii_of_string_of_list_ascii. Qed.

Lemma base64UrlEncode_chars (data : list byte) :
  Session.base64UrlEncode data = string_of_list_ascii (url_chars data).
Proof.
  unfold Session.base64UrlEncode, Base64.btoa, Base64.btoa_chars, Session.remove_char.
  fold (byte_codes data).
  rewrite list_ascii_of_string_of_list_ascii, List.filter_app.
  rewrite filter_all
    by apply (Forall_b64_chars (fun x => negb (Ascii.eqb x "=")) _ eq_refl).
  rewrite filter_none, app_nil_r.
  2:{ apply Forall_forall. intros c Hc. apply list_elem_of_In, repeat_spec in Hc. by subst. }
  rewrite !replace_char_chars, map_map. reflexivity.
Qed.

Lemma unurl_url_chars (data : list byte) :
  map unurl_char (url_chars data)
  = map Base64.b64_char (Base64.sextets (byte_codes data)).
Proof.
  unfold url_chars. rewrite map_map.
  rewrite <- (map_id (map Base64.b64_char _)) at 2.
  apply map_ext_in. intros c Hc.
  apply list_elem_of_In, list_elem_of_fmap in Hc as (v & -> & _).
  pose proof (b64_char_alphabet (fun c => Ascii.eqb (unurl_char (url_char c)) c) eq_refl v)
    as H.
  by apply Ascii.eqb_eq in H.
Qed.

Lemma byte_codes_range (data : list byte) : Forall is_byte (byte_codes data).
Proof.
  unfold byte_codes. apply Forall_forall. intros b Hb.
  apply list_elem_of_fmap in Hb as (c & -> & _). apply code_byte.
Qed.

(** [base64UrlDecode] undoes [base64UrlEncode]. *)
Lemma base64Url_roundtrip (data : list byte) :
  Session.base64UrlDecode (Session.base64UrlEncode data) = Ok data.
Proof.
  unfold Session.base64UrlDecode. rewrite base64UrlEncode_chars.
  rewrite !replace_char_chars, map_map.
  change (map (fun x => _) (url_chars data)) with (map unurl_char (url_chars data)).
  rewrite unurl_url_chars.
  set (chars := map Base64.b64_char (Base64.sextets (byte_codes data))).
  rewrite length_string_of_list_ascii.
  unfold Base64.atob.
  rewrite list_ascii_of_string_app, !list_ascii_of_string_of_list_ascii.
  unfold chars. rewrite (atob_chars_padded _ (byte_codes_range data)).
  simpl. f_equal. unfold list_byte_of_string.
  rewrite list_ascii_of_string_of_list_ascii. unfold byte_codes.
  rewrite (map_map code chr).
  rewrite (map_ext (fun x => chr (code x)) id) by apply chr_code. rewrite map_id.
  apply list_byte_of_string_of_list_byte.
Qed.

(** No encoded text contains a dot, and only the empty data has an empty
    encoding. *)
Lemma url_chars_no_dot (data : list byte) :
  Forall (fun c => Ascii.eqb c "." = false) (url_chars data).
Proof.
  unfold url_chars. apply Forall_forall. intros c Hc.
  apply list_elem_of_fmap in Hc as (b & -> & Hb).
  apply list_elem_of_fmap in Hb as (v & -> & _).
  pose proof (b64_char_alphabet (fun c => negb (Ascii.eqb (url_char c) ".")) eq_refl v) as H.
  by apply negb_true_iff in H.
Qed.

Lemma url_chars_nonempty (data : list byte) : data <> [] -> url_chars data <> [].
Proof.
  intros Hdata Hnil. apply Hdata.
  unfold url_chars in Hnil. apply map_eq_nil, map_eq_nil in Hnil.
  apply (f_equal length) in Hnil. simpl in Hnil.
  apply (length_sextets (byte_codes data)) in Hnil.
  unfold byte_codes in Hnil. apply map_eq_nil in Hnil.
  apply (f_equal string_of_list_ascii) in Hnil.
  rewrite string_of_list_ascii_of_string in Hnil. simpl in Hnil.
  apply (f_equal list_byte_of_string) in Hnil.
  by rewrite list_byte_of_string_of_list_byte in Hnil.
Qed.

(** ** HMAC-SHA-256 gives 32 bytes *)

Lemma round_length (st : list Z) (kw : Z * Z) :
  length st = 8%nat -> length (Sha256.round st kw) = 8%nat.
Proof.
  intros H. do 9 (destruct st as [|? st]; try discriminate H). reflexivity.
Qed.

Lemma rounds_length (kws : list (Z * Z)) (st : list Z) :
  length st = 8%nat -> length (fold_left Sha256.round kws st) = 8%nat.
Proof.
  revert st. induction kws as [|kw kws IH]; intros st H; [done|].
  simpl. apply IH. by apply round_length.
Qed.

Lemma compress_length (h block : list Z) :
  length h = 8%nat -> length (Sha256.compress h block) = 8%nat.
Proof.
  intros H. unfold Sha256.compress.
  rewrite length_map, length_combine, rounds_length by done. lia.
Qed.

Lemma blocks_length (n : nat) (h bs : list Z) :
  length h = 8%nat -> length (Sha256.blocks n h bs) = 8%nat.
Proof.
  revert h bs. induction n as [|n IH]; intros h bs H; [done|].
  simpl. apply IH. by apply compress_length.
Qed.

Lemma sha256_length (msg : list Z) : length (Sha256.sha256 msg) = 32%nat.
Proof.
  unfold Sha256.sha256.
  pose proof (blocks_length (length (Sha256.pad msg) / 64) Sha256.H0 (Sha256.pad msg) eq_refl)
    as H.
  set (hs := Sha256.blocks _ _ _) in *. clearbody hs.
  do 9 (destruct hs as [|? hs]; try discriminate H). reflexivity.
Qed.

Lemma hmac_sha256_length (key data : list byte) :
  length (Sha256.hmac_sha256 key data) = 32%nat.
Proof. unfold Sha256.hmac_sha256, Sha256.hmac. by rewrite length_map, sha256_length. Qed.

(** ** The session codec *)

Lemma split_chars_plain (sep : ascii) (cur cs : list ascii) :
  Forall (fun c => Ascii.eqb c sep = false) cs ->
  split_chars sep cur cs = [string_of_list_ascii (rev cur ++ cs)].
Proof.
  revert cur. induction cs as [|c cs IH]; intros cur H.
  - by rewrite app_nil_r.
  - apply Forall_cons in H as [Hc H]. simpl. rewrite Hc, IH by done.
    simpl. by rewrite <- app_assoc.
Qed.

Lemma split_chars_at (sep : ascii) (cur cs1 cs2 : list ascii) :
  Forall (fun c => Ascii.eqb c sep = false) cs1 ->
  split_chars sep cur (cs1 ++ sep :: cs2)
  = string_of_list_ascii (rev cur ++ cs1) :: split_chars sep [] cs2.
Proof.
  revert cur. induction cs1 as [|c cs1 IH]; intros cur H.
  - simpl. by rewrite Ascii.eqb_refl, app_nil_r.
  - apply Forall_cons in H as [Hc H]. simpl. rewrite Hc, IH by done.
    simpl. by rewrite <- app_assoc.
Qed.

Lemma split_token (data signature : list byte) :
  split "." (Session.base64UrlEncode data +:+ "." +:+ Session.base64UrlEncode signature)
  = [Session.base64UrlEncode data; Session.base64UrlEncode signature].
Proof.
  unfold split. rewrite !base64UrlEncode_chars, !list_ascii_of_string_app.
  rewrite !list_ascii_of_string_of_list_ascii. simpl.
  rewrite split_chars_at by apply url_chars_no_dot.
  by rewrite split_chars_plain by apply url_chars_no_dot.
Qed.

Lemma str_truthy_encoded (data : list byte) :
  data <> [] -> str_truthy (Some (Session.base64UrlEncode data)) = true.
Proof.
  intros H. apply str_truthy_Some. rewrite base64UrlEncode_chars.
  pose proof (url_chars_nonempty data H) as Hne.
  destruct (url_chars data); [done|]. simpl. discriminate.
Qed.

Section SessionFacts.
Context {P : Platform}.
Import Session.

Lemma getKey_configured (env : gmap string string) (secret : string) (keyPromise : KeyCache) :
  env !! "SESSION_SECRET" = Some secret ->
  (32 <= String.length secret)%nat ->
  keyPromise = None \/ keyPromise = Some (utf8_encode secret) ->
  getKey env keyPromise = (Ok (utf8_encode secret), Some (utf8_encode secret)).
Proof.
  intros Henv Hlen [-> | ->]; [|done].
  unfold getKey, getSessionSecret, Env.requireEnv, Env.getEnv. rewrite Henv.
  assert (String.eqb secret "" = false) as ->.
  { apply String.eqb_neq. intros ->. simpl in Hlen. lia. }
  simpl. by rewrite (proj2 (Nat.ltb_ge _ _) Hlen).
Qed.

(** [parseSessionValue] never throws, and what it accepts has passed the
    HMAC check. *)
Lemma parseSessionValue_accepts (env : gmap string string) (secret : string)
    (keyPromise : KeyCache) (value : option string) :
  env !! "SESSION_SECRET" = Some secret ->
  (32 <= String.length secret)%nat ->
  keyPromise = None \/ keyPromise = Some (utf8_encode secret) ->
  exists outcome cache,
    parseSessionValue env keyPromise value = (Ok outcome, cache)
    /\ forall accepted,
         outcome = Some accepted ->
         exists text encodedData signature rest dataBytes,
           value = Some text
           /\ split "." text = encodedData :: signature :: rest
           /\ base64UrlDecode encodedData = Ok dataBytes
           /\ base64UrlDecode signature
              = Ok (Sha256.hmac_sha256 (utf8_encode secret) dataBytes)
           /\ JSON_parse (utf8_decode dataBytes) = Ok accepted.
Proof.
  intros Henv Hlen Hcache. unfold parseSessionValue.
  destruct (negb (str_truthy value)) eqn:Hvalue; [by eexists _, _|].
  destruct value as [text|]; [|done]. cbn [default from_option id].
  destruct (split "." text) as [|encodedData [|signature rest]] eqn:Hsplit;
    cbn [lookup list_lookup].
  { by eexists _, _. }
  { change (str_truthy None) with false. cbn [negb]. rewrite orb_true_r.
    by eexists _, _. }
  destruct (negb (str_truthy (Some encodedData)) || negb (str_truthy (Some signature)));
    [by eexists _, _|].
  cbn [default from_option id]. unfold parse_checked.
  destruct (base64UrlDecode encodedData) as [dataBytes|e] eqn:Hdata; [|by eexists _, _].
  destruct (base64UrlDecode signature) as [signatureBytes|e] eqn:Hsig; [|by eexists _, _].
  rewrite (getKey_configured env secret keyPromise Henv Hlen Hcache).
  unfold verify.
  destruct (bool_decide (Sha256.hmac_sha256 (utf8_encode secret) dataBytes = signatureBytes))
    eqn:Hmac; cbn [negb]; [|by eexists _, _].
  apply bool_decide_eq_true_1 in Hmac. subst signatureBytes.
  destruct (JSON_parse (utf8_decode dataBytes)) as [payload|e] eqn:Hparse; [|by eexists _, _].
  eexists _, _. split; [reflexivity|]. intros accepted [= <-].
  by exists text, encodedData, signature, rest, dataBytes.
Qed.

End SessionFacts.

Lemma append_dot_nonempty (a b : string) : String.eqb (a +:+ "." +:+ b) "" = false.
Proof. by destruct a. Qed.

Section Codec.
Context {P : Platform}.
Import Session.

(** C2, as the code has it. With a secret of at least 32 characters, the
    token that [createSessionValue] makes for an identity is parsed back to
    the payload it was made from, whose [sub] is that of the identity
    (given that the platform's text and JSON primitives take the payload
    there and back). [parseSessionValue] never throws, whatever its
    argument, and accepts only a value whose first two dot-separated
    segments decode to bytes and to the HMAC of those bytes; this holds in
    particular for a token with one bit flipped, which is therefore refused
    unless its segments still decode to such a pair. *)
Theorem session_round_trip (env : gmap string string) (secret : string)
    (keyPromise : KeyCache) (identity : SessionIdentity) (now : Z) :
  let payload := SessionPayload identity now in
  let data := utf8_encode (JSON_stringify payload) in
  let key := utf8_encode secret in
  env !! "SESSION_SECRET" = Some secret ->
  (32 <= String.length secret)%nat ->
  keyPromise = None \/ keyPromise = Some key ->
  data <> [] ->
  JSON_parse (utf8_decode data) = Ok payload ->
  (exists token,
      createSessionValue env keyPromise now identity = (Ok token, Some key)
      /\ parseSessionValue env (Some key) (Some token) = (Ok (Some payload), Some key)
      /\ get_field "sub" payload = Some (JStr (sub identity)))
  /\ (forall value,
        exists outcome cache,
          parseSessionValue env keyPromise value = (Ok outcome, cache)
          /\ forall accepted,
               outcome = Some accepted ->
               exists text encodedData signature rest dataBytes,
                 value = Some text
                 /\ split "." text = encodedData :: signature :: rest
                 /\ base64UrlDecode encodedData = Ok dataBytes
                 /\ base64UrlDecode signature = Ok (Sha256.hmac_sha256 key dataBytes)
                 /\ JSON_parse (utf8_decode dataBytes) = Ok accepted)
  /\ (forall token cache index bit,
        createSessionValue env keyPromise now identity = (Ok token, cache) ->
        exists outcome,
          parseSessionValue env cache (Some (flip_bit index bit token)) = (Ok outcome, cache)
          /\ forall accepted,
               outcome = Some accepted ->
               exists encodedData signature rest dataBytes,
                 split "." (flip_bit index bit token) = encodedData :: signature :: rest
                 /\ base64UrlDecode encodedData = Ok dataBytes
                 /\ base64UrlDecode signature = Ok (Sha256.hmac_sha256 key dataBytes)).
Proof.
  intros payload data key Henv Hlen Hcache Hdata Hparse.
  pose proof (getKey_configured env secret keyPromise Henv Hlen Hcache) as Hkey.
  pose proof (getKey_configured env secret (Some key) Henv Hlen (or_intror eq_refl)) as Hkey'.
  assert (createSessionValue env keyPromise now identity
          = (Ok (base64UrlEncode data +:+ "."
                 +:+ base64UrlEncode (Sha256.hmac_sha256 key data)), Some key)) as Hcreate.
  { unfold createSessionValue. fold payload. fold data. by rewrite Hkey. }
  split; [|split].
  - eexists. split; [exact Hcreate|]. split; [|done].
    unfold parseSessionValue. cbn [str_truthy negb default from_option id].
    rewrite append_dot_nonempty.
    cbn [negb]. rewrite split_token. cbn [lookup list_lookup].
    rewrite (str_truthy_encoded data Hdata).
    rewrite str_truthy_encoded.
    2:{ intros Hnil. apply (f_equal length) in Hnil.
        rewrite hmac_sha256_length in Hnil. discriminate Hnil. }
    cbn [negb orb default from_option id]. unfold parse_checked.
    rewrite !base64Url_roundtrip, Hkey'. unfold verify.
    rewrite bool_decide_eq_true_2 by done. cbn [negb]. by rewrite Hparse.
  - intros value. by apply parseSessionValue_accepts.
  - intros token cache index bit Hc. rewrite Hcreate in Hc. injection Hc as <- <-.
    destruct (parseSessionValue_accepts env secret (Some key)
                (Some (flip_bit index bit
                         (base64UrlEncode data +:+ "."
                          +:+ base64UrlEncode (Sha256.hmac_sha256 key data)))) Henv Hlen)
      as (outcome & cache & Hrun & Hacc); [by right|].
    assert (cache = Some key) as ->.
    { unfold parseSessionValue, parse_checked in Hrun. rewrite Hkey' in Hrun.
      by repeat case_match; simplify_eq. }
    exists outcome. split; [done|]. intros accepted Ho.
    destruct (Hacc accepted Ho) as (text & e & s & rest & d & [= <-] & ? & ? & ? & _).
    by exists e, s, rest, d.
Qed.

End Codec.

Lemma session_round_trip_witness :
  exists token,
    @Session.createSessionValue Reference.platform Fixture.session_env None 1700000000000
      Fixture.session_identity
      = (Ok token, Some (Reference.encode "0123456789abcdef0123456789abcdef"))
    /\ token = Fixture.session_token
    /\ @Session.parseSessionValue Reference.platform Fixture.session_env
         (Some (Reference.encode "0123456789abcdef0123456789abcdef")) (Some token)
       = (Ok (Some (Session.SessionPayload Fixture.session_identity 1700000000000)),
          Some (Reference.encode "0123456789abcdef0123456789abcdef")).
Proof.
  destruct (@session_round_trip Reference.platform Fixture.session_env
              "0123456789abcdef0123456789abcdef" None Fixture.session_identity 1700000000000)
    as ((token & Hcreate & Hparse & _) & _).
  - reflexivity.
  - vm_compute. lia.
  - by left.
  - vm_compute. discriminate.
  - vm_compute. reflexivity.
  - exists token. split; [exact Hcreate|]. split; [|exact Hparse].
    vm_compute in Hcreate. by injection Hcreate as <-.
Defined.

(** C2 as stated fails: flipping bit 1 of the last character of the payload
    segment of a valid token (a [Q] that becomes an [S]) changes only bits
    that [atob] drops, and the flipped token is accepted with the same
    payload. *)
Lemma flipped_token_accepted :
  fst (@Session.createSessionValue Reference.platform Fixture.session_env None 1700000000000
         Fixture.session_identity) = Ok Fixture.session_token
  /\ flip_bit 49 1 Fixture.session_token <> Fixture.session_token
  /\ flip_bit 49 1 Fixture.session_token
     = "eyJzdWIiOiJ1MSIsImlzc3VlZEF0IjoxNzAwMDAwMDAwMDAwfS.nFenOshPJYNf8CJkjq6Ia3KQy890ruf0721b_sr045M"
  /\ fst (@Session.parseSessionValue Reference.platform Fixture.session_env None
            (Some (flip_bit 49 1 Fixture.session_token)))
     = Ok (Some (Session.SessionPayload Fixture.session_identity 1700000000000)).
Proof.
  split; [vm_compute; reflexivity|]. split; [vm_compute; discriminate|].
  split; vm_compute; reflexivity.
Qed.

(** ** The Access token verifier *)

Section Trimming.
Import Access.

(** [trim] takes the white space off the two ends of a text, and nothing
    else. *)
Lemma trim_start_spec (cs : list ascii) :
  exists leading,
    cs = leading ++ trim_start cs
    /\ Forall (fun c => is_js_whitespace c = true) leading
    /\ (forall c, head (trim_start cs) = Some c -> is_js_whitespace c = false).
Proof.
  induction cs as [|c cs (leading & Hcs & Hall & Hhead)]; simpl.
  - exists []. by repeat split.
  - destruct (is_js_whitespace c) eqn:Hc.
    + exists (c :: leading). simpl. split; [by rewrite <- Hcs|]. split; [by constructor|done].
    + exists []. split; [done|]. split; [constructor|]. by intros ? [= <-].
Qed.

Lemma trim_start_blank (cs : list ascii) :
  Forall (fun c => is_js_whitespace c = true) cs -> trim_start cs = [].
Proof. induction 1 as [|c cs Hc _ IH]; [done|]. simpl. by rewrite Hc. Qed.

Lemma string_of_list_ascii_app (l1 l2 : list ascii) :
  string_of_list_ascii (l1 ++ l2) = string_of_list_ascii l1 +:+ string_of_list_ascii l2.
Proof. induction l1 as [|c l1 IH]; [done|]. simpl. by rewrite IH. Qed.

Lemma last_rev_head {A} (l : list A) : last (rev l) = head l.
Proof. destruct l as [|a l]; [done|]. simpl. apply last_snoc. Qed.

Lemma trim_spec (s : string) :
  trims_to s (trim s) /\ (trim s = "" <-> blank s).
Proof.
  unfold trim, trims_to, blank.
  destruct (trim_start_spec (list_ascii_of_string s)) as (leading & Hs & Hleading & Hhead).
  set (a := trim_start (list_ascii_of_string s)) in *.
  destruct (trim_start_spec (rev a)) as (trailing & Ha & Htrailing & Hlast).
  set (m := trim_start (rev a)) in *.
  assert (a = rev m ++ rev trailing) as Ha'.
  { rewrite <- rev_app_distr, <- Ha. by rewrite rev_involutive. }
  split.
  - exists (string_of_list_ascii leading), (string_of_list_ascii (rev trailing)).
    rewrite !list_ascii_of_string_of_list_ascii.
    split; [|split; [done|split; [|split]]].
    + rewrite <- !string_of_list_ascii_app, <- Ha', <- Hs.
      by rewrite string_of_list_ascii_of_string.
    + by apply Forall_rev.
    + intros c Hc. apply Hhead. rewrite Ha'. by destruct (rev m).
    + intros c Hc. apply Hlast. rewrite last_rev_head in Hc. exact Hc.
  - split.
    + intros Hempty. apply (f_equal list_ascii_of_string) in Hempty.
      rewrite list_ascii_of_string_of_list_ascii in Hempty. simpl in Hempty.
      rewrite Hs, Ha', Hempty. simpl. apply Forall_app. split; [done|]. by apply Forall_rev.
    + intros Hblank. unfold m, a. rewrite (trim_start_blank _ Hblank). done.
Qed.

End Trimming.

Section AccessFacts.
Context {J : Access.Jose}.
Import Access.

(** What [verifyAccessToken] answers, by what is left of the token once
    trimmed. *)
Lemma verifyAccessToken_by_trim (env : gmap string string) (st : State) (token : string) :
  jose_checks_audience ->
  exists result st',
    verifyAccessToken env st token = (Ok result, st')
    /\ (trim token = "" -> result = unauthorized)
    /\ (trim token <> "" ->
        result <> unauthorized
        /\ forall cause,
             verification_failure env st (trim token) cause <-> result = error cause)
    /\ (forall identity,
          result = success identity ->
          exists config st1 payload,
            resolveAccessConfig env st = (Ok config, st1)
            /\ decodeJwt (trim token) = Some payload
            /\ audience config ∈ claim_aud payload)
    /\ ((forall config st1 payload,
            resolveAccessConfig env st = (Ok config, st1) ->
            decodeJwt (trim token) = Some payload ->
            audience config ∉ claim_aud payload) ->
        forall identity, result <> success identity).
Proof.
  intros Hjose. unfold verifyAccessToken.
  destruct (String.eqb (trim token) "") eqn:Htrim.
  { apply String.eqb_eq in Htrim. exists unauthorized, st. split; [done|].
    split; [done|]. split; [done|]. split; [by intros ? [=]|by intros _ ? [=]]. }
  apply String.eqb_neq in Htrim.
  unfold verify_checked.
  destruct (resolveAccessConfig env st) as [[config|e] st1] eqn:Hconfig.
  2:{ exists (error e), st1. split; [done|]. split; [done|]. split.
      - intros _. split; [done|]. intros cause. split.
        + intros Hfail. destruct Hfail; congruence.
        + intros [= <-]. by eapply config_unresolved.
      - split; [by intros ? [=]|by intros _ ? [=]]. }
  destruct (getJwks (certsUrl config) st1) as [[jwks|e] st2] eqn:Hjwks.
  2:{ exists (error e), st2. split; [done|]. split; [done|]. split.
      - intros _. split; [done|]. intros cause. split.
        + intros Hfail. destruct Hfail; congruence.
        + intros [= <-]. by eapply keys_unavailable.
      - split; [by intros ? [=]|by intros _ ? [=]]. }
  destruct (jwtVerify (trim token) jwks (verify_options config)) as [[payload header]|e]
    eqn:Hverify.
  2:{ exists (error e), st2. split; [done|]. split; [done|]. split.
      - intros _. split; [done|]. intros cause. split.
        + intros Hfail. destruct Hfail; congruence.
        + intros [= <-]. by eapply token_rejected.
      - split; [by intros ? [=]|by intros _ ? [=]]. }
  destruct (Hjose _ _ _ _ _ Hverify) as [Hdecode Haud].
  destruct (str_truthy (algorithm config)
            && negb (String.eqb (alg header) (default "" (algorithm config)))) eqn:Halg.
  - exists (error (ThrownError "Unexpected Access token algorithm")), st2.
    split; [done|]. split; [done|]. split.
    + intros _. split; [done|]. intros cause. split.
      * intros Hfail. destruct Hfail; congruence.
      * intros [= <-]. apply andb_true_iff in Halg as [Hpin Hne].
        destruct (algorithm config) as [pinned|] eqn:Hp; [|done].
        eapply (algorithm_mismatch _ _ _ config st1 st2 jwks payload header pinned);
          try done.
        -- intros ->. done.
        -- intros Heq. simpl in Hne. rewrite Heq, String.eqb_refl in Hne. done.
    + split; [by intros ? [=]|by intros _ ? [=]].
  - eexists (success _), st2. split; [done|]. split; [done|]. split.
    + intros _. split; [done|]. intros cause. split; [|done].
      intros Hfail. destruct Hfail as [| | |config' st1' st2' jwks' payload' header' pinned
                                            Hc Hj Hv Hp Hpne Hne]; try congruence.
      rewrite Hconfig in Hc. injection Hc as <- <-.
      rewrite Hjwks in Hj. injection Hj as <- <-.
      rewrite Hverify in Hv. injection Hv as <- <-.
      rewrite Hp in Halg. rewrite (str_truthy_Some _ Hpne) in Halg. simpl in Halg.
      apply negb_false_iff, String.eqb_eq in Halg. done.
    + split.
      * intros identity _. exists config, st1, payload. by repeat split.
      * intros Hwrong identity _. by eapply Hwrong.
Qed.

(** C6. [verifyAccessToken] never throws. It verifies the token without the
    white space at its two ends. A token that is empty or made of white
    space only gives [unauthorized]. Any other token gives [success] or
    [error], never [unauthorized]; it gives [error] with a cause exactly
    when the verification fails with that cause (configuration, key set,
    rejection by [jwtVerify], algorithm mismatch). As [jwtVerify] checks
    the audience, [success] is given only for a token whose [aud] claim
    contains the configured audience. *)
Theorem verifyAccessToken_results (env : gmap string string) (st : State) (token : string) :
  jose_checks_audience ->
  exists result st',
    verifyAccessToken env st token = (Ok result, st')
    /\ trims_to token (trim token)
    /\ (blank token -> result = unauthorized)
    /\ (~ blank token ->
        result <> unauthorized
        /\ forall cause,
             verification_failure env st (trim token) cause <-> result = error cause)
    /\ (forall identity,
          result = success identity ->
          exists config st1 payload,
            resolveAccessConfig env st = (Ok config, st1)
            /\ decodeJwt (trim token) = Some payload
            /\ audience config ∈ claim_aud payload)
    /\ ((forall config st1 payload,
            resolveAccessConfig env st = (Ok config, st1) ->
            decodeJwt (trim token) = Some payload ->
            audience config ∉ claim_aud payload) ->
        forall identity, result <> success identity).
Proof.
  intros Hjose.
  destruct (verifyAccessToken_by_trim env st token Hjose)
    as (result & st' & Hrun & Hempty & Hrest & Hsuccess & Hwrong).
  destruct (trim_spec token) as [Htrims Hblank].
  exists result, st'. split; [done|]. split; [done|].
  split; [by intros ?%Hblank%Hempty|].
  split; [|done]. intros Hnot. apply Hrest. by intros ?%Hblank.
Qed.

End AccessFacts.

Lemma fixture_jose_checks_audience : @Access.jose_checks_audience Fixture.jose.
Proof.
  intros token jwks options payload header H. simpl in H. simpl.
  destruct (Fixture.token_claims token) as [claims|]; [|done].
  destruct (bool_decide _) eqn:Haud; [|done].
  injection H as <- <-. split; [done|]. by apply bool_decide_eq_true_1 in Haud.
Qed.

Lemma verifyAccessToken_results_witness :
  (exists st',
      @Access.verifyAccessToken Fixture.jose Fixture.access_env Fixture.access_start
        "token-for-aud-2"
      = (Ok (Access.error (ThrownError "unexpected aud claim value")), st'))
  /\ (exists st',
        @Access.verifyAccessToken Fixture.jose Fixture.access_env Fixture.access_start
          (String "009" "  ")
        = (Ok Access.unauthorized, st')).
Proof.
  split.
  - destruct (@verifyAccessToken_results Fixture.jose Fixture.access_env
                Fixture.access_start "token-for-aud-2" fixture_jose_checks_audience)
      as (result & st' & Hrun & _).
    exists st'. rewrite Hrun. vm_compute in Hrun. injection Hrun as <- _. reflexivity.
  - destruct (@verifyAccessToken_results Fixture.jose Fixture.access_env
                Fixture.access_start (String "009" "  ") fixture_jose_checks_audience)
      as (result & st' & Hrun & _ & Hblank & _).
    exists st'. rewrite Hrun, Hblank; [done|].
    unfold Access.blank. repeat constructor.
Defined.

(** ** Text *)

Lemma prefix_append (s t : string) : String.prefix s (s +:+ t) = true.
Proof.
  induction s as [|c s IH]; simpl; [by destruct t|].
  destruct (ascii_dec c c); [done|congruence].
Qed.

Lemma prefix_inv (s p : string) :
  String.prefix s p = true -> exists t, p = s +:+ t.
Proof.
  revert p. induction s as [|c s IH]; intros p H; [by exists p|].
  destruct p as [|d p]; [done|]. simpl in H.
  destruct (ascii_dec c d) as [->|]; [|done].
  destruct (IH p H) as [t ->]. by exists t.
Qed.

Lemma length_append (s t : string) :
  String.length (s +:+ t) = (String.length s + String.length t)%nat.
Proof. induction s as [|c s IH]; [done|]. simpl. by rewrite IH. Qed.

Lemma substring_append_left (s t : string) :
  substring 0 (String.length s) (s +:+ t) = s.
Proof. induction s as [|c s IH]; simpl; [by destruct t|]. by rewrite IH. Qed.

Lemma substring_whole (t : string) : substring 0 (String.length t) t = t.
Proof. induction t as [|d t IH]; [done|]. simpl. by rewrite IH. Qed.

Lemma substring_append_right (s t : string) :
  substring (String.length s) (String.length t) (s +:+ t) = t.
Proof. induction s as [|c s IH]; simpl; [apply substring_whole|done]. Qed.

Lemma replace_suffix_append (suffix replacement s : string) :
  Access.replace_suffix suffix replacement (s +:+ suffix) = s +:+ replacement.
Proof.
  unfold Access.replace_suffix. rewrite length_append.
  replace (String.length s + String.length suffix - String.length suffix)%nat
    with (String.length s) by lia.
  rewrite substring_append_right, substring_append_left, String.eqb_refl.
  rewrite (proj2 (Nat.leb_le _ _)) by lia. done.
Qed.

(** ** The flags *)

Section Flags.
Import Env EnvFlags JsString.

(** X1. [shouldBypassSession] reads its variable as [getBooleanEnv] would with
    the default [false], except that it does not take [on], in any letter
    case, for a yes. *)
Theorem shouldBypassSession_vs_getBooleanEnv (env : gmap string string) :
  (shouldBypassSession env = true <->
     getBooleanEnv env "DEV_AUTH_BYPASS_SESSION" false = true
     /\ forall value, env !! "DEV_AUTH_BYPASS_SESSION" = Some value ->
                      toLowerCase value <> "on")
  /\ (forall defaultValue value,
        env !! "DEV_AUTH_BYPASS_SESSION" = Some value ->
        toLowerCase value = "on" ->
        getBooleanEnv env "DEV_AUTH_BYPASS_SESSION" defaultValue = true
        /\ shouldBypassSession env = false).
Proof.
  unfold shouldBypassSession, getBooleanEnv, getEnv, includes. split.
  - destruct (env !! "DEV_AUTH_BYPASS_SESSION") as [value|]; [|by split; [|intros []]].
    rewrite !bool_decide_eq_true, !elem_of_cons, !elem_of_nil. split.
    + intros Hin. split; [tauto|].
      intros v [= <-] Hon. rewrite Hon in Hin. by destruct Hin as [?|[?|[?|[]]]].
    + intros [Hin Hon]. specialize (Hon value eq_refl). tauto.
  - intros defaultValue value -> ->. split; [done|].
    apply bool_decide_eq_false. rewrite !elem_of_cons, !elem_of_nil.
    by intros [?|[?|[?|[]]]].
Qed.

End Flags.

(** ** The Access configuration and the login URL *)

Section AccessConfig.
Context {J : Access.Jose}.
Import Env Access AccessLogin.

Lemma resolveAccessConfig_cached (env : gmap string string) (st : State)
    (config : AccessConfig) :
  cachedConfig st = Some config -> resolveAccessConfig env st = (Ok config, st).
Proof. intros H. unfold resolveAccessConfig. by rewrite H. Qed.

Lemma resolveAccessConfig_caches (env : gmap string string) (st st1 : State)
    (config : AccessConfig) :
  resolveAccessConfig env st = (Ok config, st1) ->
  cachedConfig st1 = Some config /\ cachedJwks st1 = cachedJwks st.
Proof.
  unfold resolveAccessConfig. intros H.
  destruct (cachedConfig st) as [cached|] eqn:Hc; [by simplify_eq|].
  destruct (requireEnv env "CF_ACCESS_AUD"); [|done].
  destruct (derive_certsUrl env); [|done]. by simplify_eq.
Qed.

Lemma resolveAccessConfig_fails (env : gmap string string) (st st1 : State) (e : Thrown) :
  resolveAccessConfig env st = (Throw e, st1) -> st1 = st /\ cachedConfig st = None.
Proof.
  unfold resolveAccessConfig. intros H.
  destruct (cachedConfig st) as [cached|] eqn:Hc; [done|].
  destruct (requireEnv env "CF_ACCESS_AUD"); [|by simplify_eq].
  destruct (derive_certsUrl env); [done|by simplify_eq].
Qed.

(** X2. Once the configuration has been resolved it is kept: the variables of
    the environment are not read again, so that a later change of the
    audience, of the team domain or of the login URL has no effect on the
    verification of tokens or on the login URL. A resolution that fails
    leaves nothing behind and is tried again by the next call. *)
Theorem access_config_is_resolved_once (env : gmap string string) (st st1 : State)
    (outcome : Result AccessConfig) :
  resolveAccessConfig env st = (outcome, st1) ->
  match outcome with
  | Ok config =>
      cachedConfig st1 = Some config
      /\ forall env',
           resolveAccessConfig env' st1 = (Ok config, st1)
           /\ getAccessLoginUrl env' st1 = (Ok (loginUrl config), st1)
           /\ forall token, verifyAccessToken env' st1 token = verifyAccessToken env st1 token
  | Throw _ => st1 = st
  end.
Proof.
  intros H. destruct outcome as [config|e]; [|by apply resolveAccessConfig_fails in H as [? _]].
  apply resolveAccessConfig_caches in H as [Hc _]. split; [done|].
  intros env'. split; [by apply resolveAccessConfig_cached|]. split.
  - unfold getAccessLoginUrl. by rewrite (resolveAccessConfig_cached _ _ _ Hc).
  - intros token. unfold verifyAccessToken, verify_checked.
    by rewrite !(resolveAccessConfig_cached _ _ _ Hc).
Qed.

(** X3. Without [CF_ACCESS_CERTS_URL] and [CF_ACCESS_LOGIN_URL], the login URL
    is derived from the team domain: the domain, with [https://] before it
    unless it begins with [http], without one closing slash, followed by
    [/cdn-cgi/access/login]; the certificates are fetched from the same
    base followed by [/cdn-cgi/access/certs]. *)
Theorem login_url_from_team_domain (env : gmap string string) (st : State)
    (aud domain : string) :
  let base :=
    replace_suffix "/" ""
      (if String.prefix "http" domain then domain else "https://" +:+ domain) in
  cachedConfig st = None ->
  env !! "CF_ACCESS_AUD" = Some aud -> aud <> "" ->
  env !! "CF_ACCESS_TEAM_DOMAIN" = Some domain -> domain <> "" ->
  env !! "CF_ACCESS_CERTS_URL" = None ->
  env !! "CF_ACCESS_LOGIN_URL" = None ->
  exists st',
    getAccessLoginUrl env st = (Ok (base +:+ "/cdn-cgi/access/login"), st')
    /\ cachedConfig st'
       = Some {| audience := aud; certsUrl := base +:+ "/cdn-cgi/access/certs";
                 loginUrl := base +:+ "/cdn-cgi/access/login";
                 algorithm := env !! "CF_ACCESS_JWT_ALG" |}.
Proof.
  intros base Hcache Haud Haudne Hdomain Hdomainne Hcerts Hlogin.
  unfold getAccessLoginUrl, resolveAccessConfig, derive_certsUrl, requireEnv, getEnv.
  rewrite Hcache, Haud, Hcerts, Hdomain, Hlogin.
  rewrite (proj2 (String.eqb_neq _ _) Haudne). rewrite (str_truthy_Some _ Hdomainne).
  cbn [negb default from_option id]. fold base.
  rewrite replace_suffix_append. by eexists.
Qed.

End AccessConfig.

Lemma access_config_is_resolved_once_witness :
  exists config st1,
    @Access.resolveAccessConfig Fixture.jose Fixture.access_env Fixture.access_start
      = (Ok config, st1)
    /\ forall env',
         @AccessLogin.getAccessLoginUrl Fixture.jose env' st1
           = (Ok (Access.loginUrl config), st1)
         /\ @Access.verifyAccessToken Fixture.jose env' st1 "token-for-aud-1"
            = @Access.verifyAccessToken Fixture.jose Fixture.access_env st1 "token-for-aud-1".
Proof.
  destruct (@Access.resolveAccessConfig Fixture.jose Fixture.access_env Fixture.access_start)
    as [[config|e] st1] eqn:Hrun.
  - exists config, st1. split; [reflexivity|]. intros env'.
    destruct (@access_config_is_resolved_once Fixture.jose _ _ _ _ Hrun) as [_ H].
    destruct (H env') as (_ & Hlogin & Hverify). split; [exact Hlogin|apply Hverify].
  - vm_compute in Hrun. discriminate Hrun.
Defined.

Lemma login_url_from_team_domain_witness :
  exists st',
    @AccessLogin.getAccessLoginUrl Fixture.jose
      {[ "CF_ACCESS_AUD" := "aud-1"; "CF_ACCESS_TEAM_DOMAIN" := "team.example/" ]}
      Fixture.access_start
    = (Ok "https://team.example/cdn-cgi/access/login", st').
Proof.
  destruct (@login_url_from_team_domain Fixture.jose
              {[ "CF_ACCESS_AUD" := "aud-1"; "CF_ACCESS_TEAM_DOMAIN" := "team.example/" ]}
              Fixture.access_start "aud-1" "team.example/")
    as (st' & Hrun & _); try (vm_compute; (reflexivity || discriminate)).
  by exists st'.
Defined.

(** ** The middleware *)

Lemma searchParams_set_named (name value : string) (params : list (string * string)) :
  List.filter (fun kv => String.eqb (fst kv) name) (Http.searchParams_set name value params)
    = [(name, value)]
  /\ List.filter (fun kv => negb (String.eqb (fst kv) name))
       (Http.searchParams_set name value params)
     = List.filter (fun kv => negb (String.eqb (fst kv) name)) params.
Proof.
  induction params as [|[k v] rest [IH1 IH2]]; simpl.
  - by rewrite String.eqb_refl.
  - destruct (String.eqb k name) eqn:Hk; simpl; rewrite Hk; simpl.
    + apply String.eqb_eq in Hk as ->. split.
      * f_equal. apply filter_none. rewrite Forall_forall. intros kv Hin.
        apply list_elem_of_In, filter_In in Hin as [_ Hin].
        by apply negb_true_iff in Hin.
      * apply filter_all. rewrite Forall_forall. intros kv Hin.
        by apply list_elem_of_In, filter_In in Hin as [_ Hin].
    + by rewrite IH1, IH2.
Qed.

Section MiddlewareFacts.
Context {P : Platform} {J : Access.Jose} (new_URL : string -> Result Http.URL).
Import Env EnvFlags Http Access AccessLogin Middleware.

Lemma verifyAccessToken_returns (env : gmap string string) (st : Access.State)
    (token : string) :
  exists result st', verifyAccessToken env st token = (Ok result, st').
Proof.
  unfold verifyAccessToken. destruct (String.eqb (trim token) ""); [by eexists _, _|].
  destruct (verify_checked env st (trim token)) as [[r|e] st']; by eexists _, _.
Qed.




(** X4. OPTIONS requests and public paths are passed on as they came: the
    token is not looked at, no header is written, no cookie is set, and the
    state of the modules is left alone. A path is public when it is one of
    the two health paths or begins with a slash and one of the static
    names; nothing need follow the name, and anything may, so that
    [/publicity] or [/_nextfoo] are public too. *)
Theorem middleware_passes_public (env : gmap string string) (now : Z) (st : State)
    (request : NextRequest) :
  method request = "OPTIONS"
  \/ pathname request ∈ PUBLIC_PATHS
  \/ (exists static rest,
        static ∈ STATIC_PATH_PREFIXES
        /\ pathname request = "/" +:+ static +:+ rest) ->
  middleware new_URL env now st request = (Ok (next None []), st).
Proof.
  intros H. unfold middleware.
  destruct (String.eqb (method request) "OPTIONS") eqn:Hm; [done|].
  destruct H as [H|H]; [apply String.eqb_neq in Hm; by destruct Hm|].
  assert (isPublicPath (pathname request) = true) as ->; [|done].
  unfold isPublicPath, JsString.includes. apply orb_true_iff.
  destruct H as [H|(static & rest & Hin & ->)]; [left; by apply bool_decide_eq_true|].
  right. unfold STATIC_PATH_REGEX_test. apply existsb_exists. exists static.
  split; [by apply list_elem_of_In|].
  change ("/" +:+ static +:+ rest) with (String "/" (static +:+ rest)).
  change ("/" +:+ static) with (String "/" static). simpl.
  destruct (ascii_dec "/" "/"); [|done]. apply prefix_append.
Qed.


(** X6. In production, a request for a protected path whose token is missing
    or is not verified is answered with a redirect to the login URL of
    Access. The redirect carries the URL of the request as its one
    [redirect_url] parameter; the other parameters of the login URL, what
    precedes them and the fragment are kept. *)
Theorem middleware_redirects_to_login (env : gmap string string) (now : Z) (st : State)
    (request : NextRequest) (result : AccessVerificationResult) (a a' : Access.State)
    (login : string) (loginUrl : URL) :
  let presented :=
    default (default "" (Http.cookies request !! "CF_Authorization"))
      (get (headers request) "cf-access-jwt-assertion") in
  method request <> "OPTIONS" ->
  isPublicPath (pathname request) = false ->
  isDev env = false ->
  verifyAccessToken env (access st) presented = (Ok result, a) ->
  (forall identity, result <> success identity) ->
  getAccessLoginUrl env a = (Ok login, a') ->
  new_URL login = Ok loginUrl ->
  exists url,
    middleware new_URL env now st request
      = (Ok (redirect url), {| access := a'; keyPromise := keyPromise st |})
    /\ url_base url = url_base loginUrl
    /\ url_hash url = url_hash loginUrl
    /\ List.filter (fun kv => String.eqb (fst kv) "redirect_url") (searchParams url)
       = [("redirect_url", href request)]
    /\ List.filter (fun kv => negb (String.eqb (fst kv) "redirect_url")) (searchParams url)
       = List.filter (fun kv => negb (String.eqb (fst kv) "redirect_url"))
           (searchParams loginUrl).
Proof.
  intros presented Hmethod Hpublic Hprod Hverify Hfail Hlogin Hurl.
  eexists. unfold middleware.
  rewrite (proj2 (String.eqb_neq _ _) Hmethod), Hpublic. fold presented. rewrite Hverify.
  assert (buildLoginRedirect new_URL env {| access := a; keyPromise := keyPromise st |}
            request
          = (Ok (redirect
                   {| url_base := url_base loginUrl;
                      searchParams :=
                        searchParams_set "redirect_url" (href request) (searchParams loginUrl);
                      url_hash := url_hash loginUrl |}),
             {| access := a'; keyPromise := keyPromise st |})) as Hredirect.
  { unfold buildLoginRedirect. cbn [access keyPromise]. by rewrite Hlogin, Hurl. }
  split.
  - destruct result as [identity| |]; simpl.
    + by destruct (Hfail identity).
    + exact Hredirect.
    + rewrite Hprod. exact Hredirect.
  - cbn [url_base url_hash searchParams]. split; [done|]. split; [done|].
    apply searchParams_set_named.
Qed.

(** X7. In production, when the configuration of Access cannot be resolved (no
    audience, or neither a certificates URL nor a team domain), a request
    for a protected path is neither handed on nor redirected: the
    middleware throws the error of the configuration, whatever token the
    request carries. *)
Theorem middleware_throws_unconfigured (env : gmap string string) (now : Z) (st : State)
    (request : NextRequest) (e : Thrown) (a : Access.State) :
  method request <> "OPTIONS" ->
  isPublicPath (pathname request) = false ->
  isDev env = false ->
  resolveAccessConfig env (access st) = (Throw e, a) ->
  middleware new_URL env now st request = (Throw e, st).
Proof.
  intros Hmethod Hpublic Hprod Hconfig.
  pose proof (resolveAccessConfig_fails _ _ _ _ Hconfig) as [-> _].
  assert (forall key, buildLoginRedirect new_URL env
                        {| access := access st; keyPromise := key |} request
                      = (Throw e, {| access := access st; keyPromise := key |})) as Hredirect.
  { intros key. unfold buildLoginRedirect, getAccessLoginUrl. cbn [access keyPromise].
    by rewrite Hconfig. }
  unfold middleware.
  rewrite (proj2 (String.eqb_neq _ _) Hmethod), Hpublic.
  unfold verifyAccessToken, verify_checked. rewrite Hconfig.
  destruct st as [acc key]. cbn [access keyPromise] in *.
  destruct (String.eqb _ ""); simpl; [rewrite Hprod|]; apply Hredirect.
Qed.

Lemma signed_value_verifies (env : gmap string string) (secret : string)
    (cache : Session.KeyCache) (payload : Json) :
  let key := utf8_encode secret in
  let data := utf8_encode (JSON_stringify payload) in
  let value :=
    Session.base64UrlEncode data +:+ "."
      +:+ Session.base64UrlEncode (Sha256.hmac_sha256 key data) in
  env !! "SESSION_SECRET" = Some secret ->
  (32 <= String.length secret)%nat ->
  cache = None \/ cache = Some key ->
  signed_value env cache payload = (Ok value, Some key)
  /\ (data <> [] ->
      Session.parseSessionValue env (Some key) (Some value)
      = (match JSON_parse (utf8_decode data) with
         | Ok parsed => Ok (Some parsed)
         | Throw _ => Ok None
         end, Some key)).
Proof.
  intros key data value Henv Hlen Hcache. split.
  - unfold signed_value. fold data. by rewrite (getKey_configured env secret cache).
  - intros Hdata. unfold Session.parseSessionValue.
    cbn [str_truthy negb default from_option id]. unfold value.
    rewrite append_dot_nonempty. cbn [negb]. rewrite split_token.
    cbn [lookup list_lookup].
    rewrite (str_truthy_encoded data Hdata). rewrite str_truthy_encoded.
    2:{ intros Hnil. apply (f_equal length) in Hnil.
        rewrite hmac_sha256_length in Hnil. discriminate Hnil. }
    cbn [negb orb default from_option id]. unfold Session.parse_checked.
    rewrite !base64Url_roundtrip.
    rewrite (getKey_configured env secret (Some key)) by (done || by right).
    unfold Session.verify. rewrite bool_decide_eq_true_2 by done. cbn [negb].
    by destruct (JSON_parse _).
Qed.

Lemma createSessionValue_signed (env : gmap string string) (cache : Session.KeyCache)
    (now : Z) (identity : Session.SessionIdentity) :
  Session.createSessionValue env cache now identity
  = signed_value env cache (Session.SessionPayload identity now).
Proof. reflexivity. Qed.

Lemma createSessionValue_of_signed (env : gmap string string) (cache : Session.KeyCache)
    (now : Z) (identity : AccessIdentity) :
  createSessionValue_of env cache now identity
  = signed_value env cache (session_payload now identity).
Proof.
  unfold createSessionValue_of, session_payload.
  destruct (sub identity); [apply createSessionValue_signed|reflexivity].
Qed.

Lemma getKey_unconfigured (env : gmap string string) :
  (forall secret, env !! "SESSION_SECRET" = Some secret -> (String.length secret < 32)%nat) ->
  Session.getKey env None
  = (Throw (ThrownError
              (if str_truthy (env !! "SESSION_SECRET")
               then "SESSION_SECRET must be at least 32 characters long"
               else "Missing required environment variable: SESSION_SECRET")),
     None).
Proof.
  intros Hshort. unfold Session.getKey, Session.getSessionSecret, requireEnv, getEnv.
  destruct (env !! "SESSION_SECRET") as [secret|] eqn:Hsecret; [|done].
  specialize (Hshort secret eq_refl). simpl.
  destruct (String.eqb secret ""); [done|]. simpl.
  by rewrite (proj2 (Nat.ltb_lt _ _) Hshort).
Qed.

(** X8. What becomes of a request with a verified token, for a protected
    path, once its headers are written. When sessions are bypassed it is
    handed on without a cookie. Otherwise it depends on the session secret.
    With a secret of at least 32 characters (and no key in memory, or the
    key of that secret) it is handed on with the one cookie [yav_session],
    valid for seven days, whose value is a token that [parseSessionValue]
    takes back to the payload that was signed, which holds the subject,
    e-mail address and name of the identity and the time of the request
    (provided the platform's text and JSON primitives take that payload
    there and back). With no key in memory and a secret that is missing,
    empty or shorter than 32 characters, the request is not handed on: the
    middleware throws the error of the secret, and keeps no key. *)
Theorem middleware_session_cookie (env : gmap string string) (now : Z) (st : State)
    (request : NextRequest) (identity : AccessIdentity) (a : Access.State)
    (forwarded : Headers) :
  let presented :=
    default (default "" (Http.cookies request !! "CF_Authorization"))
      (get (headers request) "cf-access-jwt-assertion") in
  let payload := session_payload now identity in
  let data := utf8_encode (JSON_stringify payload) in
  method request <> "OPTIONS" ->
  isPublicPath (pathname request) = false ->
  verifyAccessToken env (access st) presented = (Ok (success identity), a) ->
  identity_headers request identity = Ok forwarded ->
  (shouldBypassSession env = true ->
   middleware new_URL env now st request
   = (Ok (next (Some forwarded) []), {| access := a; keyPromise := keyPromise st |}))
  /\ (shouldBypassSession env = false ->
      (forall secret,
          env !! "SESSION_SECRET" = Some secret ->
          (32 <= String.length secret)%nat ->
          keyPromise st = None \/ keyPromise st = Some (utf8_encode secret) ->
          exists value,
            middleware new_URL env now st request
            = (Ok (next (Some forwarded)
                     [{| cookie_name := "yav_session"; cookie_value := value;
                         httpOnly := true; secure := negb (isDev env); sameSite := "lax";
                         path := "/"; maxAge := 604800 |}]),
               {| access := a; keyPromise := Some (utf8_encode secret) |})
            /\ (data <> [] ->
                JSON_parse (utf8_decode data) = Ok payload ->
                Session.parseSessionValue env (Some (utf8_encode secret)) (Some value)
                = (Ok (Some payload), Some (utf8_encode secret))))
      /\ ((forall secret,
              env !! "SESSION_SECRET" = Some secret -> (String.length secret < 32)%nat) ->
          keyPromise st = None ->
          middleware new_URL env now st request
          = (Throw (ThrownError
                      (if str_truthy (env !! "SESSION_SECRET")
                       then "SESSION_SECRET must be at least 32 characters long"
                       else "Missing required environment variable: SESSION_SECRET")),
             {| access := a; keyPromise := None |}))).
Proof.
  intros presented payload data Hmethod Hpublic Hverify Hheaders.
  assert (middleware new_URL env now st request
          = forward_identity env now {| access := a; keyPromise := keyPromise st |}
              request identity) as ->.
  { unfold middleware.
    rewrite (proj2 (String.eqb_neq _ _) Hmethod), Hpublic. fold presented.
    by rewrite Hverify. }
  unfold forward_identity. rewrite Hheaders. cbn [access keyPromise].
  split; [by intros ->|]. intros ->. cbn [negb].
  rewrite createSessionValue_of_signed. fold payload. split.
  - intros secret Henv Hlen Hcache.
    destruct (signed_value_verifies env secret (keyPromise st) payload Henv Hlen Hcache)
      as [Hsigned Hparse].
    eexists. split; [by rewrite Hsigned|].
    intros Hdata Hround. specialize (Hparse Hdata). fold payload data in Hparse.
    rewrite Hround in Hparse. exact Hparse.
  - intros Hshort ->. unfold signed_value. by rewrite (getKey_unconfigured env Hshort).
Qed.

End MiddlewareFacts.

Lemma middleware_passes_public_witness :
  Scenario.middleware Scenario.production (Scenario.get_request "/publicity/internal" [])
  = (Ok (Http.next None []), Scenario.start).
Proof.
  apply (@middleware_passes_public Reference.platform Fixture.jose).
  right. right. exists "public", "ity/internal". split; [|reflexivity].
  apply (bool_decide_unpack _). vm_compute. exact I.
Defined.


Lemma middleware_redirects_to_login_witness :
  exists url st',
    Scenario.middleware Scenario.production (Scenario.get_request "/dashboard" [])
    = (Ok (Http.redirect url), st')
    /\ Http.url_base url = "https://team.example/cdn-cgi/access/login"
    /\ List.filter (fun kv => String.eqb (fst kv) "redirect_url") (Http.searchParams url)
       = [("redirect_url", "https://app.example/dashboard")].
Proof.
  destruct (@AccessLogin.getAccessLoginUrl Fixture.jose Scenario.production
              Fixture.access_start) as [[login|e] a'] eqn:Hlogin;
    [|vm_compute in Hlogin; discriminate Hlogin].
  assert (login = "https://team.example/cdn-cgi/access/login") as Htext.
  { vm_compute in Hlogin. by injection Hlogin as <- _. }
  destruct (@middleware_redirects_to_login Reference.platform Fixture.jose Scenario.new_URL
              Scenario.production 1700000000000 Scenario.start
              (Scenario.get_request "/dashboard" []) Access.unauthorized
              Fixture.access_start a' login
              {| Http.url_base := login; Http.searchParams := []; Http.url_hash := "" |})
    as (url & Hrun & Hbase & _ & Hparam & _).
  - discriminate.
  - vm_compute. reflexivity.
  - vm_compute. reflexivity.
  - vm_compute. reflexivity.
  - discriminate.
  - exact Hlogin.
  - rewrite Htext. reflexivity.
  - eexists url, _. split; [exact Hrun|]. split; [by rewrite Hbase|exact Hparam].
Defined.

Lemma middleware_throws_unconfigured_witness :
  Scenario.middleware {[ "NODE_ENV" := "production" ]}
    (Scenario.get_request "/dashboard" [("cf-access-jwt-assertion", "token-for-aud-1")])
  = (Throw (ThrownError "Missing required environment variable: CF_ACCESS_AUD"),
     Scenario.start).
Proof.
  apply (@middleware_throws_unconfigured Reference.platform Fixture.jose Scenario.new_URL
           _ _ _ _ _ Fixture.access_start);
    vm_compute; (reflexivity || discriminate).
Defined.

Lemma middleware_session_cookie_witness :
  (exists value st',
      Scenario.middleware Scenario.production Scenario.with_token
      = (Ok (Http.next
               (Some (<["x-user-email" := "alice@example.com"]>
                        (<["x-user-sub" := "alice"]> (Http.headers Scenario.with_token))))
               [{| Http.cookie_name := "yav_session"; Http.cookie_value := value;
                   Http.httpOnly := true; Http.secure := true; Http.sameSite := "lax";
                   Http.path := "/"; Http.maxAge := 604800 |}]), st')
      /\ @Session.parseSessionValue Reference.platform Scenario.production
           (Middleware.keyPromise st') (Some value)
         = (Ok (Some (Middleware.session_payload 1700000000000 Scenario.alice)),
            Middleware.keyPromise st'))
  /\ Scenario.middleware Scenario.no_secret Scenario.with_token
     = (Throw (ThrownError "Missing required environment variable: SESSION_SECRET"),
        {| Middleware.access := Scenario.resolved; Middleware.keyPromise := None |}).
Proof.
  split.
  - destruct (@middleware_session_cookie Reference.platform Fixture.jose Scenario.new_URL
                Scenario.production 1700000000000 Scenario.start Scenario.with_token
                Scenario.alice Scenario.resolved
                (<["x-user-email" := "alice@example.com"]>
                   (<["x-user-sub" := "alice"]> (Http.headers Scenario.with_token))))
      as [_ Hsession].
    + discriminate.
    + vm_compute. reflexivity.
    + vm_compute. reflexivity.
    + vm_compute. reflexivity.
    + destruct Hsession as [Hcookie _]; [vm_compute; reflexivity|].
      destruct (Hcookie "0123456789abcdef0123456789abcdef") as (value & Hrun & Hparse).
      * vm_compute. reflexivity.
      * vm_compute. lia.
      * by left.
      * eexists value, _. split; [exact Hrun|]. apply Hparse.
        -- vm_compute. discriminate.
        -- vm_compute. reflexivity.
  - destruct (@middleware_session_cookie Reference.platform Fixture.jose Scenario.new_URL
                Scenario.no_secret 1700000000000 Scenario.start Scenario.with_token
                Scenario.alice Scenario.resolved
                (<["x-user-email" := "alice@example.com"]>
                   (<["x-user-sub" := "alice"]> (Http.headers Scenario.with_token))))
      as [_ Hsession].
    + discriminate.
    + vm_compute. reflexivity.
    + vm_compute. reflexivity.
    + vm_compute. reflexivity.
    + destruct Hsession as [_ Hthrows]; [vm_compute; reflexivity|].
      apply Hthrows; [|reflexivity]. intros secret Hsecret. vm_compute in Hsecret.
      discriminate Hsecret.
Defined.

(** ** More on the session codec *)

Lemma length_sextets_exact (bs : list Z) :
  length (Base64.sextets bs) = ((4 * length bs + 2) / 3)%nat.
Proof.
  induction bs as [|a|a b|a b c l IH] using three_ind; try done.
  cbn [Base64.sextets length]. rewrite IH.
  replace (4 * S (S (S (length l))) + 2)%nat with (4 * length l + 2 + 4 * 3)%nat by lia.
  rewrite Nat.div_add by done. lia.
Qed.

Lemma length_byte_codes (data : list byte) : length (byte_codes data) = length data.
Proof.
  unfold byte_codes, string_of_list_byte.
  by rewrite length_map, list_ascii_of_string_of_list_ascii, length_map.
Qed.

(** X9. [base64UrlDecode] undoes [base64UrlEncode] on every sequence of bytes.
    The encoded text is made of letters, digits, [-] and [_] only (no
    padding, no dot), and has one character for every six bits of the data,
    rounded up. *)
Theorem base64Url_codec (data : list byte) :
  Session.base64UrlDecode (Session.base64UrlEncode data) = Ok data
  /\ Forall (fun c => Base64Url.is_base64url_char c = true)
       (list_ascii_of_string (Session.base64UrlEncode data))
  /\ String.length (Session.base64UrlEncode data) = ((4 * length data + 2) / 3)%nat.
Proof.
  split; [apply base64Url_roundtrip|]. rewrite base64UrlEncode_chars.
  rewrite list_ascii_of_string_of_list_ascii, length_string_of_list_ascii. split.
  - unfold url_chars. apply Forall_forall. intros c Hc.
    apply list_elem_of_fmap in Hc as (b & -> & Hb).
    apply list_elem_of_fmap in Hb as (v & -> & _).
    apply (b64_char_alphabet (fun c => Base64Url.is_base64url_char (url_char c)) eq_refl v).
  - unfold url_chars. by rewrite !length_map, length_sextets_exact, length_byte_codes.
Qed.

Lemma split_chars_app (sep : ascii) (cur cs1 cs2 : list ascii) :
  split_chars sep cur (cs1 ++ sep :: cs2)
  = split_chars sep cur cs1 ++ split_chars sep [] cs2.
Proof.
  revert cur. induction cs1 as [|c cs1 IH]; intros cur; simpl.
  - by rewrite Ascii.eqb_refl.
  - destruct (Ascii.eqb c sep); simpl; by rewrite IH.
Qed.

Lemma split_chars_some (sep : ascii) (cur cs : list ascii) :
  (1 <= length (split_chars sep cur cs))%nat.
Proof.
  revert cur. induction cs as [|c cs IH]; intros cur; simpl; [lia|].
  destruct (Ascii.eqb c sep); simpl; [lia|apply IH].
Qed.

Lemma split_chars_length (sep : ascii) (cur cs : list ascii) :
  sep ∈ cs -> (2 <= length (split_chars sep cur cs))%nat.
Proof.
  revert cur. induction cs as [|c cs IH]; intros cur Hin; [by apply elem_of_nil in Hin|].
  simpl. destruct (Ascii.eqb c sep) eqn:E.
  - simpl. pose proof (split_chars_some sep [] cs). lia.
  - apply elem_of_cons in Hin as [->|Hin]; [by rewrite Ascii.eqb_refl in E|].
    by apply IH.
Qed.

Section SessionKey.
Context {P : Platform}.
Import Env Session.

(** X10. Anything that follows a second dot is ignored: a value with a dot in
    it is parsed as the same value with a dot and any text added at its
    end, so that a valid token stays valid with further segments appended. *)
Theorem parseSessionValue_ignores_further_segments (env : gmap string string)
    (cache : KeyCache) (value extra : string) :
  "."%char ∈ list_ascii_of_string value ->
  parseSessionValue env cache (Some (value +:+ "." +:+ extra))
  = parseSessionValue env cache (Some value).
Proof.
  intros Hdot. unfold parseSessionValue.
  assert (forall text, "."%char ∈ list_ascii_of_string text ->
                       str_truthy (Some text) = true) as Htruthy.
  { intros [|c text] H; [by apply elem_of_nil in H|done]. }
  rewrite !Htruthy; [|done|].
  2:{ rewrite list_ascii_of_string_app. apply elem_of_app. by left. }
  cbn [negb default from_option id]. unfold split.
  rewrite list_ascii_of_string_app.
  change (list_ascii_of_string ("." +:+ extra)) with ("."%char :: list_ascii_of_string extra).
  rewrite split_chars_app.
  pose proof (split_chars_length "." [] _ Hdot) as Hlen.
  destruct (split_chars "." [] (list_ascii_of_string value)) as [|a [|b rest]];
    simpl in Hlen; [lia..|]. reflexivity.
Qed.

(** X11. Without a key in memory and without a secret of at least 32
    characters, [createSessionValue] throws, naming the missing variable or
    the length, and [parseSessionValue] answers [null] for every value and
    does not throw. Neither leaves a key behind, so that the secret is read
    again by the next call. *)
Theorem session_needs_a_long_secret (env : gmap string string) (now : Z)
    (identity : SessionIdentity) (value : option string) :
  (forall secret, env !! "SESSION_SECRET" = Some secret -> (String.length secret < 32)%nat) ->
  (exists message,
      createSessionValue env None now identity = (Throw (ThrownError message), None)
      /\ message
         = (if str_truthy (env !! "SESSION_SECRET")
            then "SESSION_SECRET must be at least 32 characters long"
            else "Missing required environment variable: SESSION_SECRET"))
  /\ parseSessionValue env None value = (Ok None, None).
Proof.
  intros Hshort.
  assert (getKey env None
          = (Throw (ThrownError
                      (if str_truthy (env !! "SESSION_SECRET")
                       then "SESSION_SECRET must be at least 32 characters long"
                       else "Missing required environment variable: SESSION_SECRET")),
             None)) as Hkey.
  { unfold getKey, getSessionSecret, requireEnv, getEnv.
    destruct (env !! "SESSION_SECRET") as [secret|] eqn:Hsecret; [|done].
    specialize (Hshort secret eq_refl). simpl.
    destruct (String.eqb secret ""); [done|]. simpl.
    by rewrite (proj2 (Nat.ltb_lt _ _) Hshort). }
  split.
  - eexists. split; [|reflexivity]. unfold createSessionValue. by rewrite Hkey.
  - unfold parseSessionValue, parse_checked. rewrite Hkey.
    by repeat case_match; simplify_eq.
Qed.

End SessionKey.

Lemma parseSessionValue_ignores_further_segments_witness :
  @Session.parseSessionValue Reference.platform Fixture.session_env None
    (Some (Fixture.session_token +:+ "." +:+ "anything"))
  = @Session.parseSessionValue Reference.platform Fixture.session_env None
      (Some Fixture.session_token).
Proof.
  apply (@parseSessionValue_ignores_further_segments Reference.platform).
  apply (bool_decide_unpack _). vm_compute. exact I.
Defined.

Lemma session_needs_a_long_secret_witness :
  @Session.createSessionValue Reference.platform {[ "SESSION_SECRET" := "too short" ]} None
    1700000000000 Fixture.session_identity
  = (Throw (ThrownError "SESSION_SECRET must be at least 32 characters long"), None)
  /\ @Session.parseSessionValue Reference.platform {[ "SESSION_SECRET" := "too short" ]} None
       (Some Fixture.session_token)
     = (Ok None, None).
Proof.
  destruct (@session_needs_a_long_secret Reference.platform
              {[ "SESSION_SECRET" := "too short" ]} 1700000000000 Fixture.session_identity
              (Some Fixture.session_token)) as ((message & Hcreate & Hmessage) & Hparse).
  - intros secret Hsecret. vm_compute in Hsecret. injection Hsecret as <-. vm_compute. lia.
  - split; [|exact Hparse]. rewrite Hcreate, Hmessage. reflexivity.
Defined.

(** ** Requests that are turned away at the door *)

Section EarlyRejections.
Context {P : Platform} (out : World.Outside) (sha256 : string -> string).
Import World Db Routes Frame Checks.

(** X12. A request without a subject in [x-user-sub] is answered 401, whatever
    its body. One with a subject whose body is not JSON, or is JSON but lacks
    what the handler asks for, is answered 400; one with a subject whose
    body is the JSON value [null] is not answered by the handler at all: the
    handler throws the [TypeError] of reading its first property of [null],
    outside every [try]. In all three cases the handler has touched nothing:
    no row is read or written, not even the caller's row in [users], and no
    identifier is drawn. *)
Theorem malformed_request_touches_nothing (request : Request) (w : World.t) :
  str_truthy (x_user_sub (headers_of request)) && well_formed request = false ->
  exists outcome,
    POST out sha256 request w = (outcome, w)
    /\ (if str_truthy (x_user_sub (headers_of request)) && null_body request
        then outcome = Throw (null_property_error (first_read request))
        else exists response,
               outcome = Ok response
               /\ status response
                  = (if str_truthy (x_user_sub (headers_of request)) then 400 else 401)).
Proof.
  intros H. destruct request as [h body|h body|h body]; simpl in *.
  - unfold POST_script. destruct (str_truthy (x_user_sub h)); simpl in *;
      [|by eexists; split; [|eexists]].
    destruct body as [b| |]; [|by eexists; split; [|eexists]|by eexists].
    rewrite H. by eexists; split; [|eexists].
  - unfold POST_image. destruct (str_truthy (x_user_sub h)); simpl in *;
      [|by eexists; split; [|eexists]].
    destruct body as [b| |]; [|by eexists; split; [|eexists]|by eexists].
    destruct (str_truthy (image_projectId b)); simpl in *;
      [|by eexists; split; [|eexists]].
    rewrite H. by eexists; split; [|eexists].
  - unfold POST_tts. destruct (str_truthy (x_user_sub h)); simpl in *;
      [|by eexists; split; [|eexists]].
    destruct body as [b| |]; [|by eexists; split; [|eexists]|by eexists].
    destruct (str_truthy (tts_projectId b)); simpl in *;
      [|by eexists; split; [|eexists]].
    apply negb_false_iff in H. rewrite H. by eexists; split; [|eexists].
Qed.

End EarlyRejections.

Lemma malformed_request_touches_nothing_witness :
  (exists response,
      Fixture.post (Routes.ImageRequest Fixture.alice
                      (Routes.Parsed {| Routes.image_projectId := Some "project-a";
                                        Routes.prompt := None; Routes.style := None;
                                        Routes.aspectRatio := None;
                                        Routes.image_label := None |}))
        Fixture.alice_world
      = (Ok response, Fixture.alice_world)
      /\ Routes.status response = 400)
  /\ Fixture.post (Routes.ScriptRequest Fixture.alice Routes.JsonNull) Fixture.alice_world
     = (Throw (ThrownError "Cannot read properties of null (reading 'topic')"),
        Fixture.alice_world).
Proof.
  split.
  - destruct (@malformed_request_touches_nothing Reference.platform Fixture.outside
                Fixture.sha256_hex
                (Routes.ImageRequest Fixture.alice
                   (Routes.Parsed {| Routes.image_projectId := Some "project-a";
                                     Routes.prompt := None; Routes.style := None;
                                     Routes.aspectRatio := None;
                                     Routes.image_label := None |}))
                Fixture.alice_world eq_refl) as (outcome & Hrun & response & -> & Hstatus).
    by exists response.
  - destruct (@malformed_request_touches_nothing Reference.platform Fixture.outside
                Fixture.sha256_hex (Routes.ScriptRequest Fixture.alice Routes.JsonNull)
                Fixture.alice_world eq_refl) as (outcome & Hrun & ->).
    exact Hrun.
Defined.

(** ** When the script provider fails *)

Section ScriptFailure.
Context {P : Platform} (out : World.Outside) (sha256 : string -> string).
Import World Db Routes Fresh Frame.

(** X13. A script request without [projectId], on a cache without an entry for
    it, whose call to the provider throws: the answer is a 500; the job the
    request inserted ends in status [failed] with the message of what was
    thrown; no version is inserted and nothing is put into the cache; the
    project the request inserted stays, in status [draft]. *)
Theorem script_provider_failure (headers : Headers) (payload : ScriptRequestBody)
    (accessSub : string) (w : World.t) (cause : Thrown) :
  x_user_sub headers = Some accessSub -> accessSub <> "" ->
  str_truthy (topic payload) = true ->
  script_projectId payload = None ->
  regenerate payload = None ->
  CACHE w !! cacheKey sha256 payload = None ->
  fresh_uuids out w 3 ->
  (forall n, generateYoutubeScript out n (script_params payload) = Throw cause) ->
  exists draft running failed user_writes w',
    POST_script out sha256 headers (Parsed payload) w
      = (Ok (error_response "Failed to generate script" 500), w')
    /\ projects (DB w') = projects (DB w) ++ [draft]
    /\ DBProject.status draft = "draft"
    /\ generation_jobs (DB w') = generation_jobs (DB w) ++ [failed]
    /\ DBGenerationJob.id failed = DBGenerationJob.id running
    /\ DBGenerationJob.project_id failed = DBProject.id draft
    /\ DBGenerationJob.status running = "running"
    /\ DBGenerationJob.status failed = "failed"
    /\ DBGenerationJob.error failed = Some (error_message cause)
    /\ project_versions (DB w') = project_versions (DB w)
    /\ assets (DB w') = assets (DB w)
    /\ CACHE w' = CACHE w /\ MEDIA_BUCKET w' = MEDIA_BUCKET w
    /\ (length user_writes <= 1)%nat /\ Forall is_user_write user_writes
    /\ events w' =
         events w ++ map D1Write user_writes
           ++ [D1Write (InsertProject draft);
               CacheGet (cacheKey sha256 payload);
               D1Write (InsertGenerationJob running);
               GeminiCall (script_params payload);
               D1Write (UpdateGenerationJob (DBGenerationJob.id failed) "failed"
                          (Some (error_message cause)))].
Proof.
  intros Hsub Hsubne Htopic Hpid Hreg Hmiss Hfresh Hcall.
  destruct (POST_script_new_project out sha256 headers payload accessSub w Hsub Hsubne Htopic)
    as (user & w1 & Hrun & Hframe & Hlo & Hhi & Hnew & Hpost);
    [by rewrite Hpid| |].
  { destruct Hfresh as [Hnd Hall]. split.
    - unfold upcoming in *. rewrite seq_S, map_app in Hnd. by apply NoDup_app in Hnd as [? _].
    - unfold upcoming in *. rewrite seq_S, map_app in Hall. by apply Forall_app in Hall as [? _]. }
  destruct Hframe as (Hp & Hv & Ha & Hj & Hc & Hb & Hn & entries & He & Hlen & Hall).
  cbv zeta in Hpost. rewrite Hpost. clear Hpost.
  assert (exists i, (i < 2)%nat /\ uuids_drawn w1 = (uuids_drawn w + i)%nat) as (i & Hi & Hd).
  { exists (uuids_drawn w1 - uuids_drawn w)%nat. lia. }
  pose proof (fresh_uuids_nth out w 3 (S i) Hfresh ltac:(lia)) as Hjob.
  pose proof (fresh_uuids_distinct out w 3 (S i) i Hfresh ltac:(lia) ltac:(lia) ltac:(lia))
    as Hdistinct.
  replace (uuids_drawn w + S i)%nat with (S (uuids_drawn w1)) in Hjob, Hdistinct by lia.
  rewrite <- Hd in Hdistinct.
  rewrite script_lookup_miss; [|done|world_simpl; by rewrite Hc].
  unfold script_miss.
  erewrite run_bind.
  2:{ apply insertGenerationJob_run; world_simpl.
      - cbn [generation_jobs]. eauto with in_use.
      - unfold project_ids. cbn [projects]. rewrite map_app. apply elem_of_app. right.
        by left. }
  erewrite run_try_throw.
  2:{ unfold script_generate. erewrite run_bind_throw; [reflexivity|].
      unfold call_generateYoutubeScript. fold (script_params payload). by rewrite Hcall. }
  unfold updateGenerationJobStatus. unfold_monad. world_simpl. simpl.
  rewrite (map_update_last DBGenerationJob.id); [|eauto with in_use|done].
  set (u1 := uuid_source out (uuids_drawn w1)).
  set (u2 := uuid_source out (S (uuids_drawn w1))).
  exists {| DBProject.id := u1; DBProject.user_id := DBUser.id user;
            DBProject.title := topic payload; DBProject.topic := topic payload;
            DBProject.target_length := None; DBProject.status := "draft";
            DBProject.created_at := now w; DBProject.updated_at := now w |},
         {| DBGenerationJob.id := u2; DBGenerationJob.project_id := u1;
            DBGenerationJob.job_type := "script"; DBGenerationJob.status := "running";
            DBGenerationJob.payload :=
              Some (JSON_stringify (json_of_script_body payload));
            DBGenerationJob.error := None;
            DBGenerationJob.created_at := now w1; DBGenerationJob.updated_at := now w1 |},
         {| DBGenerationJob.id := u2; DBGenerationJob.project_id := u1;
            DBGenerationJob.job_type := "script"; DBGenerationJob.status := "failed";
            DBGenerationJob.payload :=
              Some (JSON_stringify (json_of_script_body payload));
            DBGenerationJob.error := Some (error_message cause);
            DBGenerationJob.created_at := now w1; DBGenerationJob.updated_at := now w1 |},
         entries.
  eexists. split; [reflexivity|].
  world_simpl. cbn [users projects project_versions assets generation_jobs].
  rewrite He, <- !app_assoc. simpl.
  repeat split; done.
Qed.

End ScriptFailure.

Lemma script_provider_failure_witness :
  exists w',
    @Routes.POST_script Reference.platform Outage.gemini_down Fixture.sha256_hex
      Fixture.alice (Routes.Parsed (Frame.topic_only "Photosynthesis basics")) Fixture.empty_world
    = (Ok (Routes.error_response "Failed to generate script" 500), w')
    /\ map DBProject.status (World.projects (World.DB w')) = ["draft"]
    /\ map DBGenerationJob.error (World.generation_jobs (World.DB w'))
       = [Some "Gemini request failed: 503 overloaded"]
    /\ World.project_versions (World.DB w') = []
    /\ World.CACHE w' = ∅.
Proof.
  destruct (@script_provider_failure Reference.platform Outage.gemini_down
              Fixture.sha256_hex Fixture.alice (Frame.topic_only "Photosynthesis basics")
              "alice" Fixture.empty_world
              (ThrownError "Gemini request failed: 503 overloaded"))
    as (draft & running & failed & writes & w' & Hrun & Hp & Hdraft & Hj & _ & _ & _ & _
        & Herror & Hv & _ & Hc & _).
  - reflexivity.
  - discriminate.
  - reflexivity.
  - reflexivity.
  - reflexivity.
  - vm_compute. reflexivity.
  - split; apply (bool_decide_unpack _); vm_compute; exact I.
  - reflexivity.
  - exists w'. split; [exact Hrun|]. rewrite Hp, Hj, Hv, Hc. simpl.
    rewrite Hdraft, Herror. by repeat split.
Defined.

(** ** Regenerating a script *)

Lemma find_map_update {A} (key : A -> string) (k : string) (g : A -> A) (l : list A) :
  (forall x, key (g x) = key x) ->
  find (fun x => bool_decide (key x = k))
    (map (fun x => if bool_decide (key x = k) then g x else x) l)
  = g <$> find (fun x => bool_decide (key x = k)) l.
Proof.
  intros Hkey. induction l as [|a l IH]; [done|]. simpl.
  destruct (bool_decide (key a = k)) eqn:E; simpl.
  - by rewrite Hkey, E.
  - by rewrite E.
Qed.

Section Regeneration.
Context {P : Platform} (out : World.Outside) (sha256 : string -> string).
Import World Db Routes Fresh Frame.

(** X14. A script request with [regenerate] set, on a project of the caller,
    with a provider that answers: the cache is not read, whatever it holds;
    the provider is called; the project gets its next version; the title of
    the project becomes the title the provider proposed and its status
    [ready]; and the entry of the cache under the key of the request is
    replaced by the new result, for six hours from now. *)
Theorem regenerate_skips_the_cache (headers : Headers) (payload : ScriptRequestBody)
    (accessSub projectId : string) (w : World.t) (user : DBUser.t) (project : DBProject.t)
    (result : GeminiResponse) :
  x_user_sub headers = Some accessSub -> accessSub <> "" ->
  str_truthy (topic payload) = true ->
  script_projectId payload = Some projectId -> projectId <> "" ->
  regenerate payload = Some true ->
  select_user_by_sub (DB w) accessSub = Some user ->
  find (fun p => bool_decide (DBProject.id p = projectId)) (projects (DB w)) = Some project ->
  DBProject.user_id project = DBUser.id user ->
  fresh_uuids out w 2 ->
  (forall n, generateYoutubeScript out n (script_params payload) = Ok result) ->
  exists running version user_writes w',
    POST_script out sha256 headers (Parsed payload) w
      = (Ok (script_answer projectId false (json_of_response result)), w')
    /\ project_versions (DB w') = project_versions (DB w) ++ [version]
    /\ DBProjectVersion.project_id version = projectId
    /\ DBProjectVersion.version version
       = default 0 (greatest (versions_of (DB w) projectId)) + 1
    /\ find (fun p => bool_decide (DBProject.id p = projectId)) (projects (DB w'))
       = Some {| DBProject.id := DBProject.id project;
                 DBProject.user_id := DBProject.user_id project;
                 DBProject.title := Some (seo_title (seo result));
                 DBProject.topic := coalesce (topic payload) (DBProject.topic project);
                 DBProject.target_length := DBProject.target_length project;
                 DBProject.status := "ready";
                 DBProject.created_at := DBProject.created_at project;
                 DBProject.updated_at := now w |}
    /\ CACHE w' !! cacheKey sha256 payload
       = Some {| kv_value := JSON_stringify (json_of_response result);
                 kv_expiration := now w + 21600 |}
    /\ (length user_writes <= 1)%nat /\ Forall is_user_write user_writes
    /\ events w' =
         events w ++ map D1Write user_writes
           ++ [D1Write (InsertGenerationJob running);
               GeminiCall (script_params payload);
               D1Write (InsertProjectVersion version);
               D1Write (UpdateProject projectId (Some (seo_title (seo result)))
                          (topic payload) (Some "ready"));
               CachePut (cacheKey sha256 payload);
               D1Write (UpdateGenerationJob (DBGenerationJob.id running) "succeeded" None)].
Proof.
  intros Hsub Hsubne Htopic Hpid Hpidne Hreg Hsel Hfind Hown Hfresh Hcall.
  pose proof (fresh_uuids_nth out w 2 0 Hfresh ltac:(lia)) as Hf0.
  pose proof (fresh_uuids_nth out w 2 1 Hfresh ltac:(lia)) as Hf1.
  rewrite Nat.add_0_r in Hf0.
  replace (uuids_drawn w + 1)%nat with (S (uuids_drawn w)) in Hf1 by lia.
  destruct (find_some_elem _ _ _ Hfind) as [Hin Hid].
  apply bool_decide_eq_true_1 in Hid.
  assert (projectId ∈ project_ids (DB w)) as Hfk.
  { rewrite <- Hid. apply list_elem_of_fmap. by exists project. }
  destruct (ensureUser_existing out w accessSub (x_user_email headers)
              (x_user_name headers) user Hsel)
    as (user' & w1 & Hrun & Huid & Hp & Hv & Ha & Hj & _ & Hc & Hb & Hn & Hu & He).
  unfold POST_script. rewrite Hsub, (str_truthy_Some _ Hsubne), Htopic, Hpid.
  rewrite (str_truthy_Some _ Hpidne). cbn [negb default from_option id].
  rewrite (run_bind _ _ _ _ _ Hrun).
  rewrite (run_bind _ _ _ _ _ (getProjectById_run _ _)). rewrite Hp, Hfind.
  rewrite bool_decide_eq_true_2 by congruence. cbn [negb].
  unfold script_lookup. rewrite Hreg. cbn [negb default from_option id].
  erewrite run_bind; [|reflexivity]. unfold script_miss.
  erewrite run_bind.
  2:{ apply insertGenerationJob_run.
      - rewrite Hu, Hj. eauto with in_use.
      - unfold project_ids. by rewrite Hp. }
  erewrite run_try_ok.
  2:{ apply script_generate_run; world_simpl.
      - apply Hcall.
      - cbn [project_versions]. rewrite Hu, Hv. eauto with in_use.
      - unfold project_ids. cbn [projects]. by rewrite Hp. }
  eexists _, _, _, _. split; [reflexivity|].
  world_simpl. cbn [users projects project_versions assets generation_jobs].
  unfold versions_of. cbn [project_versions]. rewrite Hv, Hn, Hp, He.
  fold (versions_of (DB w) projectId).
  split; [reflexivity|]. split; [reflexivity|]. split; [reflexivity|]. split.
  { rewrite (find_map_update DBProject.id) by done. by rewrite Hfind. }
  split; [apply lookup_insert_eq|].
  split; [|split]; [| |rewrite <- !app_assoc; reflexivity].
  - destruct (str_truthy _ || str_truthy _); simpl; lia.
  - destruct (str_truthy _ || str_truthy _); by repeat constructor.
Qed.

End Regeneration.

Lemma regenerate_skips_the_cache_witness :
  exists w',
    Fixture.post (Routes.ScriptRequest Fixture.alice (Routes.Parsed Outage.regenerate_tides))
      Fixture.alice_world
    = (Ok (Frame.script_answer "project-a" false
             (Routes.json_of_response Fixture.a_script)), w')
    /\ map DBProjectVersion.version (World.project_versions (World.DB w')) = [1; 2; 3; 4]
    /\ Forall (fun e => forall key, e <> World.CacheGet key) (World.events w').
Proof.
  destruct (@regenerate_skips_the_cache Reference.platform Fixture.outside
              Fixture.sha256_hex Fixture.alice Outage.regenerate_tides "alice" "project-a"
              Fixture.alice_world Fixture.alice_row Fixture.alice_project Fixture.a_script)
    as (running & version & writes & w' & Hrun & Hv & _ & Hnumber & _ & _ & _ & Hwrites
        & Hevents).
  - reflexivity.
  - discriminate.
  - reflexivity.
  - reflexivity.
  - discriminate.
  - reflexivity.
  - vm_compute. reflexivity.
  - vm_compute. reflexivity.
  - reflexivity.
  - split; apply (bool_decide_unpack _); vm_compute; exact I.
  - reflexivity.
  - exists w'. split; [exact Hrun|]. split.
    + rewrite Hv, map_app. simpl. rewrite Hnumber. vm_compute. reflexivity.
    + rewrite Hevents. simpl. apply Forall_app. split.
      * apply Forall_forall. intros e He key ->.
        apply list_elem_of_fmap in He as (? & ? & _). discriminate.
      * repeat constructor; intros key; discriminate.
Defined.

(** ** Speech for every section *)

Section SpeechForAll.
Context {P : Platform} (out : World.Outside).
Import World Db Routes Fresh Frame Checks.

Lemma length_audio_assets (project : DBProject.t) (speak : string -> TtsResult)
    (created_at : Z) (n : nat) (sections : list SectionInput) :
  length (audio_assets out project speak created_at n sections) = length sections.
Proof.
  revert n. induction sections as [|s rest IH]; intros n; [done|]. simpl. by rewrite IH.
Qed.

(** The loop over sections that all have text. *)
Lemma tts_loop_all (payload : TtsRequestBody) (project : DBProject.t)
    (speak : string -> TtsResult) (sections : list SectionInput) :
  forall (results : list Json) (w : World.t),
    let spoken :=
      audio_assets out project speak (now w) (uuids_drawn w) sections in
    Forall (fun s => str_truthy (text s) = true) sections ->
    (forall n text,
        synthesizeSpeech out n {| tts_text := text; tts_voice := voice payload;
                                  tts_audioConfig := audioConfig payload |}
        = Ok (speak text)) ->
    (forall n key, bucket_put_outcome out n key = Ok tt) ->
    DBProject.id project ∈ project_ids (DB w) ->
    (forall i j, (i < 2 * length sections)%nat -> (j < 2 * length sections)%nat -> i <> j ->
                 uuid_source out (uuids_drawn w + i) <> uuid_source out (uuids_drawn w + j)) ->
    (forall i, (i < 2 * length sections)%nat ->
               uuid_source out (uuids_drawn w + i) ∉ map DBAsset.id (assets (DB w))) ->
    exists w',
      tts_sections_loop out payload project sections results w
        = (Ok (results ++ zip_with audio_entry spoken sections), w')
      /\ users (DB w') = users (DB w)
      /\ projects (DB w') = projects (DB w)
      /\ project_versions (DB w') = project_versions (DB w)
      /\ generation_jobs (DB w') = generation_jobs (DB w)
      /\ assets (DB w') = assets (DB w) ++ spoken
      /\ CACHE w' = CACHE w /\ now w' = now w
      /\ uuids_drawn w' = (uuids_drawn w + 2 * length sections)%nat
      /\ (forall key, is_Some (MEDIA_BUCKET w !! key) -> is_Some (MEDIA_BUCKET w' !! key))
      /\ Forall (fun a => is_Some (MEDIA_BUCKET w' !! DBAsset.r2_key a)) spoken.
Proof.
  induction sections as [|s rest IH]; intros results w spoken Htext Hspeak Hput Hfk Hdistinct
    Hfresh.
  - exists w. simpl. rewrite app_nil_r, Nat.add_0_r.
    split; [reflexivity|]. repeat split; try done. by rewrite app_nil_r.
  - apply Forall_cons in Htext as [Hs Hrest].
    cbn [tts_sections_loop]. rewrite Hs. cbn [negb].
    erewrite run_bind; [|unfold call_synthesizeSpeech; by rewrite Hspeak].
    erewrite run_bind; [|reflexivity].
    erewrite run_bind; [|unfold bucket_put; by rewrite Hput].
    pose proof (Hfresh 1%nat ltac:(simpl; lia)) as Hf1.
    replace (uuids_drawn w + 1)%nat with (S (uuids_drawn w)) in Hf1 by lia.
    erewrite run_bind; [|by apply insertAsset_run].
    set (asset := audio_asset project s (uuid_source out (uuids_drawn w))
                    (uuid_source out (S (uuids_drawn w)))
                    (speak (default "" (text s))) (now w)).
    match goal with
    | |- context [tts_sections_loop _ _ _ _ ?r ?w1] =>
        destruct (IH r w1) as (w' & Hrun & Hu & Hp & Hv & Hj & Ha & Hc & Hn & Hd & Hb & Hall)
    end; world_simpl; cbn [users projects project_versions assets generation_jobs].
    + done.
    + done.
    + done.
    + done.
    + intros i j Hi Hj Hij.
      replace (S (S (uuids_drawn w)) + i)%nat with (uuids_drawn w + (2 + i))%nat by lia.
      replace (S (S (uuids_drawn w)) + j)%nat with (uuids_drawn w + (2 + j))%nat by lia.
      apply Hdistinct; simpl in *; lia.
    + intros i Hi. rewrite map_app. intros Hin. apply elem_of_app in Hin as [Hin|Hin].
      * apply (Hfresh (2 + i)%nat); [simpl in *; lia|].
        by replace (uuids_drawn w + (2 + i))%nat with (S (S (uuids_drawn w)) + i)%nat by lia.
      * simpl in Hin. apply list_elem_of_singleton in Hin.
        apply (Hdistinct (2 + i)%nat 1%nat); [simpl in *; lia..|].
        replace (uuids_drawn w + (2 + i))%nat with (S (S (uuids_drawn w)) + i)%nat by lia.
        by replace (uuids_drawn w + 1)%nat with (S (uuids_drawn w)) by lia.
    + exists w'. rewrite Hrun. unfold spoken. cbn [audio_assets zip_with]. fold asset.
      split; [by rewrite <- app_assoc|].
      split; [done|]. split; [done|]. split; [done|]. split; [done|].
      split; [rewrite Ha; cbn [assets]; by rewrite <- app_assoc|].
      split; [done|]. split; [done|]. split; [rewrite Hd; simpl; lia|].
      assert (is_Some (MEDIA_BUCKET w' !! DBAsset.r2_key asset)) as Hkey.
      { apply Hb. rewrite lookup_insert_eq. by eexists. }
      split; [|by constructor].
      intros key Hsome. apply Hb.
      destruct (decide (key = DBAsset.r2_key asset)) as [->|Hne].
      * rewrite lookup_insert_eq. by eexists.
      * by rewrite lookup_insert_ne.
Qed.

(** X15. A speech request whose sections all have text, on a project of the
    caller, with a provider and a bucket that answer: one asset is recorded
    for each section, in the order of the sections, each with its object in
    the bucket; the answer is a 200 that lists them; and the job of the
    request ends in status [succeeded]. *)
Theorem tts_every_section_spoken (headers : Headers) (payload : TtsRequestBody)
    (accessSub projectId : string) (w : World.t) (user : DBUser.t) (project : DBProject.t)
    (sections : list SectionInput) (speak : string -> TtsResult) :
  let spoken :=
    audio_assets out project speak (now w) (S (uuids_drawn w)) sections in
  x_user_sub headers = Some accessSub -> accessSub <> "" ->
  tts_projectId payload = Some projectId -> projectId <> "" ->
  tts_sections payload = Some sections -> sections <> [] ->
  Forall (fun s => str_truthy (text s) = true) sections ->
  select_user_by_sub (DB w) accessSub = Some user ->
  find (fun p => bool_decide (DBProject.id p = projectId)) (projects (DB w)) = Some project ->
  DBProject.user_id project = DBUser.id user ->
  fresh_uuids out w (S (2 * length sections)) ->
  (forall n text,
      synthesizeSpeech out n {| tts_text := text; tts_voice := voice payload;
                                tts_audioConfig := audioConfig payload |}
      = Ok (speak text)) ->
  (forall n key, bucket_put_outcome out n key = Ok tt) ->
  exists succeeded w',
    POST_tts out headers (Parsed payload) w
      = (Ok (json_response
               (JObj [("projectId", JStr (DBProject.id project));
                      ("assets", JArr (zip_with audio_entry spoken sections))])), w')
    /\ assets (DB w') = assets (DB w) ++ spoken
    /\ length spoken = length sections
    /\ Forall (fun a => is_Some (MEDIA_BUCKET w' !! DBAsset.r2_key a)) spoken
    /\ generation_jobs (DB w') = generation_jobs (DB w) ++ [succeeded]
    /\ DBGenerationJob.project_id succeeded = projectId
    /\ DBGenerationJob.job_type succeeded = "tts"
    /\ DBGenerationJob.status succeeded = "succeeded"
    /\ DBGenerationJob.error succeeded = None
    /\ projects (DB w') = projects (DB w)
    /\ project_versions (DB w') = project_versions (DB w).
Proof.
  intros spoken Hsub Hsubne Hpid Hpidne Hsections Hnonempty Htext Hsel Hfind Hown Hfresh
    Hspeak Hput.
  pose proof (fresh_uuids_nth out w _ 0 Hfresh ltac:(lia)) as Hf0.
  rewrite Nat.add_0_r in Hf0.
  destruct (find_some_elem _ _ _ Hfind) as [Hin Hid].
  apply bool_decide_eq_true_1 in Hid.
  assert (projectId ∈ project_ids (DB w)) as Hfk.
  { rewrite <- Hid. apply list_elem_of_fmap. by exists project. }
  destruct (ensureUser_existing out w accessSub (x_user_email headers)
              (x_user_name headers) user Hsel)
    as (user' & w1 & Hrun & Huid & Hp & Hv & Ha & Hj & _ & Hc & Hb & Hn & Hu & He).
  unfold POST_tts. rewrite Hsub, (str_truthy_Some _ Hsubne), Hpid, (str_truthy_Some _ Hpidne).
  rewrite Hsections. cbn [negb default from_option id].
  rewrite bool_decide_eq_false_2 by done.
  rewrite (run_bind _ _ _ _ _ Hrun).
  rewrite (run_bind _ _ _ _ _ (getProjectById_run _ _)). rewrite Hp, Hfind.
  rewrite bool_decide_eq_true_2 by congruence. cbn [negb].
  erewrite run_bind.
  2:{ apply insertGenerationJob_run.
      - rewrite Hu, Hj. eauto with in_use.
      - unfold project_ids. by rewrite Hp, Hid. }
  match goal with
  | |- context [try_catch (tts_generate _ _ _ ?job) _ ?w2] =>
      destruct (tts_loop_all payload project speak sections [] w2)
        as (w3 & Hloop & Hu3 & Hp3 & Hv3 & Hj3 & Ha3 & Hc3 & Hn3 & Hd3 & Hb3 & Hall3)
  end; world_simpl; cbn [users projects project_versions assets generation_jobs] in *.
  - done.
  - done.
  - done.
  - unfold project_ids. cbn [projects]. by rewrite Hp, Hid.
  - intros i j Hi Hj' Hij. rewrite Hu.
    replace (S (uuids_drawn w) + i)%nat with (uuids_drawn w + S i)%nat by lia.
    replace (S (uuids_drawn w) + j)%nat with (uuids_drawn w + S j)%nat by lia.
    apply (fresh_uuids_distinct out w _ _ _ Hfresh); lia.
  - intros i Hi. rewrite Hu, Ha.
    replace (S (uuids_drawn w) + i)%nat with (uuids_drawn w + S i)%nat by lia.
    pose proof (fresh_uuids_nth out w _ (S i) Hfresh ltac:(lia)). eauto with in_use.
  - erewrite run_try_ok.
    2:{ unfold tts_generate. rewrite Hsections. cbn [default from_option id].
        erewrite run_bind; [|exact Hloop].
        unfold updateGenerationJobStatus. unfold_monad. reflexivity. }
    rewrite Hu, Hn in Ha3, Hall3 |- *. fold spoken in Ha3, Hall3 |- *.
    eexists _, _. split; [reflexivity|].
    world_simpl. cbn [users projects project_versions assets generation_jobs].
    rewrite Hj3, Hj. rewrite (map_update_last DBGenerationJob.id);
      [|rewrite ?Hu; eauto with in_use|simpl; by rewrite ?Hu].
    rewrite Ha3, Ha, Hp3, Hp, Hv3, Hv, Hid.
    split; [reflexivity|]. split; [apply length_audio_assets|].
    by repeat split.
Qed.

End SpeechForAll.

Lemma tts_every_section_spoken_witness :
  exists response w',
    Fixture.post (Routes.TtsRequest Fixture.alice (Routes.Parsed Outage.speech_for_two))
      Fixture.alice_world
    = (Ok response, w')
    /\ Routes.status response = 200
    /\ map DBAsset.label (World.assets (World.DB w')) = [Some "Intro"; Some "s2"]
    /\ map DBGenerationJob.status (World.generation_jobs (World.DB w')) = ["succeeded"].
Proof.
  destruct (@tts_every_section_spoken Reference.platform Fixture.outside
              Fixture.alice Outage.speech_for_two "alice" "project-a" Fixture.alice_world
              Fixture.alice_row Fixture.alice_project Outage.two_sections Outage.spoken)
    as (succeeded & w' & Hrun & Ha & _ & _ & Hj & _ & _ & Hstatus & _).
  - reflexivity.
  - discriminate.
  - reflexivity.
  - discriminate.
  - reflexivity.
  - discriminate.
  - repeat constructor.
  - vm_compute. reflexivity.
  - vm_compute. reflexivity.
  - reflexivity.
  - split; apply (bool_decide_unpack _); vm_compute; exact I.
  - reflexivity.
  - reflexivity.
  - eexists _, w'. split; [exact Hrun|]. split; [reflexivity|].
    rewrite Ha, Hj. simpl. rewrite Hstatus. by split.
Defined.

(** ** Images *)

Section ImagePath.
Context {P : Platform} (out : World.Outside).
Import World Db Routes Fresh Frame.

(** X16. An image request on a project of the caller, with a provider that
    returns an image and a bucket that stores it: the image is stored under
    [images/<project>/<uuid>.<extension>], where the extension is what
    follows the first slash of the content type up to the next one ([png]
    when the content type has no slash, and [image/png] when the provider
    names none); one asset row records the key, the content type and the
    number of bytes, labelled with the label of the request or else with the
    first 64 characters of the prompt; the job ends in status [succeeded]
    and the answer is a 200 with the asset and the key. *)
Theorem image_stored_under_its_type (headers : Headers) (payload : ImageRequestBody)
    (accessSub projectId subject : string) (w : World.t) (user : DBUser.t)
    (project : DBProject.t) (imageResponse : ImageResponse) (bytes : list byte) :
  let contentType := default "image/png" (content_type imageResponse) in
  let extension := default "png" (split "/" contentType !! 1%nat) in
  let key := "images/" +:+ DBProject.id project +:+ "/"
               +:+ uuid_source out (S (uuids_drawn w)) +:+ "." +:+ extension in
  x_user_sub headers = Some accessSub -> accessSub <> "" ->
  image_projectId payload = Some projectId -> projectId <> "" ->
  prompt payload = Some subject -> subject <> "" ->
  select_user_by_sub (DB w) accessSub = Some user ->
  find (fun p => bool_decide (DBProject.id p = projectId)) (projects (DB w)) = Some project ->
  DBProject.user_id project = DBUser.id user ->
  fresh_uuids out w 3 ->
  (forall n, generateImage out n
               {| img_prompt := subject; img_style := style payload;
                  img_aspectRatio := aspectRatio payload |} = Ok imageResponse) ->
  arrayBuffer imageResponse = Ok bytes ->
  (forall n k, bucket_put_outcome out n k = Ok tt) ->
  exists asset succeeded w',
    POST_image out headers (Parsed payload) w
      = (Ok (json_response
               (JObj [("projectId", JStr (DBProject.id project));
                      ("assetId", JStr (DBAsset.id asset)); ("key", JStr key)])), w')
    /\ assets (DB w') = assets (DB w) ++ [asset]
    /\ DBAsset.project_id asset = projectId
    /\ DBAsset.type asset = "image"
    /\ DBAsset.r2_key asset = key
    /\ DBAsset.mime_type asset = Some contentType
    /\ DBAsset.size_bytes asset = Some (Z.of_nat (length bytes))
    /\ DBAsset.label asset = Some (default (substring 0 64 subject) (image_label payload))
    /\ MEDIA_BUCKET w' !! key = Some {| r2_body := bytes; r2_contentType := contentType |}
    /\ generation_jobs (DB w') = generation_jobs (DB w) ++ [succeeded]
    /\ DBGenerationJob.project_id succeeded = projectId
    /\ DBGenerationJob.job_type succeeded = "image"
    /\ DBGenerationJob.status succeeded = "succeeded"
    /\ projects (DB w') = projects (DB w)
    /\ project_versions (DB w') = project_versions (DB w).
Proof.
  intros contentType extension key Hsub Hsubne Hpid Hpidne Hprompt Hpromptne Hsel Hfind Hown
    Hfresh Hcall Hbuffer Hput.
  pose proof (fresh_uuids_nth out w 3 0 Hfresh ltac:(lia)) as Hf0.
  pose proof (fresh_uuids_nth out w 3 2 Hfresh ltac:(lia)) as Hf2.
  rewrite Nat.add_0_r in Hf0.
  replace (uuids_drawn w + 2)%nat with (S (S (uuids_drawn w))) in Hf2 by lia.
  destruct (find_some_elem _ _ _ Hfind) as [Hin Hid].
  apply bool_decide_eq_true_1 in Hid.
  assert (projectId ∈ project_ids (DB w)) as Hfk.
  { rewrite <- Hid. apply list_elem_of_fmap. by exists project. }
  destruct (ensureUser_existing out w accessSub (x_user_email headers)
              (x_user_name headers) user Hsel)
    as (user' & w1 & Hrun & Huid & Hp & Hv & Ha & Hj & _ & Hc & Hb & Hn & Hu & He).
  unfold POST_image. rewrite Hsub, (str_truthy_Some _ Hsubne), Hpid, (str_truthy_Some _ Hpidne).
  rewrite Hprompt, (str_truthy_Some _ Hpromptne). cbn [negb default from_option id].
  rewrite (run_bind _ _ _ _ _ Hrun).
  rewrite (run_bind _ _ _ _ _ (getProjectById_run _ _)). rewrite Hp, Hfind.
  rewrite bool_decide_eq_true_2 by congruence. cbn [negb].
  erewrite run_bind.
  2:{ apply insertGenerationJob_run.
      - rewrite Hu, Hj. eauto with in_use.
      - unfold project_ids. by rewrite Hp, Hid. }
  erewrite run_try_ok.
  2:{ unfold image_generate. rewrite Hprompt. cbn [default from_option id].
      erewrite run_bind; [|unfold call_generateImage; by rewrite Hcall].
      erewrite run_bind; [|unfold lift; by rewrite Hbuffer].
      erewrite run_bind; [|reflexivity].
      erewrite run_bind; [|unfold bucket_put; by rewrite Hput].
      erewrite run_bind.
      2:{ apply insertAsset_run; world_simpl.
          - cbn [assets]. rewrite Hu, Ha. eauto with in_use.
          - unfold project_ids. cbn [projects]. by rewrite Hp, Hid. }
      unfold updateGenerationJobStatus. unfold_monad. reflexivity. }
  world_simpl. rewrite Hu. fold contentType extension key.
  eexists _, _, _. split; [reflexivity|].
  world_simpl. cbn [users projects project_versions assets generation_jobs].
  rewrite (map_update_last DBGenerationJob.id);
    [|rewrite ?Hu, ?Hj; eauto with in_use|simpl; by rewrite ?Hu].
  rewrite Ha, Hj, Hp, Hv, Hid.
  split; [reflexivity|]. simpl.
  repeat split; try reflexivity. apply lookup_insert_eq.
Qed.

End ImagePath.

Lemma image_stored_under_its_type_witness :
  exists response w',
    Fixture.post
      (Routes.ImageRequest Fixture.alice
         (Routes.Parsed {| Routes.image_projectId := Some "project-a";
                  Routes.prompt := Some "A tide pool"; Routes.style := None;
                  Routes.aspectRatio := None; Routes.image_label := None |}))
      Fixture.alice_world
    = (Ok response, w')
    /\ Routes.status response = 200
    /\ map DBAsset.r2_key (World.assets (World.DB w')) = ["images/project-a/uuid-1.jpeg"]
    /\ map DBAsset.label (World.assets (World.DB w')) = [Some "A tide pool"].
Proof.
  destruct (@image_stored_under_its_type Reference.platform Fixture.outside Fixture.alice
              {| Routes.image_projectId := Some "project-a";
                 Routes.prompt := Some "A tide pool"; Routes.style := None;
                 Routes.aspectRatio := None; Routes.image_label := None |}
              "alice" "project-a" "A tide pool" Fixture.alice_world Fixture.alice_row
              Fixture.alice_project
              {| World.content_type := Some "image/jpeg";
                 World.arrayBuffer := Ok ["4"; "5"]%byte |} ["4"; "5"]%byte)
    as (asset & succeeded & w' & Hrun & Ha & _ & _ & Hkey & _ & _ & Hlabel & _).
  - reflexivity.
  - discriminate.
  - reflexivity.
  - discriminate.
  - reflexivity.
  - discriminate.
  - vm_compute. reflexivity.
  - vm_compute. reflexivity.
  - reflexivity.
  - split; apply (bool_decide_unpack _); vm_compute; exact I.
  - reflexivity.
  - reflexivity.
  - reflexivity.
  - eexists _, w'. split; [exact Hrun|]. split; [reflexivity|].
    rewrite Ha. simpl. rewrite Hkey, Hlabel. vm_compute. by split.
Defined.

(** ** One row per subject *)

Lemma find_map_same {A} (f : A -> bool) (g : A -> A) (l : list A) :
  (forall x, f (g x) = f x) -> find f (map g l) = g <$> find f l.
Proof.
  intros Hf. induction l as [|a l IH]; [done|]. simpl. rewrite Hf.
  by destruct (f a).
Qed.

Lemma NoDup_snoc {A} (l : list A) (x : A) : NoDup l -> x ∉ l -> NoDup (l ++ [x]).
Proof.
  intros Hl Hx. apply NoDup_app. split; [done|]. split; [|apply NoDup_singleton].
  intros y Hy Hin. apply list_elem_of_singleton in Hin. by subst.
Qed.

Section OneRowPerSubject.
Context {P : Platform} (out : World.Outside).
Import World Db Routes Fresh Frame Checks.

Lemma ensureUser_unique_step (w : World.t) (accessSub : string)
    (email name : option string) :
  users_unique (DB w) ->
  uuid_source out (uuids_drawn w) ∉ user_ids (DB w) ->
  exists user w',
    ensureUser out accessSub email name w = (Ok user, w')
    /\ users_unique (DB w')
    /\ select_user_by_sub (DB w') accessSub = Some user
    /\ DBUser.access_sub user = accessSub
    /\ (forall existing, select_user_by_sub (DB w) accessSub = Some existing ->
                         DBUser.id user = DBUser.id existing
                         /\ map DBUser.id (users (DB w')) = map DBUser.id (users (DB w))
                         /\ uuids_drawn w' = uuids_drawn w)
    /\ (select_user_by_sub (DB w) accessSub = None ->
        map DBUser.id (users (DB w')) = map DBUser.id (users (DB w)) ++ [DBUser.id user]).
Proof.
  intros [Hids Hsubs] Hfresh.
  destruct (select_user_by_sub (DB w) accessSub) as [existing|] eqn:Hsel.
  - pose proof (find_some_elem _ _ _ Hsel) as [Hin Hmatch].
    apply bool_decide_eq_true_1 in Hmatch.
    unfold ensureUser, update_user. unfold_monad. simpl. rewrite Hsel.
    destruct (str_truthy email || str_truthy name); simpl.
    + eexists _, _. split; [reflexivity|]. world_simpl. cbn [users].
      set (update := fun u : DBUser.t => if bool_decide (DBUser.id u = DBUser.id existing)
                                         then _ else u).
      assert (map DBUser.id (map update (users (DB w))) = map DBUser.id (users (DB w)))
        as Hsame_ids.
      { rewrite map_map. apply map_ext. intros u. unfold update.
        by destruct (bool_decide _). }
      assert (map DBUser.access_sub (map update (users (DB w)))
              = map DBUser.access_sub (users (DB w))) as Hsame_subs.
      { rewrite map_map. apply map_ext. intros u. unfold update.
        by destruct (bool_decide _). }
      split; [unfold users_unique; cbn [users]; by rewrite Hsame_ids, Hsame_subs|].
      split.
      { unfold select_user_by_sub. cbn [users]. rewrite find_map_same.
        - fold (select_user_by_sub (DB w) accessSub). rewrite Hsel. simpl.
          unfold update. by rewrite bool_decide_eq_true_2.
        - intros u. unfold update. by destruct (bool_decide (DBUser.id u = _)). }
      split; [done|]. split; [|done].
      intros ? [= <-]. by repeat split.
    + eexists _, _. split; [reflexivity|].
      split; [done|]. split; [done|]. split; [done|]. split; [|done].
      intros ? [= <-]. by repeat split.
  - rewrite (ensureUser_new out w accessSub email name Hsel Hfresh).
    eexists _, _. split; [reflexivity|]. world_simpl. cbn [users].
    assert (accessSub ∉ map DBUser.access_sub (users (DB w))) as Hnew.
    { intros Hin. apply list_elem_of_fmap in Hin as (u & Hu & Hin).
      pose proof (find_none_forall _ _ Hsel u Hin) as Hf. simpl in Hf.
      by apply bool_decide_eq_false_1 in Hf. }
    split.
    { unfold users_unique. cbn [users]. rewrite !map_app. simpl.
      split; by apply NoDup_snoc. }
    split.
    { unfold select_user_by_sub. cbn [users]. apply find_none_app.
      - apply (find_none_forall _ _ Hsel).
      - by apply bool_decide_eq_true_2. }
    split; [done|]. split; [done|]. intros _. by rewrite map_app.
Qed.

(** X17. [ensureUser] keeps [users] keyed by [id] and by [access_sub], and
    answers with the one row of the subject: a subject that has a row keeps
    its [id] and no row is added; a subject that has none gets one row,
    under the identifier drawn. A second call for the same subject, with
    whatever e-mail address and name, answers with the same [id] and adds
    no row. *)
Theorem ensureUser_one_row_per_subject (w : World.t) (accessSub : string)
    (email name : option string) :
  users_unique (DB w) ->
  fresh_uuids out w 2 ->
  exists user w',
    ensureUser out accessSub email name w = (Ok user, w')
    /\ users_unique (DB w')
    /\ select_user_by_sub (DB w') accessSub = Some user
    /\ (forall existing, select_user_by_sub (DB w) accessSub = Some existing ->
                         DBUser.id user = DBUser.id existing
                         /\ length (users (DB w')) = length (users (DB w)))
    /\ (select_user_by_sub (DB w) accessSub = None ->
        DBUser.id user = uuid_source out (uuids_drawn w)
        /\ length (users (DB w')) = S (length (users (DB w))))
    /\ forall email' name',
         exists again w'',
           ensureUser out accessSub email' name' w' = (Ok again, w'')
           /\ DBUser.id again = DBUser.id user
           /\ length (users (DB w'')) = length (users (DB w'))
           /\ users_unique (DB w'').
Proof.
  intros Hunique Hfresh.
  pose proof (fresh_uuids_nth out w 2 0 Hfresh ltac:(lia)) as Hf0.
  pose proof (fresh_uuids_nth out w 2 1 Hfresh ltac:(lia)) as Hf1.
  rewrite Nat.add_0_r in Hf0.
  destruct (ensureUser_unique_step w accessSub email name Hunique)
    as (user & w' & Hrun & Hunique' & Hsel' & Hsub & Hold & Hnew); [eauto with in_use|].
  exists user, w'. split; [done|]. split; [done|]. split; [done|].
  split; [|split].
  - intros existing Hsel. destruct (Hold existing Hsel) as (Hid & Hids & _).
    split; [done|]. apply (f_equal length) in Hids. by rewrite !length_map in Hids.
  - intros Hsel. specialize (Hnew Hsel). split.
    + rewrite (ensureUser_new out w accessSub email name Hsel) in Hrun
        by eauto with in_use. injection Hrun as Huser _. by rewrite <- Huser.
    + apply (f_equal length) in Hnew. rewrite length_app, !length_map in Hnew.
      simpl in Hnew. lia.
  - intros email' name'.
    destruct (ensureUser_unique_step w' accessSub email' name' Hunique')
      as (again & w'' & Hrun' & Hunique'' & _ & _ & Hold' & _).
    + destruct (select_user_by_sub (DB w) accessSub) as [existing|] eqn:Hsel.
      * destruct (Hold existing eq_refl) as (_ & Hids & ->).
        unfold user_ids. rewrite Hids. eauto with in_use.
      * specialize (Hnew eq_refl).
        rewrite (ensureUser_new out w accessSub email name Hsel) in Hrun
          by eauto with in_use.
        injection Hrun as Huser Hw'.
        assert (uuids_drawn w' = S (uuids_drawn w)) as -> by (by rewrite <- Hw').
        assert (DBUser.id user = uuid_source out (uuids_drawn w)) as Hid
          by (by rewrite <- Huser).
        unfold user_ids. rewrite Hnew, Hid.
        intros Hin. apply elem_of_app in Hin as [Hin|Hin].
        -- apply Hf1. replace (uuids_drawn w + 1)%nat with (S (uuids_drawn w)) by lia.
           eauto with in_use.
        -- apply list_elem_of_singleton in Hin.
           apply (fresh_uuids_distinct out w 2 1 0 Hfresh); [lia..|].
           by rewrite Nat.add_0_r, Nat.add_1_r.
    + exists again, w''. split; [done|].
      destruct (Hold' user Hsel') as (Hid & Hids & _). split; [done|].
      split; [|done]. apply (f_equal length) in Hids. by rewrite !length_map in Hids.
Qed.

End OneRowPerSubject.

Lemma ensureUser_one_row_per_subject_witness :
  exists user w' again w'',
    @Db.ensureUser Fixture.outside "bob" None None Fixture.alice_world = (Ok user, w')
    /\ length (World.users (World.DB w')) = 2%nat
    /\ @Db.ensureUser Fixture.outside "bob" (Some "bob@example.com") None w'
       = (Ok again, w'')
    /\ DBUser.id again = DBUser.id user
    /\ length (World.users (World.DB w'')) = 2%nat.
Proof.
  destruct (@ensureUser_one_row_per_subject Fixture.outside Fixture.alice_world "bob"
              None None)
    as (user & w' & Hrun & _ & _ & _ & Hnew & Hagain).
  - split; apply (bool_decide_unpack _); vm_compute; exact I.
  - split; apply (bool_decide_unpack _); vm_compute; exact I.
  - destruct (Hagain (Some "bob@example.com") None) as (again & w'' & Hrun' & Hid & Hlen & _).
    destruct (Hnew eq_refl) as [_ Hlen'].
    exists user, w', again, w''. split; [exact Hrun|]. split; [exact Hlen'|].
    split; [exact Hrun'|]. split; [exact Hid|]. rewrite Hlen. exact Hlen'.
Defined.

(** ** The answer of the script provider *)

Section GeminiAnswer.
Context {P : Platform}.
Import Gemini.

Lemma falsy_false (v : option Json) :
  falsy v = false <-> exists value, v = Some value /\ truthy value = true.
Proof.
  destruct v as [j|]; simpl.
  - rewrite negb_false_iff. split; [by exists j|]. by intros (? & [= <-] & ?).
  - split; [done|]. by intros (? & ? & _).
Qed.

Lemma parse_complete_ok (text : string) (parsed : Json) :
  parse_complete text = Ok parsed <->
  JSON_parse text = Ok parsed
  /\ Forall (fun key => exists value, get_field key parsed = Some value /\ truthy value = true)
       ["outline"; "sections"; "seo"; "thumbnailIdeas"].
Proof.
  unfold parse_complete. destruct (JSON_parse text) as [doc|e]; simpl; [|by split; [|intros []]].
  rewrite !Forall_cons, Forall_nil, <- !falsy_false.
  split.
  - intros H. assert (parsed = doc) as ->.
    { destruct doc; try done; destruct (_ || _); by simplify_eq. }
    destruct (falsy (get_field "outline" doc)), (falsy (get_field "sections" doc)),
      (falsy (get_field "seo" doc)), (falsy (get_field "thumbnailIdeas" doc));
      destruct doc; simpl in H; simplify_eq; done.
  - intros ([= ->] & H1 & H2 & H3 & H4 & _). rewrite H1, H2, H3, H4. simpl.
    by destruct parsed.
Qed.

(** X18. [parseGeminiResponse] returns a document exactly when the answer of
    the provider is an object whose [candidates] is a non-empty array, the
    first candidate has a text (that of the first of its parts that has
    one, or else its [output_text]) that is a non-empty string, that text is
    JSON, and the document it denotes has a truthy [outline], [sections],
    [seo] and [thumbnailIdeas]. The document returned is the one parsed from
    that text; only the first candidate is looked at. *)
Theorem parseGeminiResponse_returns_complete (raw parsed : Json) :
  parseGeminiResponse raw = Ok parsed <->
  exists first others text,
    get_field "candidates" raw = Some (JArr (first :: others))
    /\ candidate_text first = Some (JStr text)
    /\ text <> ""
    /\ JSON_parse text = Ok parsed
    /\ Forall (fun key => exists value,
                            get_field key parsed = Some value /\ truthy value = true)
         ["outline"; "sections"; "seo"; "thumbnailIdeas"].
Proof.
  unfold parseGeminiResponse. split.
  - intros H. destruct (negb (truthy raw) || negb (is_object raw)); [done|].
    destruct (get_field "candidates" raw) as [[| | | |[|first others]|]|] eqn:Hcandidates;
      try done.
    destruct (candidate_text first) as [[| | |text| |]|] eqn:Htext; try done.
    destruct (String.eqb text "") eqn:Hempty; [done|]. apply String.eqb_neq in Hempty.
    destruct (parse_complete text) as [doc|e] eqn:Hparse; [|done]. simplify_eq.
    apply parse_complete_ok in Hparse as [Hparse Hfields].
    by exists first, others, text.
  - intros (first & others & text & Hcandidates & Htext & Hne & Hparse & Hfields).
    assert (is_object raw = true /\ truthy raw = true) as [-> ->].
    { destruct raw; try done. }
    simpl. rewrite Hcandidates, Htext, (proj2 (String.eqb_neq _ _) Hne).
    by rewrite (proj2 (parse_complete_ok text parsed)).
Qed.

(** X19. When [parseGeminiResponse] throws, it throws an [Error] with one of
    four messages: the answer is missing, has no candidates, has no text,
    or, for everything that goes wrong once the text is there, [Failed to
    parse Gemini JSON:] followed by the message of what went wrong. A text
    that is JSON but lacks one of the four fields is reported in that last
    way, as [Failed to parse Gemini JSON: Gemini response incomplete]. *)
Theorem parseGeminiResponse_failures (raw : Json) (cause : Thrown) :
  parseGeminiResponse raw = Throw cause ->
  (exists message,
      cause = ThrownError message
      /\ (message ∈ ["Gemini response missing"; "Gemini returned no candidates";
                     "Gemini response missing text part"]
          \/ exists text detail,
               message = "Failed to parse Gemini JSON: " +:+ detail
               /\ (forall first others,
                     get_field "candidates" raw = Some (JArr (first :: others)) ->
                     candidate_text first = Some (JStr text))
               /\ match JSON_parse text with
                  | Throw error => detail = message_of error
                  | Ok JNull => detail = "Cannot read properties of null (reading 'outline')"
                  | Ok _ => detail = "Gemini response incomplete"
                  end)).
Proof.
  unfold parseGeminiResponse. intros H.
  destruct (negb (truthy raw) || negb (is_object raw)).
  { simplify_eq. eexists. split; [done|]. left. set_solver. }
  destruct (get_field "candidates" raw) as [[| | | |[|first others]|]|];
    try (simplify_eq; eexists; split; [done|]; left; set_solver).
  destruct (candidate_text first) as [[| | |text| |]|] eqn:Htext;
    try (simplify_eq; eexists; split; [done|]; left; set_solver).
  destruct (String.eqb text "");
    [simplify_eq; eexists; split; [done|]; left; set_solver|].
  destruct (parse_complete text) as [doc|e] eqn:Hparse; [done|]. simplify_eq.
  eexists. split; [done|]. right. exists text, (message_of e). split; [done|].
  split; [by intros ? ? [= <- <-]|].
  unfold parse_complete in Hparse.
  destruct (JSON_parse text) as [doc|e']; simpl in Hparse; [|by simplify_eq].
  destruct doc; try by simplify_eq.
  all: destruct (_ || _); by simplify_eq.
Qed.

End GeminiAnswer.

Lemma parseGeminiResponse_failures_witness :
  @Gemini.parseGeminiResponse Reference.platform
    (JObj [("candidates",
            JArr [JObj [("content",
                         JObj [("parts", JArr [JObj [("text", JStr "{}")]])])]])])
  = Throw (ThrownError "Failed to parse Gemini JSON: Gemini response incomplete").
Proof.
  destruct (@Gemini.parseGeminiResponse Reference.platform
              (JObj [("candidates",
                      JArr [JObj [("content",
                                   JObj [("parts", JArr [JObj [("text", JStr "{}")]])])]])]))
    as [parsed|cause] eqn:Hrun; [vm_compute in Hrun; discriminate Hrun|].
  destruct (@parseGeminiResponse_failures Reference.platform _ _ Hrun)
    as (message & -> & Hmessage).
  vm_compute in Hrun. congruence.
Defined.

(** ** Reading versions back *)

Lemma sorted_head_greatest {A} (column : A -> Z) (rows sorted : list A) (x : A) :
  Permutation sorted (rows ++ [x]) ->
  StronglySorted (fun a b => column b <= column a) sorted ->
  (forall y, y ∈ rows -> column y < column x) ->
  head sorted = Some x.
Proof.
  intros Hperm Hsorted Hless. destruct sorted as [|h t].
  { apply Permutation_nil in Hperm. by destruct rows. }
  simpl. f_equal.
  assert (h ∈ rows ++ [x]) as Hh by (rewrite <- Hperm; by left).
  assert (x ∈ h :: t) as Hx by (rewrite Hperm; apply elem_of_app; right; by left).
  apply elem_of_app in Hh as [Hh|Hh]; [|by apply list_elem_of_singleton in Hh].
  exfalso. specialize (Hless h Hh).
  apply elem_of_cons in Hx as [->|Hx]; [lia|].
  apply StronglySorted_inv in Hsorted as [_ Hall].
  rewrite Forall_forall in Hall. specialize (Hall x Hx). simpl in Hall. lia.
Qed.

Section ReadingBack.
Context {P : Platform} {O : D1Order} (out : World.Outside).
Import World Db DbRead.

(** What [insertProjectVersion] has done when it returns a row. *)
Lemma insertProjectVersion_inv (w w' : World.t) (projectId : string)
    (outline script seo : Json) (meta : option Json) (row : DBProjectVersion.t) :
  insertProjectVersion out projectId outline script seo meta w = (Ok row, w') ->
  project_versions (DB w') = project_versions (DB w) ++ [row]
  /\ DBProjectVersion.project_id row = projectId
  /\ DBProjectVersion.version row = default 0 (greatest (versions_of (DB w) projectId)) + 1.
Proof.
  unfold insertProjectVersion, insert_project_version. unfold_monad. simpl.
  intros H.
  destruct (bool_decide (_ ∈ map DBProjectVersion.id _)) eqn:Hid; [done|].
  apply bool_decide_eq_false_1 in Hid.
  destruct (bool_decide (_ ∈ versions_of _ _)); [done|].
  destruct (bool_decide (_ ∈ project_ids _)); [|done]. simpl in H.
  rewrite (find_by_key_last DBProjectVersion.id) in H by done.
  by simplify_eq.
Qed.

(** X20. After [insertProjectVersion] has returned a row, the latest version
    of its project is that row, as [parseProjectVersionRow] reads it,
    whatever versions the project had and whichever way the engine orders
    rows of equal version. *)
Theorem latest_version_is_the_inserted_one (w w' : World.t) (projectId : string)
    (outline script seo : Json) (meta : option Json) (row : DBProjectVersion.t) :
  d1_orders_rows ->
  insertProjectVersion out projectId outline script seo meta w = (Ok row, w') ->
  getLatestProjectVersion projectId w'
  = (match parseProjectVersionRow row with
     | Ok record => Ok (Some record)
     | Throw e => Throw e
     end, w').
Proof.
  intros Horder Hinsert.
  apply insertProjectVersion_inv in Hinsert as (Hrows & Hproject & Hversion).
  unfold getLatestProjectVersion. unfold_monad.
  assert (head (select_versions (DB w') projectId) = Some row) as ->.
  { unfold select_versions. rewrite Hrows, List.filter_app. simpl.
    rewrite bool_decide_eq_true_2 by done.
    destruct (Horder _ DBProjectVersion.version
                (List.filter (fun v => bool_decide (DBProjectVersion.project_id v = projectId))
                   (project_versions (DB w)) ++ [row])) as [Hperm Hsorted].
    eapply sorted_head_greatest; [exact Hperm|exact Hsorted|].
    intros y Hy. rewrite Hversion.
    assert (DBProjectVersion.version y ∈ versions_of (DB w) projectId) as Hin.
    { unfold versions_of. apply list_elem_of_fmap. by exists y. }
    destruct (greatest (versions_of (DB w) projectId)) as [m|] eqn:E.
    - pose proof (greatest_upper _ _ _ E Hin). simpl. lia.
    - apply greatest_None in E. rewrite E in Hin. by apply elem_of_nil in Hin. }
  by destruct (parseProjectVersionRow row).
Qed.

Lemma parseJson_cases (text : string) (fallback : Json) :
  (text = "" /\ parseJson (Some text) fallback = fallback)
  \/ (text <> "" /\ exists e, JSON_parse text = Throw e /\ parseJson (Some text) fallback = fallback)
  \/ (text <> "" /\ exists parsed,
        JSON_parse text = Ok parsed /\ parseJson (Some text) fallback = parsed).
Proof.
  unfold parseJson. simpl. destruct (String.eqb text "") eqn:Hempty; simpl.
  - left. by apply String.eqb_eq in Hempty.
  - apply String.eqb_neq in Hempty. right.
    destruct (JSON_parse text) as [parsed|e]; [right|left]; split; try done; by eexists.
Qed.

(** X21. [parseProjectVersionRow] throws for exactly one kind of row: one whose
    [seo] column holds the JSON text of [null]. For any other row it
    returns a record with the identifiers, the number and the date of the
    row; a [seo] column that is empty or is not JSON gives an empty title,
    an empty description and no tags. *)
Theorem parseProjectVersionRow_throws_on_null_seo (row : DBProjectVersion.t) :
  ((exists e, parseProjectVersionRow row = Throw e) <->
     DBProjectVersion.seo row <> "" /\ JSON_parse (DBProjectVersion.seo row) = Ok JNull)
  /\ (forall record,
        parseProjectVersionRow row = Ok record ->
        id record = DBProjectVersion.id row
        /\ project_id record = DBProjectVersion.project_id row
        /\ version record = DBProjectVersion.version row
        /\ created_at record = DBProjectVersion.created_at row
        /\ ((DBProjectVersion.seo row = ""
             \/ (exists e, JSON_parse (DBProjectVersion.seo row) = Throw e)) ->
            DbRead.seo record = {| title := ""; description := ""; tags := [] |})).
Proof.
  unfold parseProjectVersionRow.
  destruct (parseJson_cases (DBProjectVersion.seo row) (JObj []))
    as [[Hempty ->]|[(Hne & e & Hparse & ->)|(Hne & rawSeo & Hparse & ->)]].
  - split.
    + split; [by intros [? ?]|]. by intros [? _].
    + intros record [= <-]. by repeat split.
  - split.
    + split; [by intros [? ?]|]. rewrite Hparse. by intros [_ ?].
    + intros record [= <-]. by repeat split.
  - rewrite Hparse. split.
    + split; [|intros [_ [= ->]]; by eexists].
      intros [e He]. by destruct rawSeo.
    + intros record Hrecord. destruct rawSeo; simplify_eq; simpl; repeat split;
        by intros [?|[? ?]].
Qed.

End ReadingBack.

(** ** Listing the projects of a user *)

Lemma fold_left_set_count_lookup (rows : list (string * Z)) (counts : gmap string Z) :
  NoDup (map fst rows) ->
  forall key,
    fold_left DbRead.set_count rows counts !! key
    = match find (fun row => bool_decide (fst row = key)) rows with
      | Some row => if String.eqb key "__proto__" then counts !! key else Some (snd row)
      | None => counts !! key
      end.
Proof.
  revert counts. induction rows as [|[k v] rest IH]; intros counts Hnd key; [done|].
  simpl in *. apply NoDup_cons in Hnd as [Hk Hnd]. rewrite IH by done.
  destruct (bool_decide (k = key)) eqn:E.
  - apply bool_decide_eq_true_1 in E as ->.
    destruct (find _ rest) as [[k' v']|] eqn:Hfind.
    + apply find_some_elem in Hfind as [Hin Hkey].
      apply bool_decide_eq_true_1 in Hkey. simpl in Hkey. subst.
      exfalso. apply Hk. apply list_elem_of_fmap. by exists (key, v').
    + unfold DbRead.set_count. simpl.
      destruct (String.eqb key "__proto__"); [done|]. apply lookup_insert_eq.
  - apply bool_decide_eq_false_1 in E. unfold DbRead.set_count. simpl.
    destruct (String.eqb k "__proto__") eqn:Ek; [done|].
    destruct (find _ rest); [|by apply lookup_insert_ne].
    destruct (String.eqb key "__proto__"); [|done]. by apply lookup_insert_ne.
Qed.

Lemma filter_filter_and {A} (f g : A -> bool) (l : list A) :
  List.filter g (List.filter f l) = List.filter (fun x => f x && g x) l.
Proof.
  induction l as [|a l IH]; [done|]. simpl.
  destruct (f a); simpl; [|done]. destruct (g a); by rewrite IH.
Qed.

Lemma filter_length_pos {A} (f : A -> bool) (l : list A) :
  (0 < length (List.filter f l))%nat <-> exists x, x ∈ l /\ f x = true.
Proof.
  induction l as [|a l IH]; simpl.
  - split; [lia|]. intros (x & Hx & _). by apply elem_of_nil in Hx.
  - destruct (f a) eqn:E; simpl.
    + split; [|lia]. intros _. exists a. split; [by left|done].
    + rewrite IH. split.
      * intros (x & Hx & Hf). exists x. split; [by right|done].
      * intros (x & Hx & Hf). apply elem_of_cons in Hx as [->|Hx]; [congruence|].
        by exists x.
Qed.

Section Listing.
Context {P : Platform} {O : D1Order}.
Import World Db DbRead.

Lemma asset_counts_lookup (d : Database) (projectId type : string) :
  fold_left set_count (select_asset_counts d projectId) (∅ : gmap string Z) !! type
  = (if (count_assets d projectId type =? 0) || String.eqb type "__proto__" then None
     else Some (count_assets d projectId type)).
Proof.
  unfold select_asset_counts.
  set (mine := List.filter _ (World.assets d)).
  assert (count_assets d projectId type
          = Z.of_nat (length (List.filter (fun a => bool_decide (DBAsset.type a = type))
                                mine))) as Hcount.
  { unfold count_assets, mine. by rewrite filter_filter_and. }
  rewrite fold_left_set_count_lookup.
  2:{ rewrite map_map. simpl. rewrite map_id. apply NoDup_remove_dups. }
  destruct (find _ _) as [[k n]|] eqn:Hfind.
  - apply find_some_elem in Hfind as [Hin Hkey].
    apply bool_decide_eq_true_1 in Hkey. simpl in Hkey. subst k.
    apply list_elem_of_fmap in Hin as (type' & [= <- ->] & Hin).
    apply elem_of_remove_dups, list_elem_of_fmap in Hin as (a & -> & Ha).
    rewrite <- Hcount. simpl.
    assert (0 < count_assets d projectId (DBAsset.type a)) as Hpos.
    { rewrite Hcount. apply (inj_lt 0), filter_length_pos. exists a.
      split; [done|]. by apply bool_decide_eq_true_2. }
    rewrite (proj2 (Z.eqb_neq _ _)) by lia. simpl.
    by destruct (String.eqb _ "__proto__").
  - rewrite lookup_empty.
    assert (count_assets d projectId type = 0) as ->; [|done].
    rewrite Hcount.
    destruct (length (List.filter (fun a => bool_decide (DBAsset.type a = type)) mine))
      eqn:Hlen; [done|].
    exfalso.
    assert (0 < length (List.filter (fun a => bool_decide (DBAsset.type a = type)) mine))%nat
      as Hpos by lia.
    apply filter_length_pos in Hpos as (a & Ha & Htype).
    apply bool_decide_eq_true_1 in Htype.
    pose proof (find_none_forall _ _ Hfind
                  (type, Z.of_nat (length (List.filter
                                             (fun a => bool_decide (DBAsset.type a = type))
                                             mine)))) as Hnone.
    simpl in Hnone. rewrite bool_decide_eq_true_2 in Hnone by done.
    discriminate Hnone. apply list_elem_of_fmap. exists type. split; [done|].
    apply elem_of_remove_dups, list_elem_of_fmap. by exists a.
Qed.

Lemma getLatestProjectVersion_reads (w : World.t) (projectId : string) :
  d1_orders_rows ->
  exists outcome,
    getLatestProjectVersion projectId w = (outcome, w)
    /\ ((forall v, v ∈ project_versions (DB w) ->
                   forall e, parseProjectVersionRow v <> Throw e) ->
        exists latest, outcome = Ok latest).
Proof.
  intros Horder. unfold getLatestProjectVersion. unfold_monad.
  destruct (head (select_versions (DB w) projectId)) as [row|] eqn:Hhead;
    [|by eexists; split; [|eexists]].
  destruct (parseProjectVersionRow row) as [record|e] eqn:Hparse.
  - eexists. split; [done|]. by eexists.
  - eexists. split; [done|]. intros Hall. exfalso. refine (Hall row _ e Hparse).
    unfold select_versions in Hhead.
    destruct (Horder _ DBProjectVersion.version
                (List.filter (fun v => bool_decide (DBProjectVersion.project_id v = projectId))
                   (project_versions (DB w)))) as [Hperm _].
    assert (row ∈ order_by_desc DBProjectVersion.version
                    (List.filter
                       (fun v => bool_decide (DBProjectVersion.project_id v = projectId))
                       (project_versions (DB w)))) as Hin.
    { destruct (order_by_desc _ _); [done|]. simpl in Hhead. simplify_eq. by left. }
    rewrite Hperm in Hin. by apply list_elem_of_In, filter_In in Hin as [?%list_elem_of_In _].
Qed.

Lemma list_items_reads (projects : list DBProject.t) :
  forall (items : list ProjectListItem) (w : World.t),
    d1_orders_rows ->
    exists outcome,
      list_items projects items w = (outcome, w)
      /\ (forall result,
            outcome = Ok result ->
            exists listed,
              result = items ++ listed
              /\ map project listed = projects
              /\ Forall (fun item =>
                           forall type,
                             assetCounts item !! type
                             = (if (count_assets (DB w) (DBProject.id (project item)) type
                                    =? 0)
                                   || String.eqb type "__proto__"
                                then None
                                else Some (count_assets (DB w)
                                             (DBProject.id (project item)) type)))
                   listed)
      /\ ((forall v, v ∈ project_versions (DB w) ->
                     forall e, parseProjectVersionRow v <> Throw e) ->
          exists result, outcome = Ok result).
Proof.
  induction projects as [|p rest IH]; intros items w Horder.
  - exists (Ok items). split; [done|]. split; [|by eexists].
    intros result [= <-]. exists []. by rewrite app_nil_r.
  - cbn [list_items].
    destruct (getLatestProjectVersion_reads w (DBProject.id p) Horder)
      as (latest & Hlatest & Htotal).
    destruct latest as [latest|e].
    + erewrite run_bind; [|exact Hlatest]. erewrite run_bind; [|reflexivity].
      match goal with
      | |- context [list_items rest ?acc w] =>
          destruct (IH acc w Horder) as (outcome & Hrun & Hspec & Hok)
      end.
      exists outcome. split; [done|]. split; [|done].
      intros result Hresult. destruct (Hspec result Hresult) as (listed & -> & Hmap & Hall).
      eexists (_ :: listed). split; [by rewrite <- app_assoc|].
      split; [simpl; by rewrite Hmap|].
      constructor; [|done]. intros type. simpl. apply asset_counts_lookup.
    + erewrite run_bind_throw; [|exact Hlatest].
      exists (Throw e). split; [done|]. split; [done|].
      intros Hall. by destruct (Htotal Hall).
Qed.

(** X22. [listProjectsForUser] reads and writes nothing. When it returns, it
    lists the projects of the user, each once and no others, by decreasing
    date of update, each with the number of its assets of every type (a type
    of which it has none is absent, and so is the type [__proto__]). It
    returns unless a version row cannot be read. *)
Theorem listProjectsForUser_lists_own_projects (w : World.t) (userId : string) :
  d1_orders_rows ->
  exists outcome,
    listProjectsForUser userId w = (outcome, w)
    /\ (forall items,
          outcome = Ok items ->
          Permutation (map project items)
            (List.filter (fun p => bool_decide (DBProject.user_id p = userId))
               (projects (DB w)))
          /\ StronglySorted (fun a b => DBProject.updated_at b <= DBProject.updated_at a)
               (map project items)
          /\ Forall (fun item =>
                       DBProject.user_id (project item) = userId
                       /\ forall type,
                            assetCounts item !! type
                            = (if (count_assets (DB w) (DBProject.id (project item)) type
                                   =? 0)
                                  || String.eqb type "__proto__"
                               then None
                               else Some (count_assets (DB w)
                                            (DBProject.id (project item)) type)))
               items)
    /\ ((forall v, v ∈ project_versions (DB w) ->
                   forall e, parseProjectVersionRow v <> Throw e) ->
        exists items, outcome = Ok items).
Proof.
  intros Horder. unfold listProjectsForUser.
  erewrite run_bind; [|reflexivity].
  match goal with
  | |- context [list_items ?ps [] w] =>
      destruct (list_items_reads ps [] w Horder) as (outcome & Hrun & Hspec & Hok);
      destruct (Horder _ DBProject.updated_at
                  (List.filter (fun p => bool_decide (DBProject.user_id p = userId))
                     (projects (DB w)))) as [Hperm Hsorted]
  end.
  exists outcome. split; [done|]. split; [|done].
  intros items Hitems. destruct (Hspec items Hitems) as (listed & -> & Hmap & Hall).
  simpl. rewrite Hmap. split; [done|]. split; [done|].
  rewrite Forall_forall in Hall |- *. intros item Hitem. split; [|by apply Hall].
  assert (project item ∈ map project listed) as Hin.
  { apply list_elem_of_fmap. by exists item. }
  rewrite Hmap, Hperm in Hin.
  apply list_elem_of_In, filter_In in Hin as [_ Hin]. by apply bool_decide_eq_true_1 in Hin.
Qed.

End Listing.

(** ** The detail of a project *)

Section Detail.
Context {P : Platform} {O : D1Order}.
Import World Db DbRead.

Lemma parseProjectVersionRow_fields (row : DBProjectVersion.t) (record : ProjectVersionRecord) :
  parseProjectVersionRow row = Ok record ->
  id record = DBProjectVersion.id row /\ version record = DBProjectVersion.version row.
Proof.
  unfold parseProjectVersionRow. intros H.
  destruct (parseJson (Some (DBProjectVersion.seo row)) (JObj [])); by simplify_eq.
Qed.

Lemma map_result_ok {A B} (f : A -> Result B) (rows : list A) (bs : list B) :
  map_result f rows = Ok bs -> Forall2 (fun row b => f row = Ok b) rows bs.
Proof.
  revert bs. induction rows as [|row rest IH]; intros bs H; simpl in H.
  - simplify_eq. constructor.
  - destruct (f row) as [b|] eqn:Hrow; [|done]. simpl in H.
    destruct (map_result f rest) as [bs'|]; [|done]. simpl in H. simplify_eq.
    constructor; [done|by apply IH].
Qed.

Lemma read_versions (rows : list DBProjectVersion.t) (records : list ProjectVersionRecord) :
  Forall2 (fun row record => parseProjectVersionRow row = Ok record) rows records ->
  map id records = map DBProjectVersion.id rows
  /\ map version records = map DBProjectVersion.version rows
  /\ match head rows with
     | Some row => exists record,
                     head records = Some record /\ parseProjectVersionRow row = Ok record
     | None => head records = None
     end.
Proof.
  intros Hall. split; [|split].
  - induction Hall as [|row record rows records Hrow _ IH]; [done|].
    simpl. apply parseProjectVersionRow_fields in Hrow as [-> _]. by rewrite IH.
  - induction Hall as [|row record rows records Hrow _ IH]; [done|].
    simpl. apply parseProjectVersionRow_fields in Hrow as [_ ->]. by rewrite IH.
  - destruct Hall; [done|]. by eexists.
Qed.

Lemma sorted_map {A} (f : A -> Z) (l : list A) :
  StronglySorted (fun a b => b <= a) (map f l) <-> StronglySorted (fun a b => f b <= f a) l.
Proof.
  induction l as [|a l IH]; simpl.
  - split; constructor.
  - split; intros [Hl Ha]%StronglySorted_inv; constructor; try by apply IH.
    + rewrite Forall_forall in Ha. rewrite Forall_forall. intros x Hx. apply (Ha (f x)).
      apply list_elem_of_fmap. by exists x.
    + rewrite Forall_forall in Ha. rewrite Forall_forall. intros y Hy.
      apply list_elem_of_fmap in Hy as (x & -> & Hx). by apply Ha.
Qed.

(** X23. When [getProjectDetail] returns a detail it has written nothing, and
    the detail is that of the project asked for: [versions] holds one
    record for each version row of the project and for no other, by
    decreasing number; [latestVersion] is what [getLatestProjectVersion]
    returns; [assets] and [generationJobs] hold the assets and the jobs of
    the project, each once, and no others. *)
Theorem getProjectDetail_is_complete (w w' : World.t) (projectId : string)
    (detail : ProjectDetailRecord) :
  d1_orders_rows ->
  getProjectDetail projectId w = (Ok (Some detail), w') ->
  w' = w
  /\ DBProject.id (detail_project detail) = projectId
  /\ getLatestProjectVersion projectId w = (Ok (detail_latestVersion detail), w)
  /\ Permutation (map id (versions detail))
       (map DBProjectVersion.id
          (List.filter (fun v => bool_decide (DBProjectVersion.project_id v = projectId))
             (project_versions (DB w))))
  /\ StronglySorted (fun a b => version b <= version a) (versions detail)
  /\ Permutation (DbRead.assets detail)
       (List.filter (fun a => bool_decide (DBAsset.project_id a = projectId))
          (World.assets (DB w)))
  /\ Permutation (map job (generationJobs detail))
       (List.filter (fun j => bool_decide (DBGenerationJob.project_id j = projectId))
          (generation_jobs (DB w))).
Proof.
  intros Horder. unfold getProjectDetail.
  erewrite run_bind; [|apply getProjectById_run].
  destruct (find _ _) as [found|] eqn:Hfind; [|done].
  apply find_some_elem in Hfind as [_ Hid]. apply bool_decide_eq_true_1 in Hid.
  unfold getProjectVersions, listAssetsForProject, listGenerationJobsForProject,
    getLatestProjectVersion.
  unfold_monad. fold (select_versions (DB w) projectId).
  destruct (map_result parseProjectVersionRow (select_versions (DB w) projectId))
    as [records|] eqn:Hrecords; [|done].
  intros [= <- <-]. simpl.
  apply map_result_ok, read_versions in Hrecords as (Hids & Hversions & Hhead).
  unfold select_versions in *.
  destruct (Horder _ DBProjectVersion.version
              (List.filter (fun v => bool_decide (DBProjectVersion.project_id v = projectId))
                 (project_versions (DB w)))) as [Hperm Hsorted].
  destruct (Horder _ DBAsset.created_at
              (List.filter (fun a => bool_decide (DBAsset.project_id a = projectId))
                 (World.assets (DB w)))) as [Hassets _].
  destruct (Horder _ DBGenerationJob.created_at
              (List.filter (fun j => bool_decide (DBGenerationJob.project_id j = projectId))
                 (generation_jobs (DB w)))) as [Hjobs _].
  repeat split; try done.
  - destruct (head (order_by_desc _ _)) as [row|].
    + destruct Hhead as (record & -> & ->). done.
    + by rewrite Hhead.
  - by rewrite Hids, Hperm.
  - apply sorted_map. rewrite Hversions. by apply sorted_map.
  - rewrite map_map. simpl. by rewrite map_id.
Qed.

End Detail.

(** ** An engine that orders rows *)

Lemma insert_desc_perm {A} (column : A -> Z) (x : A) (l : list A) :
  Permutation (Engine.insert_desc column x l) (x :: l).
Proof.
  induction l as [|a l IH]; simpl; [done|].
  destruct (column a <? column x); [done|]. rewrite IH. apply perm_swap.
Qed.

Lemma insert_desc_sorted {A} (column : A -> Z) (x : A) (l : list A) :
  StronglySorted (fun a b => column b <= column a) l ->
  StronglySorted (fun a b => column b <= column a) (Engine.insert_desc column x l).
Proof.
  induction l as [|a l IH]; intros Hsorted; simpl.
  - by repeat constructor.
  - apply StronglySorted_inv in Hsorted as [Hl Ha].
    destruct (column a <? column x) eqn:E.
    + apply Z.ltb_lt in E. constructor; [by constructor|].
      constructor; [lia|]. eapply Forall_impl; [exact Ha|]. simpl. intros; lia.
    + apply Z.ltb_ge in E. constructor; [by apply IH|].
      rewrite insert_desc_perm. by constructor.
Qed.

Lemma engine_orders_rows : @d1_orders_rows Engine.d1.
Proof.
  intros A column rows. simpl. unfold Engine.sort_desc. induction rows as [|x l [IHp IHs]].
  - split; [done|constructor].
  - simpl. split; [by rewrite insert_desc_perm, IHp|by apply insert_desc_sorted].
Qed.

Lemma latest_version_is_the_inserted_one_witness :
  exists row w' record,
    @Db.insertProjectVersion Reference.platform Fixture.outside "project-a"
      (JArr []) (JArr []) (JObj [("title", JStr "Tides")]) None Fixture.alice_world
    = (Ok row, w')
    /\ @DbRead.getLatestProjectVersion Reference.platform Engine.d1 "project-a" w'
       = (Ok (Some record), w')
    /\ DbRead.version record = 4
    /\ DbRead.title (DbRead.seo record) = "Tides".
Proof.
  destruct (@Db.insertProjectVersion Reference.platform Fixture.outside "project-a"
              (JArr []) (JArr []) (JObj [("title", JStr "Tides")]) None Fixture.alice_world)
    as [[row|e] w'] eqn:Hrun; [|vm_compute in Hrun; discriminate Hrun].
  pose proof (@latest_version_is_the_inserted_one Reference.platform Engine.d1
                Fixture.outside _ _ _ _ _ _ _ _ engine_orders_rows Hrun) as Hlatest.
  vm_compute in Hrun. injection Hrun as <- _.
  eexists _, w', _. split; [reflexivity|]. split; [exact Hlatest|]. split; reflexivity.
Defined.

Lemma listProjectsForUser_lists_own_projects_witness :
  exists item,
    @DbRead.listProjectsForUser Reference.platform Engine.d1 "user-a" Engine.spoken_world
    = (Ok [item], Engine.spoken_world)
    /\ DBProject.id (DbRead.project item) = "project-a"
    /\ DbRead.assetCounts item !! "audio" = Some 2
    /\ DbRead.assetCounts item !! "image" = None.
Proof.
  destruct (@listProjectsForUser_lists_own_projects Reference.platform Engine.d1
              Engine.spoken_world "user-a" engine_orders_rows)
    as (outcome & Hrun & Hspec & Hok).
  destruct Hok as [items ->].
  { intros v Hv e. apply list_elem_of_In in Hv. simpl in Hv.
    destruct Hv as [<-|[<-|[<-|[]]]]; vm_compute; discriminate. }
  destruct (Hspec items eq_refl) as (Hperm & _ & Hall).
  simpl in Hperm. apply Permutation_sym, Permutation_singleton_l in Hperm.
  destruct items as [|item [|]]; try discriminate Hperm. injection Hperm as Hproject.
  exists item. split; [exact Hrun|]. split; [by rewrite <- Hproject|].
  apply Forall_cons in Hall as [[_ Hcounts] _]. rewrite !Hcounts, <- Hproject.
  split; reflexivity.
Defined.
Lemma getProjectDetail_is_complete_witness :
  exists detail,
    @DbRead.getProjectDetail Reference.platform Engine.d1 "project-a" Engine.spoken_world
    = (Ok (Some detail), Engine.spoken_world)
    /\ map DbRead.version (DbRead.versions detail) = [3; 2; 1]
    /\ @DbRead.getLatestProjectVersion Reference.platform Engine.d1 "project-a"
         Engine.spoken_world
       = (Ok (DbRead.detail_latestVersion detail), Engine.spoken_world)
    /\ length (DbRead.assets detail) = 2%nat.
Proof.
  destruct (@DbRead.getProjectDetail Reference.platform Engine.d1 "project-a"
              Engine.spoken_world) as [[[detail|]|e] w'] eqn:Hrun;
    [|vm_compute in Hrun; discriminate Hrun..].
  destruct (@getProjectDetail_is_complete Reference.platform Engine.d1 _ _ _ _
              engine_orders_rows Hrun) as (-> & _ & Hlatest & _ & _ & Hassets & _).
  exists detail. split; [done|]. split; [|split; [exact Hlatest|]].
  - vm_compute in Hrun. by injection Hrun as <-.
  - by rewrite (Permutation_length Hassets).
Defined.
